(** * Call-report aggregation: reportFetcher.js, server.js and script.js

    A shallow embedding of the report fetcher (cache, retrying paginated
    fetch, per-report post-processing), of the HTTP report endpoint and of
    the browser-side merge engine (buffers, reveal, fallback window),
    together with the properties checked against the specification.

    Conventions of the embedding:
    - JavaScript values are the inductive type [JsVal]; numbers are
      integers (epoch seconds or milliseconds, counts), objects are
      association lists in insertion order;
    - an exception is a result of type [Res] ([Throw]), never a missing
      case;
    - what the code gets from outside (the upstream HTTP API, the token
      provider, the clock, external library functions) is an explicit
      input: a script of outcomes, a time stamp, or a field of the class
      [Host];
    - what the code does to the outside (requests, sleeps) is recorded in
      a trace of events. *)

From Stdlib Require Import ZArith Ascii String List Bool Lia DecimalString.
From Stdlib Require Import Sorting.Sorted Sorting.Permutation.
From Stdlib Require DecimalPos DecimalZ.
From stdpp Require Import base option list strings gmap.

Open Scope string_scope.
Open Scope list_scope.
Open Scope Z_scope.

(** ** JavaScript values *)

Module Js.

#[local] Set Warnings "-register-all".

Inductive JsVal : Type :=
| JUndef
| JNull
| JBool (b : bool)
| JNum (n : Z)
| JNaN
| JStr (s : string)
| JArr (elems : list JsVal) (props : list (string * JsVal))
| JObj (fields : list (string * JsVal)).

(** An array as JSON delivers it: no named properties next to the
    elements.  (Assigning [arr.x = v] adds one, which is why [JArr] has the
    second component.) *)
Definition jarr (l : list JsVal) : JsVal := JArr l [].

(** Results of code that may throw. *)
Inductive Res (A : Type) : Type :=
| Ok (a : A)
| Throw (e : JsVal).
Arguments Ok {A} a.
Arguments Throw {A} e.

Definition bind {A B} (r : Res A) (k : A -> Res B) : Res B :=
  match r with
  | Ok a => k a
  | Throw e => Throw e
  end.

Notation "'let!' x ':=' r 'in' k" := (bind r (fun x => k))
  (at level 10, x name, r at level 100, k at level 200).

(** [for (const x of l) ...] with a body that may throw: stops at the first
    exception. *)
Fixpoint mapM {A B} (f : A -> Res B) (l : list A) : Res (list B) :=
  match l with
  | [] => Ok []
  | x :: l' => let! y := f x in let! ys := mapM f l' in Ok (y :: ys)
  end.

(** Exceptions are Error objects; of their text only the kind is kept. *)
Definition TypeError : JsVal := JObj [("message", JStr "TypeError")].
Definition RangeError : JsVal := JObj [("message", JStr "RangeError")].

(** ToBoolean. *)
Definition truthy (v : JsVal) : bool :=
  match v with
  | JUndef | JNull => false
  | JBool b => b
  | JNum n => negb (n =? 0)
  | JNaN => false
  | JStr s => negb (String.eqb s "")
  | JArr _ _ | JObj _ => true
  end.

Definition isNullish (v : JsVal) : bool :=
  match v with JUndef | JNull => true | _ => false end.

Definition isString (v : JsVal) : bool :=
  match v with JStr _ => true | _ => false end.

Fixpoint assoc (k : string) (l : list (string * JsVal)) : option JsVal :=
  match l with
  | [] => None
  | (k', v) :: l' => if String.eqb k k' then Some v else assoc k l'
  end.

Fixpoint assocSet (k : string) (v : JsVal) (l : list (string * JsVal))
  : list (string * JsVal) :=
  match l with
  | [] => [(k, v)]
  | (k', v') :: l' =>
      if String.eqb k k' then (k, v) :: l' else (k', v') :: assocSet k v l'
  end.

(** [o?.k]: property read that never throws.  The keys read by the code
    are field names, never array indices, [length] or string methods. *)
Definition getOpt (o : JsVal) (k : string) : JsVal :=
  match o with
  | JObj fs => default JUndef (assoc k fs)
  | JArr _ ps => default JUndef (assoc k ps)
  | _ => JUndef
  end.

(** [o.k]: throws a TypeError on null and undefined. *)
Definition get (o : JsVal) (k : string) : Res JsVal :=
  if isNullish o then Throw TypeError else Ok (getOpt o k).

(** [o.k = v] in strict mode (ES modules): a TypeError on primitives. *)
Definition set (o : JsVal) (k : string) (v : JsVal) : Res JsVal :=
  match o with
  | JObj fs => Ok (JObj (assocSet k v fs))
  | JArr l ps => Ok (JArr l (assocSet k v ps))
  | _ => Throw TypeError
  end.

(** [a ?? b] and [a || b]. *)
Definition nullish (a b : JsVal) : JsVal := if isNullish a then b else a.
Definition or (a b : JsVal) : JsVal := if truthy a then a else b.

(** Decimal rendering of an integer, as [String(n)] and template strings
    give it. *)
Definition showZ (n : Z) : string := NilZero.string_of_int (Z.to_int n).

(** [Object.keys(v).length]. *)
Definition keysLength (v : JsVal) : nat :=
  match v with
  | JObj fs => length fs
  | JArr l ps => (length l + length ps)%nat
  | JStr s => String.length s
  | _ => 0%nat
  end.

(** Key equality of [Map] and [Set] (SameValueZero): by value on
    primitives, by reference on objects and arrays.  Every object the
    code uses as a key comes from a separately received row, so two
    occurrences are never the same reference. *)
Definition sameValueZero (a b : JsVal) : bool :=
  match a, b with
  | JUndef, JUndef => true
  | JNull, JNull => true
  | JBool x, JBool y => Bool.eqb x y
  | JNum x, JNum y => x =? y
  | JNaN, JNaN => true
  | JStr x, JStr y => String.eqb x y
  | _, _ => false
  end.

Definition isPrim (v : JsVal) : bool :=
  match v with JArr _ _ | JObj _ => false | _ => true end.

(** What the JavaScript runtime and the external libraries compute and
    the embedding leaves abstract. *)
Class Host : Type := {
  (** libphonenumber-js: [parsePhoneNumber s] throws ([None]) or returns
      an object whose [country] is an ISO code or is missing. *)
  parsePhoneNumber : string -> option (option string);
  (** [Date.parse(v)] in milliseconds; [None] is NaN. *)
  Date_parse : JsVal -> option Z;
  (** [new Date(ms).toISOString()]; [None] is a RangeError. *)
  toISOString : Z -> option string;
  (** [JSON.parse(s)]; [None] is a SyntaxError. *)
  JSON_parse : string -> option JsVal;
  (** ToNumber on strings, arrays and objects; [None] is NaN. *)
  coerceNumber : JsVal -> option Z;
  (** The exception, if any, that rendering the history cells of a
      queue or campaign row as HTML ([historyToHtml],
      [queueHistoryToHtml], [leadHistoryToHtml]) throws for a source tag;
      the HTML text itself is not part of the embedding. *)
  historyCells : string -> JsVal -> option JsVal
}.

(** ToNumber; [None] is NaN. *)
Definition toNumber `{Host} (v : JsVal) : option Z :=
  match v with
  | JNum n => Some n
  | JNaN | JUndef => None
  | JNull => Some 0
  | JBool b => Some (if b then 1 else 0)
  | _ => coerceNumber v
  end.

(** [a - b]. *)
Definition minus `{Host} (a b : JsVal) : JsVal :=
  match toNumber a, toNumber b with
  | Some x, Some y => JNum (x - y)
  | _, _ => JNaN
  end.

End Js.
Export Js.

(** ** String helpers (String.prototype) *)

Module Str.

Definition isDigit (c : ascii) : bool :=
  let n := nat_of_ascii c in ((48 <=? n) && (n <=? 57))%nat.

Fixpoint filter (p : ascii -> bool) (s : string) : string :=
  match s with
  | EmptyString => EmptyString
  | String c s' => if p c then String c (filter p s') else filter p s'
  end.

(** [s.replace(/^0+/, '')]. *)
Fixpoint stripLeadingZeros (s : string) : string :=
  match s with
  | String "0"%char s' => stripLeadingZeros s'
  | _ => s
  end.

Definition startsWith (s p : string) : bool := String.prefix p s.

(** [s.substring(n)]. *)
Fixpoint dropStr (n : nat) (s : string) : string :=
  match n, s with
  | O, _ => s
  | S n', String _ s' => dropStr n' s'
  | S _, EmptyString => EmptyString
  end.

(** [s.includes(t)]. *)
Fixpoint includes (s t : string) : bool :=
  String.prefix t s ||
  match s with
  | EmptyString => false
  | String _ s' => includes s' t
  end.

End Str.

(** ** reportFetcher.js *)

Module ReportFetcher.

Definition MAX_RETRIES : nat := 3.

(** [ms('5m')]. *)
Definition CACHE_TTL : Z := 300000.

Section WithHost.

Context `{Host}.

Definition countryNames : list (string * string) :=
  [ ("AE", "UAE"); ("IN", "India"); ("GB", "United Kingdom");
    ("US", "United States"); ("CA", "Canada"); ("AU", "Australia");
    ("DE", "Germany"); ("FR", "France"); ("IT", "Italy"); ("ES", "Spain");
    ("NL", "Netherlands"); ("BE", "Belgium"); ("CH", "Switzerland");
    ("AT", "Austria"); ("SE", "Sweden"); ("NO", "Norway"); ("DK", "Denmark");
    ("FI", "Finland"); ("PL", "Poland"); ("CZ", "Czech Republic");
    ("HU", "Hungary"); ("RO", "Romania"); ("BG", "Bulgaria");
    ("HR", "Croatia"); ("SI", "Slovenia"); ("SK", "Slovakia");
    ("LT", "Lithuania"); ("LV", "Latvia"); ("EE", "Estonia");
    ("IE", "Ireland"); ("PT", "Portugal"); ("GR", "Greece"); ("CY", "Cyprus");
    ("MT", "Malta"); ("LU", "Luxembourg"); ("BR", "Brazil"); ("MX", "Mexico");
    ("AR", "Argentina"); ("CL", "Chile"); ("CO", "Colombia"); ("PE", "Peru");
    ("VE", "Venezuela"); ("UY", "Uruguay"); ("PY", "Paraguay");
    ("BO", "Bolivia"); ("EC", "Ecuador"); ("CN", "China"); ("JP", "Japan");
    ("KR", "South Korea"); ("TH", "Thailand"); ("VN", "Vietnam");
    ("MY", "Malaysia"); ("SG", "Singapore"); ("ID", "Indonesia");
    ("PH", "Philippines"); ("TW", "Taiwan"); ("HK", "Hong Kong");
    ("MO", "Macau"); ("RU", "Russia"); ("UA", "Ukraine"); ("BY", "Belarus");
    ("KZ", "Kazakhstan"); ("UZ", "Uzbekistan"); ("KG", "Kyrgyzstan");
    ("TJ", "Tajikistan"); ("TM", "Turkmenistan"); ("AM", "Armenia");
    ("AZ", "Azerbaijan"); ("GE", "Georgia"); ("MD", "Moldova");
    ("EG", "Egypt"); ("SA", "Saudi Arabia"); ("TR", "Turkey");
    ("IL", "Israel"); ("JO", "Jordan"); ("LB", "Lebanon"); ("SY", "Syria");
    ("IQ", "Iraq"); ("IR", "Iran"); ("AF", "Afghanistan"); ("PK", "Pakistan");
    ("BD", "Bangladesh"); ("LK", "Sri Lanka"); ("NP", "Nepal");
    ("BT", "Bhutan"); ("MV", "Maldives"); ("ZA", "South Africa");
    ("NG", "Nigeria"); ("KE", "Kenya"); ("GH", "Ghana"); ("ET", "Ethiopia");
    ("TZ", "Tanzania"); ("UG", "Uganda"); ("ZW", "Zimbabwe");
    ("ZM", "Zambia"); ("MW", "Malawi"); ("MZ", "Mozambique");
    ("BW", "Botswana"); ("NA", "Namibia"); ("SZ", "Eswatini");
    ("LS", "Lesotho") ].

Fixpoint lookupName (cc : string) (l : list (string * string)) : option string :=
  match l with
  | [] => None
  | (k, v) :: l' => if String.eqb cc k then Some v else lookupName cc l'
  end.

(** [phoneNumber.replace(/[^\d+]/g, '')], then the leading zeros stripped
    unless the number starts with [+]: the value of [cleanNumber] at the
    length test. *)
Definition cleanNumber (phoneNumber : string) : string :=
  let c := Str.filter (fun ch => Str.isDigit ch || Ascii.eqb ch "+"%char) phoneNumber in
  if Str.startsWith c "+" then c else Str.stripLeadingZeros c.

(** The re-prefixing before the library call. *)
Definition prefixForParse (c : string) : string :=
  if Str.startsWith c "00" then "+" +:+ Str.dropStr 2 c
  else if Str.startsWith c "0" && (10 <? String.length c)%nat
       then "+" +:+ Str.dropStr 1 c
  else if negb (Str.startsWith c "+") && (10 <? String.length c)%nat
       then "+" +:+ c
  else c.

Definition extractCountryFromPhoneNumber (phoneNumber : JsVal) : string :=
  match phoneNumber with
  | JStr p =>
    if String.eqb p "" then "" else
    let c := cleanNumber p in
    let len := String.length c in
    let sw := Str.startsWith c in
    if (len <=? 4)%nat then ""
    else if sw "+971" || sw "971" then "UAE"
    else if sw "+20" || sw "20" then "Egypt"
    else if (len =? 10)%nat && sw "9" then "India"
    else if (len =? 10)%nat && sw "8" then "India"
    else if (len =? 10)%nat && sw "7" then "India"
    else if (len =? 10)%nat && sw "6" then "India"
    else if (len =? 9)%nat && sw "5" then "UAE"
    else if (len =? 8)%nat && sw "5" then "UAE"
    else if (len =? 7)%nat && sw "5" then "UAE"
    else if (len =? 10)%nat && sw "5" then "UAE"
    else if (len =? 8)%nat && (sw "4" || sw "2" || sw "3" || sw "6" || sw "7")
         then "UAE"
    else if ((len =? 10)%nat || (len =? 11)%nat) && sw "1" then "UK"
    else if sw "44" && (10 <=? len)%nat then "UK"
    else if (len =? 10)%nat && sw "10" then "Egypt"
    else
      match parsePhoneNumber (prefixForParse c) with
      | Some (Some countryCode) =>
          if String.eqb countryCode "" then ""
          else match lookupName countryCode countryNames with
               | Some name => name
               | None => countryCode
               end
      | Some None => ""
      | None => ""
      end
  | _ => ""
  end.

(** *** Cache *)

Definition ENDPOINTS : list (string * string) :=
  [ ("cdrs", "/api/v2/reports/cdrs");
    ("queueCalls", "/api/v2/reports/queues_cdrs");
    ("queueOutboundCalls", "/api/v2/reports/queues_outbound_cdrs");
    ("campaignsActivity", "/api/v2/reports/campaigns/leads/history") ].

(** The [params] object as its callers build it (the HTTP handler and the
    CLI): window bounds in epoch seconds, the continuation cursor of the
    request and the row limit, each of them optional. *)
Record Params : Type := {
  startDate : option Z;
  endDate : option Z;
  start_key : option string;
  maxRows : option Z
}.

Definition showDate (d : option Z) : string :=
  match d with Some n => showZ n | None => "" end.

Definition makeCacheKey (report tenant : string) (params : Params) : string :=
  report +:+ "|" +:+ tenant +:+ "|" +:+ showDate (startDate params)
         +:+ "|" +:+ showDate (endDate params).

Record CacheEntry : Type := { expires : Z; data : list JsVal }.

(** [cached && Date.now() < cached.expires]. *)
Definition cacheLookup (reportCache : gmap string CacheEntry)
    (cacheKey : string) (now : Z) : option (list JsVal) :=
  match reportCache !! cacheKey with
  | Some cached => if now <? expires cached then Some (data cached) else None
  | None => None
  end.

(** *** One upstream page *)

Definition indexed (l : list JsVal) : list (string * JsVal) :=
  imap (fun i v => (showZ (Z.of_nat i), v)) l.

Definition chars (s : string) : list JsVal :=
  map (fun c => JStr (String c "")) (list_ascii_of_string s).

(** Own enumerable properties: [Object.entries(v)], and what [...v]
    copies into an object literal. *)
Definition ownEntries (v : JsVal) : list (string * JsVal) :=
  match v with
  | JObj fs => fs
  | JArr l ps => indexed l ++ ps
  | JStr s => indexed (chars s)
  | _ => []
  end.

(** [({ key: k, ...v })]. *)
Definition flattenEntry (kv : string * JsVal) : JsVal :=
  JObj (fold_left (fun acc e => assocSet (fst e) (snd e) acc)
                  (ownEntries (snd kv)) [("key", JStr (fst kv))]).

Definition pageRecords (payload : JsVal) : list JsVal :=
  match getOpt payload "data" with
  | JArr l _ => l
  | _ =>
    match payload with
    | JArr l _ => l
    | _ =>
      match getOpt payload "rows" with
      | JArr l _ => l
      | _ => map flattenEntry (ownEntries payload)
      end
    end
  end.

(** [nextStartKey] and [records] of a response body; reading
    [payload.next_start_key] throws on a null or missing body. *)
Definition readPage (payload : JsVal) : Res (JsVal * list JsVal) :=
  let! k := get payload "next_start_key" in
  Ok (nullish k JNull, pageRecords payload).

(** *** The retry loop *)

(** What one pass through the body of the [while] loop receives from
    outside: the token provider fails, the GET fails (transport error or
    non-2xx status), or the GET returns a body. *)
Inductive IO : Type :=
| TokenFails (err : JsVal)
| GetFails (err : JsVal)
| GetReturns (payload : JsVal).

Inductive Event : Type :=
| EvToken (tenant : string)
| EvGet (endpoint : string) (params : Params) (start_key : JsVal)
| EvSleep (delay : Z).

(** The [start_key] of the query string: [startKey] when it is truthy,
    else what [...params] carries. *)
Definition qsStartKey (params : Params) (startKey : JsVal) : JsVal :=
  if truthy startKey then startKey
  else match start_key params with Some k => JStr k | None => JUndef end.

(** The variables of [fetchReport] that the loops update. *)
Record Loop : Type := {
  attempt : nat;
  delay : Z;
  out : list JsVal;
  startKey : JsVal;
  nextStartKey : JsVal
}.

Definition loopInit : Loop :=
  {| attempt := 0; delay := 1000; out := []; startKey := JUndef;
     nextStartKey := JNull |}.

Inductive Step : Type :=
| Continue (st : Loop)          (* next pass through the [while] body *)
| Break (st : Loop)             (* [break retry] *)
| Rethrow (err : JsVal).        (* [throw err] out of [fetchReport] *)

(** The [catch] clause: rethrow on the last attempt, else sleep [delay]
    and go to the next attempt with the delay doubled. *)
Definition onError (st : Loop) (err : JsVal) : Step * list Event :=
  if (attempt st =? MAX_RETRIES - 1)%nat then (Rethrow err, [])
  else (Continue {| attempt := S (attempt st); delay := delay st * 2;
                    out := out st; startKey := startKey st;
                    nextStartKey := nextStartKey st |},
        [EvSleep (delay st)]).

(** [maxRows ? (maxRows - out.length) : records.length]. *)
Definition remaining (params : Params) (out records : list JsVal) : Z :=
  match maxRows params with
  | Some m => if m =? 0 then Z.of_nat (length records)
              else m - Z.of_nat (length out)
  | None => Z.of_nat (length records)
  end.

(** [if (remaining > 0) out.push(...records.slice(0, remaining))]. *)
Definition pushed (params : Params) (out records : list JsVal) : list JsVal :=
  if 0 <? remaining params out records
  then out ++ take (Z.to_nat (remaining params out records)) records
  else out.

(** The statements of the [while] body after the response arrived. *)
Definition onPage (params : Params) (st : Loop) (payload : JsVal)
  : Step * list Event :=
  match readPage payload with
  | Throw err => onError st err
  | Ok (next, records) =>
    let out' := pushed params (out st) records in
    let st' := {| attempt := attempt st; delay := delay st; out := out';
                  startKey := startKey st; nextStartKey := next |} in
    if (0 <? length out')%nat then (Break st', [])
    else match next with
         | JNull => (Break st', [])
         | _ => (Continue {| attempt := attempt st; delay := delay st;
                             out := out'; startKey := next;
                             nextStartKey := next |}, [])
         end
  end.

Definition step (endpoint tenant : string) (params : Params) (st : Loop)
    (io : IO) : Step * list Event :=
  let get := EvGet endpoint params (qsStartKey params (startKey st)) in
  match io with
  | TokenFails err =>
      let '(s, evs) := onError st err in (s, EvToken tenant :: evs)
  | GetFails err =>
      let '(s, evs) := onError st err in (s, EvToken tenant :: get :: evs)
  | GetReturns payload =>
      let '(s, evs) := onPage params st payload in
      (s, EvToken tenant :: get :: evs)
  end.

Inductive Fetched : Type :=
| Done (st : Loop)
| Raised (err : JsVal)
| Pending.                      (* still waiting for the upstream *)

(** The [retry:] loop against a script of upstream outcomes, one per
    pass through the [while] body. *)
Fixpoint fetchLoop (endpoint tenant : string) (params : Params)
    (script : list IO) (st : Loop) : Fetched * list Event :=
  match script with
  | [] => (Pending, [])
  | io :: script' =>
    let '(s, evs) := step endpoint tenant params st io in
    match s with
    | Break st' => (Done st', evs)
    | Rethrow err => (Raised err, evs)
    | Continue st' =>
        let '(r, evs') := fetchLoop endpoint tenant params script' st' in
        (r, evs ++ evs')
    end
  end.

(** *** Post-processing *)

Definition isQueue (report : string) : bool :=
  String.eqb report "queueCalls" || String.eqb report "queueOutboundCalls".

Definition addExtension (report : string) (record : JsVal) : Res JsVal :=
  let! extension := (if String.eqb report "campaignsActivity" then
       let! e := get record "agent_extension" in Ok (or e (JStr ""))
     else if isQueue report then
       let! h := get record "agent_history" in
       match h with
       | JArr (firstAgentHistory :: _) _ =>
           let! e := get firstAgentHistory "ext" in Ok (or e (JStr ""))
       | _ => Ok (JStr "")
       end
     else Ok (JStr "")) in
  set record "Extension" extension.

Definition countryOf (v : JsVal) : JsVal :=
  JStr (extractCountryFromPhoneNumber v).

Definition addCountry (report : string) (record : JsVal) : Res JsVal :=
  let! country := (if String.eqb report "campaignsActivity" then
       let! n := get record "lead_number" in Ok (or (countryOf n) (JStr ""))
     else if String.eqb report "queueCalls" then
       let! n := get record "caller_id_number" in Ok (or (countryOf n) (JStr ""))
     else if String.eqb report "queueOutboundCalls" then
       let! t := get record "to" in
       let phoneNumber :=
         or (or t (getOpt record "destination"))
            (getOpt record "callee_id_number") in
       Ok (or (countryOf phoneNumber) (JStr ""))
     else if String.eqb report "cdrs" then
       let! n := get record "caller_id_number" in
       Ok (or (or (countryOf n) (countryOf (getOpt record "callee_id_number")))
              (JStr ""))
     else Ok (JStr "")) in
  set record "Country" country.

Definition deriveDurations (record : JsVal) : Res JsVal :=
  let! td := get record "talked_duration" in
  let hangup := getOpt record "hangup_time" in
  let answered := getOpt record "answered_time" in
  let called := getOpt record "called_time" in
  let! r1 := (if negb (truthy td) && truthy hangup && truthy answered
        then set record "talked_duration" (minus hangup answered)
        else Ok record) in
  if negb (truthy (getOpt r1 "wait_duration")) && truthy called then
    if truthy answered then set r1 "wait_duration" (minus answered called)
    else if truthy hangup then set r1 "wait_duration" (minus hangup called)
    else Ok r1
  else Ok r1.

(** The loop that keeps the first row of each [call_id]; [seen] is the
    [Set] of identifiers met so far. *)
Fixpoint firstRowsFrom (seen : list JsVal) (out : list JsVal)
  : Res (list JsVal) :=
  match out with
  | [] => Ok []
  | rec :: out' =>
      let! id := get rec "call_id" in
      if negb (truthy id) then
        (let! rs := firstRowsFrom seen out' in Ok (rec :: rs))
      else if existsb (sameValueZero id) seen then firstRowsFrom seen out'
      else (let! rs := firstRowsFrom (id :: seen) out' in Ok (rec :: rs))
  end.

(** [l.every(f)] with a callback that may throw. *)
Fixpoint everyM {A} (f : A -> Res bool) (l : list A) : Res bool :=
  match l with
  | [] => Ok true
  | x :: l' =>
      match f x with
      | Ok true => everyM f l'
      | Ok false => Ok false
      | Throw e => Throw e
      end
  end.

(** [h && Object.keys(h).length === 0]. *)
Definition emptyObject (h : JsVal) : bool :=
  truthy h && (keysLength h =? 0)%nat.

Definition histMissing (hist : JsVal) : bool :=
  isNullish hist
  || match hist with JArr l _ => (length l =? 0)%nat | _ => false end
  || match hist with JArr l _ => forallb emptyObject l | _ => false end.

(** [x.includes("transfer")] for a value that is not null or undefined:
    a substring test on strings, a membership test on arrays, a
    TypeError elsewhere (no such method). *)
Definition includesTransfer (x : JsVal) : Res bool :=
  match x with
  | JStr s => Ok (Str.includes s "transfer")
  | JArr l _ => Ok (existsb (fun e => sameValueZero e (JStr "transfer")) l)
  | _ => Throw TypeError
  end.

(** [!h?.answered_time && !h?.agent_action?.includes("transfer")]. *)
Definition noAnswer (h : JsVal) : Res bool :=
  if truthy (getOpt h "answered_time") then Ok false
  else
    let action := getOpt h "agent_action" in
    if isNullish action then Ok true
    else let! b := includesTransfer action in Ok (negb b).

Definition histNoAnswer (hist : JsVal) : Res bool :=
  match hist with
  | JArr (h :: l) _ => everyM noAnswer (h :: l)
  | _ => Ok false
  end.

Definition isAbandoned (r : JsVal) : Res bool :=
  let! hist := get r "agent_history" in
  let! noAns := histNoAnswer hist in
  Ok (histMissing hist || negb (truthy (getOpt r "answered_time")) || noAns).

Definition yesNo (b : bool) : JsVal := JStr (if b then "YES" else "NO").

Definition deriveAbandoned (r : JsVal) : Res JsVal :=
  let! a := isAbandoned r in
  set r "abandoned" (yesNo a).

Definition truncateQueueHistory (rec : JsVal) : Res JsVal :=
  let! q := get rec "queue_history" in
  match q with
  | JArr (q0 :: _ :: _) _ => set rec "queue_history" (jarr [q0])
  | _ => Ok rec
  end.

(** Everything between the retry loop and the cache write: the rows that
    are cached and returned. *)
Definition postProcess (report : string) (out : list JsVal)
  : Res (list JsVal) :=
  let! o1 := mapM (addExtension report) out in
  let! o2 := mapM (addCountry report) o1 in
  let! o3 := (if isQueue report then mapM deriveDurations o2 else Ok o2) in
  if String.eqb report "queueCalls" then
    let! firstRows := firstRowsFrom [] o3 in
    mapM deriveAbandoned firstRows
  else if String.eqb report "queueOutboundCalls" then
    mapM truncateQueueHistory o3
  else Ok o3.

(** *** fetchReport *)

(** A cache hit returns a bare array, a miss the object
    [{ rows, next }]. *)
Inductive Returned : Type :=
| BareArray (rows : list JsVal)
| RowsNext (rows : list JsVal) (next : JsVal).

Inductive Outcome : Type :=
| Return (r : Returned)
| Raise (err : JsVal)
| Waiting.

Record Run : Type := {
  outcome : Outcome;
  cacheAfter : gmap string CacheEntry;
  events : list Event
}.

(** The text a template string gives for a built-in function. *)
Definition nativeFunction (name : string) : string :=
  "function " +:+ name +:+ "() { [native code] }".

(** What [ENDPOINTS], an object literal, inherits from [Object.prototype]:
    the names, and for each the text of its value in the template string
    of the URL.  All these values are truthy. *)
Definition inherited : list (string * string) :=
  [ ("constructor", nativeFunction "Object");
    ("__defineGetter__", nativeFunction "__defineGetter__");
    ("__defineSetter__", nativeFunction "__defineSetter__");
    ("hasOwnProperty", nativeFunction "hasOwnProperty");
    ("__lookupGetter__", nativeFunction "__lookupGetter__");
    ("__lookupSetter__", nativeFunction "__lookupSetter__");
    ("isPrototypeOf", nativeFunction "isPrototypeOf");
    ("propertyIsEnumerable", nativeFunction "propertyIsEnumerable");
    ("toString", nativeFunction "toString");
    ("valueOf", nativeFunction "valueOf");
    ("__proto__", "[object Object]");
    ("toLocaleString", nativeFunction "toLocaleString") ].

(** [ENDPOINTS[report]] as the URL has it: an own property, else an
    inherited one; [None] when the value is undefined. *)
Definition lookupEndpoint (report : string) : option string :=
  snd <$> List.find (fun e => String.eqb report (fst e))
                    (ENDPOINTS ++ inherited).

(** [fetchReport(report, tenant, params)] run on the cache [reportCache];
    [now] is [Date.now()] at the cache lookup, [stored] is [Date.now()]
    at the cache write, [script] is what the upstream answers. *)
Definition fetchReport (reportCache : gmap string CacheEntry) (now : Z)
    (script : list IO) (stored : Z) (report tenant : string)
    (params : Params) : Run :=
  match lookupEndpoint report with
  | None =>
      {| outcome :=
           Raise (JObj [("message", JStr ("Unknown report type: " +:+ report))]);
         cacheAfter := reportCache; events := [] |}
  | Some endpoint =>
    let cacheKey := makeCacheKey report tenant params in
    match cacheLookup reportCache cacheKey now with
    | Some rows =>
        {| outcome := Return (BareArray rows);
           cacheAfter := reportCache; events := [] |}
    | None =>
      let '(f, evs) := fetchLoop endpoint tenant params script loopInit in
      match f with
      | Pending =>
          {| outcome := Waiting; cacheAfter := reportCache; events := evs |}
      | Raised err =>
          {| outcome := Raise err; cacheAfter := reportCache; events := evs |}
      | Done st =>
        match postProcess report (out st) with
        | Throw err =>
            {| outcome := Raise err; cacheAfter := reportCache;
               events := evs |}
        | Ok rows =>
            {| outcome := Return (RowsNext rows (nextStartKey st));
               cacheAfter :=
                 <[cacheKey := {| expires := stored + CACHE_TTL;
                                  data := rows |}]> reportCache;
               events := evs |}
        end
      end
    end
  end.

End WithHost.

End ReportFetcher.

(** ** server.js: GET /api/reports/:type *)

Module Server.

Import ReportFetcher.

(** The query string of the request.  [limit] is [Number(limitStr)]:
    [None] when the parameter is missing or not a number (NaN). *)
Record Query : Type := {
  account : option string;
  start : option string;
  end_ : option string;
  limit : option Z;
  startKey : option string
}.

Record Response : Type := { status : Z; body : JsVal }.

Definition nonEmpty (o : option string) : option string :=
  match o with
  | Some s => if String.eqb s "" then None else Some s
  | None => None
  end.

Section WithHost.

Context `{Host}.

(** [Math.min(Number(limitStr) || 1000, 1000)]. *)
Definition rowLimit (q : Query) : Z :=
  Z.min (match limit q with
         | Some n => if n =? 0 then 1000 else n
         | None => 1000
         end) 1000.

(** A window bound: absent, malformed, or epoch seconds
    ([Math.floor(Date.parse(s) / 1000)]). *)
Definition parseBound (o : option string) : option (option Z) :=
  match nonEmpty o with
  | None => Some None
  | Some s =>
      match Date_parse (JStr s) with
      | None => None
      | Some ms => Some (Some (ms / 1000))
      end
  end.

(** [history.find(e => e.event === 'answer' || e.connected)]. *)
Fixpoint findAnswer (l : list JsVal) : Res JsVal :=
  match l with
  | [] => Ok JUndef
  | e :: l' =>
      let! ev := get e "event" in
      if sameValueZero ev (JStr "answer") || truthy (getOpt e "connected")
      then Ok e else findAnswer l'
  end.

(** The time value of [new Date(la > 10_000_000_000 ? la : la * 1000)];
    [None] is an invalid date.  A value that is not a number and exceeds
    the bound is handed to [Date] as it is, and parsed as a date text. *)
Definition answerTime (la : JsVal) : option Z :=
  match toNumber la with
  | Some n =>
      if 10000000000 <? n
      then match la with JNum _ => Some n | _ => Date_parse la end
      else Some (n * 1000)
  | None => None
  end.

Definition processRow (row : JsVal) : Res JsVal :=
  let! h := get row "agent_history" in
  let history :=
    match h with
    | JStr s => default (jarr []) (JSON_parse s)
    | _ => h
    end in
  let ts0 := getOpt row "answered_time" in
  let! ts := (match history with
        | JArr l _ =>
            if truthy ts0 then Ok ts0
            else
              let! answerEvt := findAnswer l in
              let la := getOpt answerEvt "last_attempt" in
              if truthy la then
                match answerTime la with
                | Some ms =>
                    match toISOString ms with
                    | Some iso => Ok (JStr iso)
                    | None => Throw RangeError
                    end
                | None => Throw RangeError
                end
              else Ok ts0
        | _ => Ok ts0
        end) in
  Ok (JObj (assocSet "agent_history" history
             (assocSet "answered_time" (nullish ts (JStr "--"))
                (ownEntries row)))).

(** The message of the 500 response. *)
Definition errorMessage (err : JsVal) : JsVal :=
  let upstreamErr := getOpt (getOpt (getOpt err "response") "data") "error" in
  if isString upstreamErr then upstreamErr
  else or (getOpt upstreamErr "message") (getOpt err "message").

Definition badRequest (msg : string) : Response :=
  {| status := 400; body := JObj [("error", JStr msg)] |}.

(** The rows and the continuation token the handler takes from what
    [fetchReport] returned. *)
Definition resultRows (result : Returned) : list JsVal :=
  match result with BareArray rows => rows | RowsNext rows _ => rows end.

Definition nextToken (result : Returned) : JsVal :=
  match result with BareArray _ => JNull | RowsNext _ next => next end.

Definition respond (o : Outcome) : option Response :=
  match o with
  | Waiting => None
  | Raise err =>
      Some {| status := 500; body := JObj [("error", errorMessage err)] |}
  | Return result =>
      match mapM processRow (resultRows result) with
      | Throw err =>
          Some {| status := 500; body := JObj [("error", errorMessage err)] |}
      | Ok processedData =>
          Some {| status := 200;
                  body := JObj [("data", jarr processedData);
                                ("next", nextToken result)] |}
      end
  end.

(** The parameters handed to [fetchReport]. *)
Definition fetchParams (q : Query) (startDate endDate : option Z) : Params :=
  {| ReportFetcher.startDate := startDate;
     ReportFetcher.endDate := endDate;
     start_key := nonEmpty (startKey q);
     maxRows := Some (rowLimit q) |}.

(** The handler: the response (if the upstream answered), the cache
    afterwards and the upstream events. *)
Definition getReport (reportCache : gmap string CacheEntry) (now : Z)
    (script : list IO) (stored : Z) (type : string) (q : Query)
  : option Response * gmap string CacheEntry * list Event :=
  match nonEmpty (account q) with
  | None => (Some (badRequest "Missing account query param"), reportCache, [])
  | Some tenant =>
    match parseBound (start q) with
    | None => (Some (badRequest "Invalid start date"), reportCache, [])
    | Some startDate =>
      match parseBound (end_ q) with
      | None => (Some (badRequest "Invalid end date"), reportCache, [])
      | Some endDate =>
          let run := fetchReport reportCache now script stored type tenant
                       (fetchParams q startDate endDate) in
          (respond (outcome run), cacheAfter run, events run)
      end
    end
  end.

End WithHost.

End Server.

(** ** script.js: the merge engine in the browser *)

Module Script.

(** The four keys ['in'], ['out'], ['camp'], ['cdr'] of [nextTokens] and
    [buffers]. *)
Inductive Source : Type := src_in | src_out | src_camp | src_cdr.

Definition sources : list Source := [src_in; src_out; src_camp; src_cdr].

(** An object with exactly those four keys. *)
Record Per (A : Type) : Type := {
  p_in : A; p_out : A; p_camp : A; p_cdr : A
}.
Arguments p_in {A} _.
Arguments p_out {A} _.
Arguments p_camp {A} _.
Arguments p_cdr {A} _.

Definition pget {A} (p : Per A) (k : Source) : A :=
  match k with
  | src_in => p_in p
  | src_out => p_out p
  | src_camp => p_camp p
  | src_cdr => p_cdr p
  end.

Definition pset {A} (p : Per A) (k : Source) (a : A) : Per A :=
  match k with
  | src_in => {| p_in := a; p_out := p_out p; p_camp := p_camp p; p_cdr := p_cdr p |}
  | src_out => {| p_in := p_in p; p_out := a; p_camp := p_camp p; p_cdr := p_cdr p |}
  | src_camp => {| p_in := p_in p; p_out := p_out p; p_camp := a; p_cdr := p_cdr p |}
  | src_cdr => {| p_in := p_in p; p_out := p_out p; p_camp := p_camp p; p_cdr := a |}
  end.

Definition pall {A} (a : A) : Per A :=
  {| p_in := a; p_out := a; p_camp := a; p_cdr := a |}.

Definition endpoint (k : Source) : string :=
  match k with
  | src_in => "/api/reports/queueCalls"
  | src_out => "/api/reports/queueOutboundCalls"
  | src_camp => "/api/reports/campaignsActivity"
  | src_cdr => "/api/reports/cdrs"
  end.

(** The source tag that [normalizeRow] receives. *)
Definition tag (k : Source) : string :=
  match k with
  | src_in => "in" | src_out => "out" | src_camp => "camp" | src_cdr => "cdr"
  end.

(** The fields of a normalized row that the engine and the derived
    columns use.  The remaining columns are plain copies of row fields or
    HTML text and are not part of the embedding. *)
Record Row : Type := {
  Type_ : string;
  Call_ID : JsVal;
  Called_Time : JsVal;
  Abandoned : string;
  Extension : JsVal;
  Country : JsVal
}.

Definition SERVER_PAGE_SIZE : Z := 500.
Definition PAGE_SIZE : Z := 500.

Section WithHost.

Context `{Host}.

(** [v.toString()] for a value that is not null or undefined. *)
Fixpoint toString (v : JsVal) : Res string :=
  match v with
  | JUndef => Ok "undefined"
  | JNull => Ok "null"
  | JBool b => Ok (if b then "true" else "false")
  | JNum n => Ok (showZ n)
  | JNaN => Ok "NaN"
  | JStr s => Ok s
  | JObj fs =>
      match assoc "toString" fs with
      | Some _ => Throw TypeError
      | None => Ok "[object Object]"
      end
  | JArr l ps =>
      match assoc "toString" ps, assoc "join" ps with
      | Some _, _ => Throw TypeError
      | None, Some _ => Ok "[object Array]"
      | None, None =>
          (fix join (l : list JsVal) : Res string :=
             match l with
             | [] => Ok ""
             | e :: l' =>
                 let! s := (if isNullish e then Ok "" else toString e) in
                 match l' with
                 | [] => Ok s
                 | _ => let! r := join l' in Ok (s +:+ "," +:+ r)
                 end
             end) l
      end
  end.

(** The body of the [forEach] in [computeAbandoned]: the flags
    [connected] and [star7] after one more entry. *)
Definition scanEntry (flags : bool * bool) (h : JsVal)
  : Res (bool * bool) :=
  let! c := get h "connected" in
  let! ev := toString (or (getOpt h "event") (JStr "")) in
  Ok (fst flags || truthy c, snd flags || Str.includes ev "*7").

Fixpoint scanHistory (flags : bool * bool) (history : list JsVal)
  : Res (bool * bool) :=
  match history with
  | [] => Ok flags
  | h :: l => let! f := scanEntry flags h in scanHistory f l
  end.

Definition parsedHistory (row : JsVal) : JsVal :=
  match getOpt row "agent_history" with
  | JStr s => default (jarr []) (JSON_parse s)
  | h => h
  end.

Definition computeAbandoned (row : JsVal) : Res string :=
  let! _ := get row "agent_history" in
  match parsedHistory row with
  | JArr (h :: l) _ =>
      let! f := scanHistory (false, false) (h :: l) in
      if fst f then Ok "NO"
      else Ok (if negb (fst f) && negb (snd f) then "YES" else "NO")
  | _ => Ok "YES"
  end.

(** The [Called Time] of a CDR row: a number is turned into an ISO
    string. *)
Definition cdrCalledTime (row : JsVal) : Res JsVal :=
  let ts := nullish (nullish (getOpt row "timestamp") (getOpt row "datetime"))
                    (JStr "") in
  match ts with
  | JNum n =>
      let ms := if n <? 1000000000000 then n * 1000 else n in
      match toISOString ms with
      | Some iso => Ok (JStr iso)
      | None => Throw RangeError
      end
  | JNaN => Throw RangeError
  | _ => Ok ts
  end.

Definition blank : JsVal := JStr "".

(** The history cells of a row; a CDR row has none. *)
Definition historyHtml (source : Source) (row : JsVal) : Res unit :=
  match source with
  | src_cdr => Ok tt
  | _ =>
      match historyCells (tag source) row with
      | Some err => Throw err
      | None => Ok tt
      end
  end.

Definition normalizeRow (row : JsVal) (source : Source) : Res Row :=
  let! _ := get row "call_id" in
  let! _ := historyHtml source row in
  match source with
  | src_camp =>
      Ok {| Type_ := "Campaign";
            Call_ID := nullish (nullish (getOpt row "call_id")
                                        (getOpt row "callid")) blank;
            Called_Time := nullish (nullish (getOpt row "timestamp")
                                            (getOpt row "datetime")) blank;
            Abandoned := "";
            Extension := nullish (getOpt row "agent_extension") blank;
            Country := nullish (getOpt row "Country") blank |}
  | src_cdr =>
      let! ts := cdrCalledTime row in
      Ok {| Type_ := "CDR";
            Call_ID := nullish (getOpt row "call_id") blank;
            Called_Time := ts;
            Abandoned := "";
            Extension := blank;
            Country := nullish (getOpt row "Country") blank |}
  | src_in =>
      let! a := computeAbandoned row in
      Ok {| Type_ := "Inbound";
            Call_ID := nullish (nullish (getOpt row "call_id")
                                        (getOpt row "callid")) blank;
            Called_Time := nullish (getOpt row "called_time") blank;
            Abandoned := a;
            Extension := nullish (getOpt row "Extension") blank;
            Country := nullish (getOpt row "Country") blank |}
  | src_out =>
      Ok {| Type_ := "Outbound";
            Call_ID := nullish (nullish (getOpt row "call_id")
                                        (getOpt row "callid")) blank;
            Called_Time := nullish (getOpt row "called_time") blank;
            Abandoned := "";
            Extension := nullish (getOpt row "Extension") blank;
            Country := nullish (getOpt row "Country") blank |}
  end.

(** Epoch milliseconds of a record, 0 when the time is missing or
    unreadable. *)
Definition toEpoch (rec : Row) : Z :=
  let v := Called_Time rec in
  if negb (truthy v) then 0
  else match v with
       | JNum n => if n <? 100000000000 then n * 1000 else n
       | _ => default 0 (Date_parse v)
       end.

(** [list.sort((a, b) => toEpoch(b) - toEpoch(a))]: a stable sort,
    latest first. *)
Fixpoint insertDesc (x : Row) (l : list Row) : list Row :=
  match l with
  | [] => [x]
  | y :: l' =>
      if toEpoch x <? toEpoch y then y :: insertDesc x l' else x :: y :: l'
  end.

Definition sortDesc (l : list Row) : list Row := foldr insertDesc [] l.

(** [dedupRecords]: the first record of every truthy [Call ID]; a record
    without one gets a fresh [Symbol()] as its key and is always kept.
    [seen] holds the keys of the [Map]. *)
Fixpoint dedupFrom (seen : list JsVal) (recs : list Row) : list Row :=
  match recs with
  | [] => []
  | rec :: l =>
      let key := Call_ID rec in
      if negb (truthy key) then rec :: dedupFrom seen l
      else if existsb (sameValueZero key) seen then dedupFrom seen l
      else rec :: dedupFrom (key :: seen) l
  end.

Definition dedupRecords (recs : list Row) : list Row := dedupFrom [] recs.

(** The values of the module-level variables. *)
Record BaseQuery : Type := { bq_account : string; bq_start : string; bq_end : string }.

Record State : Type := {
  nextTokens : Per JsVal;
  buffers : Per (list Row);
  lastRecords : list Row;
  baseQuery : BaseQuery
}.

Definition withTokens (st : State) (t : Per JsVal) : State :=
  {| nextTokens := t; buffers := buffers st; lastRecords := lastRecords st;
     baseQuery := baseQuery st |}.

Definition withBuffers (st : State) (b : Per (list Row)) : State :=
  {| nextTokens := nextTokens st; buffers := b; lastRecords := lastRecords st;
     baseQuery := baseQuery st |}.

Definition withLastRecords (st : State) (l : list Row) : State :=
  {| nextTokens := nextTokens st; buffers := buffers st; lastRecords := l;
     baseQuery := baseQuery st |}.

Definition withBaseQuery (st : State) (q : BaseQuery) : State :=
  {| nextTokens := nextTokens st; buffers := buffers st;
     lastRecords := lastRecords st; baseQuery := q |}.

(** The pick of one pass of the [while] loop of [revealNextBatch]: the
    buffer whose head is the latest, the first one on a tie. *)
Definition pick (b : Per (list Row)) : option (Source * Row) :=
  fold_left
    (fun (acc : option (Source * Row)) k =>
       match pget b k with
       | [] => acc
       | candidate :: _ =>
           match acc with
           | None => Some (k, candidate)
           | Some (_, pickRec) =>
               if toEpoch pickRec <? toEpoch candidate
               then Some (k, candidate) else acc
           end
       end)
    sources None.

Definition buffered (b : Per (list Row)) : nat :=
  (length (p_in b) + length (p_out b) + length (p_camp b) + length (p_cdr b))%nat.

(** The [while] loop of [revealNextBatch]; every pass takes one record
    out of a buffer, so [fuel] above the number of buffered records is
    never used up. *)
Fixpoint revealLoop (fuel : nat) (startLen : nat) (st : State)
  : option State :=
  if PAGE_SIZE <=? Z.of_nat (length (lastRecords st)) - Z.of_nat startLen
  then Some st
  else
    match pick (buffers st) with
    | None => Some st
    | Some (pickKey, pickRec) =>
        match fuel with
        | O => None
        | S fuel' =>
            revealLoop fuel' startLen
              {| nextTokens := nextTokens st;
                 buffers := pset (buffers st) pickKey
                              (tail (pget (buffers st) pickKey));
                 lastRecords := dedupRecords (lastRecords st ++ [pickRec]);
                 baseQuery := baseQuery st |}
        end
    end.

Definition revealNextBatch (st : State) : option State :=
  match revealLoop (buffered (buffers st)) (length (lastRecords st)) st with
  | Some st' => Some (withLastRecords st' (sortDesc (lastRecords st')))
  | None => None
  end.

(** *** Requests and replies *)

(** The [params] of a request to the report endpoint; [rq_startKey] is
    [JUndef] when the key is absent. *)
Record Request : Type := {
  rq_url : string;
  rq_account : string;
  rq_start : string;
  rq_end : string;
  rq_limit : Z;
  rq_startKey : JsVal
}.

(** How the promise of one [axios.get] settles: rejected (transport error
    or non-2xx status), or resolved with [res.data]. *)
Inductive Reply : Type :=
| Rejected (err : JsVal)
| Resolved (data : JsVal).

Definition firstPage (q : BaseQuery) (k : Source) : Request :=
  {| rq_url := endpoint k; rq_account := bq_account q; rq_start := bq_start q;
     rq_end := bq_end q; rq_limit := SERVER_PAGE_SIZE; rq_startKey := JUndef |}.

(** The request of [fetchChunk], none when the token is [null]. *)
Definition chunkRequest (st : State) (k : Source) : option Request :=
  match pget (nextTokens st) k with
  | JNull => None
  | nxt =>
      Some {| rq_url := endpoint k; rq_account := bq_account (baseQuery st);
              rq_start := bq_start (baseQuery st);
              rq_end := bq_end (baseQuery st); rq_limit := SERVER_PAGE_SIZE;
              rq_startKey := if truthy nxt then nxt else JUndef |}
  end.

(** [rows.map(r => normalizeRow(r, k))]. *)
Definition normalizeAll (k : Source) (rows : JsVal) : Res (list Row) :=
  match rows with
  | JArr l _ => mapM (fun r => normalizeRow r k) l
  | _ => Throw TypeError
  end.

(** [buffers[k].push(...rows); buffers[k].sort(...)]. *)
Definition pushSorted (st : State) (k : Source) (rows : list Row) : State :=
  withBuffers st (pset (buffers st) k (sortDesc (pget (buffers st) k ++ rows))).

(** The [then] callback of [fetchChunk]: the state it leaves and the
    exception it ends with, if any. *)
Definition chunkArrived (st : State) (k : Source) (data : JsVal)
  : State * option JsVal :=
  let body := or data (JObj []) in
  let rows := match getOpt body "data" with JUndef => jarr [] | v => v end in
  let st1 := withTokens st (pset (nextTokens st) k
                                 (nullish (getOpt body "next") JNull)) in
  match normalizeAll k rows with
  | Throw err => (st1, Some err)
  | Ok normalized => (pushSorted st1 k normalized, None)
  end.

(** The promises of the cursor round once all of them have settled: the
    state the callbacks leave and the reasons of the rejected ones.
    [st0] is the state in which the requests were issued. *)
Fixpoint settleChunks (st0 : State) (replies : Per Reply) (ks : list Source)
    (st : State) : State * list JsVal :=
  match ks with
  | [] => (st, [])
  | k :: ks' =>
      match chunkRequest st0 k with
      | None => settleChunks st0 replies ks' st
      | Some _ =>
          match pget replies k with
          | Rejected err =>
              let '(st', errs) := settleChunks st0 replies ks' st in
              (st', err :: errs)
          | Resolved data =>
              let '(st1, thrown) := chunkArrived st k data in
              let '(st', errs) := settleChunks st0 replies ks' st1 in
              (st', match thrown with Some e => e :: errs | None => errs end)
          end
      end
  end.

(** [lastRecords.reduce(...)]: the least [toEpoch], [null] on no record. *)
Definition oldest (recs : list Row) : option Z :=
  fold_left (fun (min : option Z) r =>
               let ts := toEpoch r in
               match min with
               | None => Some ts
               | Some m => if ts <? m then Some ts else Some m
               end) recs None.

(** The end of the fallback window for a truthy [oldest]. *)
Definition fallbackEnd (oldest : Z) : Z :=
  let oldestMs := if oldest <? 1000000000000 then oldest * 1000 else oldest in
  oldestMs - 1000.

Definition fallbackRequest (q : BaseQuery) (newEndIso : string) (k : Source)
  : Request :=
  {| rq_url := endpoint k; rq_account := bq_account q; rq_start := bq_start q;
     rq_end := newEndIso; rq_limit := SERVER_PAGE_SIZE; rq_startKey := JUndef |}.

(** [rows.length], read as a condition, of a truthy [rows]. *)
Definition hasLength (rows : JsVal) : bool :=
  match rows with
  | JArr l _ => negb (length l =? 0)%nat
  | JStr s => negb (String.length s =? 0)%nat
  | v => truthy (getOpt v "length")
  end.

(** The [forEach] over the four fallback responses. *)
Fixpoint fallbackArrived (datas : Per JsVal) (ks : list Source) (st : State)
  : State * option JsVal :=
  match ks with
  | [] => (st, None)
  | k :: ks' =>
      let rows := or (getOpt (pget datas k) "data") (jarr []) in
      if negb (hasLength rows) then fallbackArrived datas ks' st
      else match normalizeAll k rows with
           | Throw err => (st, Some err)
           | Ok norm => fallbackArrived datas ks' (pushSorted st k norm)
           end
  end.

(** [Promise.all] over replies: the resolved values, or the reasons of
    the rejected promises. *)
Definition allResolved (replies : Per Reply) : Per JsVal + list JsVal :=
  match p_in replies, p_out replies, p_camp replies, p_cdr replies with
  | Resolved a, Resolved b, Resolved c, Resolved d =>
      inl {| p_in := a; p_out := b; p_camp := c; p_cdr := d |}
  | _, _, _, _ =>
      inr (omap (fun k => match pget replies k with
                          | Rejected e => Some e
                          | Resolved _ => None
                          end) sources)
  end.

(** *** loadNextChunks *)

(** How the call ends: it completes, or it rejects; a rejected
    [Promise.all] takes the reason of the promise that was rejected first,
    which is one of [reasons]. *)
Inductive Ending : Type :=
| Completed
| Rejects (reasons : list JsVal).

Record Round : Type := {
  after : State;
  cursorRequests : list Request;
  fallbackRequests : list Request;
  ending : Ending
}.

(** The fallback block and the reveal, from the state [st] that the
    cursor round left. *)
Definition fallbackAndReveal (st : State) (reqs : list Request)
    (fallback : Per Reply) : option Round :=
  let reveal (st1 : State) (freqs : list Request) : option Round :=
    match revealNextBatch st1 with
    | Some st2 => Some {| after := st2; cursorRequests := reqs;
                          fallbackRequests := freqs; ending := Completed |}
    | None => None
    end in
  let reject (st1 : State) (freqs : list Request) (errs : list JsVal) :=
    Some {| after := st1; cursorRequests := reqs; fallbackRequests := freqs;
            ending := Rejects errs |} in
  if forallb (fun k => match pget (nextTokens st) k with
                       | JNull => true | _ => false end) sources
  then
    match oldest (lastRecords st) with
    | Some o =>
        if o =? 0 then reveal st []
        else
          match toISOString (fallbackEnd o) with
          | None => reject st [] [RangeError]
          | Some newEndIso =>
              let freqs := map (fallbackRequest (baseQuery st) newEndIso)
                               sources in
              match allResolved fallback with
              | inr errs => reject st freqs errs
              | inl datas =>
                  match fallbackArrived datas sources st with
                  | (st1, Some err) => reject st1 freqs [err]
                  | (st1, None) => reveal st1 freqs
                  end
              end
          end
    | None => reveal st []
    end
  else reveal st [].

(** [loadNextChunks()] from the state [st]; [cursor] and [fallback] are
    the replies to the requests of the cursor round and of the fallback
    round.  The state is taken once every promise has settled. *)
Definition loadNextChunks (st : State) (cursor fallback : Per Reply)
  : option Round :=
  let reqs := omap (chunkRequest st) sources in
  let '(st1, errs) := settleChunks st cursor sources st in
  match errs with
  | _ :: _ =>
      Some {| after := st1; cursorRequests := reqs; fallbackRequests := [];
              ending := Rejects errs |}
  | [] => fallbackAndReveal st1 reqs fallback
  end.

(** *** The submit handler *)

(** [nextTokens.k = res.data.next ?? null], source after source. *)
Fixpoint assignTokens (datas : Per JsVal) (ks : list Source) (st : State)
  : State * option JsVal :=
  match ks with
  | [] => (st, None)
  | k :: ks' =>
      match get (pget datas k) "next" with
      | Throw err => (st, Some err)
      | Ok next =>
          assignTokens datas ks'
            (withTokens st (pset (nextTokens st) k (nullish next JNull)))
      end
  end.

(** [buffers.k = (res.data.data || []).map(...)], source after source. *)
Fixpoint assignBuffers (datas : Per JsVal) (ks : list Source) (st : State)
  : State * option JsVal :=
  match ks with
  | [] => (st, None)
  | k :: ks' =>
      match normalizeAll k (or (getOpt (pget datas k) "data") (jarr [])) with
      | Throw err => (st, Some err)
      | Ok rows =>
          assignBuffers datas ks' (withBuffers st (pset (buffers st) k rows))
      end
  end.

(** What the handler leaves: the state, the requests it issued and, when
    the [catch] clause ran, the exceptions one of which it caught (the
    first rejection of [Promise.all], or the one thrown afterwards); the
    error box shows the message of that one. *)
Record Submitted : Type := {
  sub_after : State;
  sub_requests : list Request;
  sub_error : option (list JsVal)
}.

Definition submit (st : State) (q : BaseQuery) (replies : Per Reply)
  : option Submitted :=
  let st0 := withBaseQuery st q in
  let reqs := map (firstPage q) sources in
  let failed (st1 : State) (errs : list JsVal) :=
    Some {| sub_after := st1; sub_requests := reqs; sub_error := Some errs |} in
  match allResolved replies with
  | inr errs => failed st0 errs
  | inl datas =>
      match assignTokens datas sources st0 with
      | (st1, Some err) => failed st1 [err]
      | (st1, None) =>
          match assignBuffers datas sources st1 with
          | (st2, Some err) => failed st2 [err]
          | (st2, None) =>
              match revealNextBatch (withLastRecords st2 []) with
              | Some st3 =>
                  Some {| sub_after := st3; sub_requests := reqs;
                          sub_error := None |}
              | None => None
              end
          end
      end
  end.

(** The state when the page is loaded. *)
Definition initial : State :=
  {| nextTokens := pall JNull; buffers := pall []; lastRecords := [];
     baseQuery := {| bq_account := ""; bq_start := ""; bq_end := "" |} |}.

End WithHost.

End Script.

(** * Terms of the properties *)

(** ** The fetch loop, pass by pass *)

Module LoopTerms.

Import ReportFetcher.

(** The rows that a page adds to an empty [out]: all of them without a
    limit, the first [maxRows] with a positive one. *)
Definition capped (params : Params) (records : list JsVal) : list JsVal :=
  match maxRows params with
  | Some m =>
      if m =? 0 then records
      else if 0 <? m then take (Z.to_nat m) records else []
  | None => records
  end.

(** What one pass through the [while] body amounts to when [out] is
    still empty. *)
Inductive Kind : Type :=
| KFail (err : JsVal)                     (* an exception inside [try] *)
| KEmpty (next : JsVal)                   (* no row, a cursor that is not null *)
| KFinal (next : JsVal) (rows : list JsVal). (* rows, or no further page *)

Definition classify (params : Params) (io : IO) : Kind :=
  match io with
  | TokenFails e | GetFails e => KFail e
  | GetReturns payload =>
      match readPage payload with
      | Throw e => KFail e
      | Ok (next, records) =>
          match capped params records, next with
          | [], JNull => KFinal next []
          | [], _ => KEmpty next
          | rows, _ => KFinal next rows
          end
      end
  end.

(** The start key of the call: [params.start_key], undefined when the
    caller gave none. *)
Definition callKey (params : Params) : JsVal :=
  match start_key params with Some k => JStr k | None => JUndef end.

(** The start keys of the GETs of a call that returns, in the words of
    the claim: the first GET carries the key of the call; after a failed
    pass the same page is asked for again; after a page that adds no row
    and names a further page the next GET carries the cursor of that page
    (the key of the call again when that cursor is falsy); the page that
    ends the call is the last one asked for.  A pass in which the token
    request fails sends no GET. *)
Fixpoint expectedKeys (params : Params) (key : JsVal) (script : list IO)
  : list JsVal :=
  match script with
  | [] => []
  | io :: script' =>
      match io, classify params io with
      | TokenFails _, _ => expectedKeys params key script'
      | _, KFail _ => key :: expectedKeys params key script'
      | _, KEmpty next =>
          key :: expectedKeys params
                   (if truthy next then next else callKey params) script'
      | _, KFinal _ _ => [key]
      end
  end.

Definition isFail (k : Kind) : bool :=
  match k with KFail _ => true | _ => false end.

Definition isFinal (k : Kind) : bool :=
  match k with KFinal _ _ => true | _ => false end.

(** The number of failed passes of a script. *)
Fixpoint failures (params : Params) (script : list IO) : nat :=
  match script with
  | [] => 0
  | io :: script' =>
      ((if isFail (classify params io) then 1 else 0)
       + failures params script')%nat
  end.

(** The backoff ahead of an attempt: 1000 ms after the first attempt,
    2000 ms after the second, nothing after the third. *)
Definition backoff (attempt : nat) : list Z :=
  match attempt with
  | 0%nat => [1000; 2000]
  | 1%nat => [2000]
  | _ => []
  end.

(** The delays slept in a trace. *)
Definition sleeps (evs : list Event) : list Z :=
  omap (fun e => match e with EvSleep d => Some d | _ => None end) evs.

(** A pass that ends in the [catch] clause with the exception [e]. *)
Inductive Failed : IO -> JsVal -> Prop :=
| failed_token e : Failed (TokenFails e) e
| failed_get e : Failed (GetFails e) e
| failed_body payload e :
    readPage payload = Throw e -> Failed (GetReturns payload) e.

(** A page that adds no row and names a further page. *)
Inductive EmptyPage (params : Params) : IO -> Prop :=
| empty_page payload next records :
    readPage payload = Ok (next, records) ->
    capped params records = [] ->
    next <> JNull ->
    EmptyPage params (GetReturns payload).

(** A page that adds rows, or after which there is no further page; its
    cursor and the rows it adds. *)
Inductive LastPage (params : Params) : IO -> JsVal -> list JsVal -> Prop :=
| last_page payload next records :
    readPage payload = Ok (next, records) ->
    capped params records <> [] \/ next = JNull ->
    LastPage params (GetReturns payload) next (capped params records).

(** The state of the loop variables is sound when nothing has been
    accumulated yet and the delay is the one of the attempt. *)
Definition fresh (st : Loop) : Prop :=
  out st = [] /\ (attempt st <= 2)%nat /\ delay st = 1000 * 2 ^ Z.of_nat (attempt st).

(** The events of one pass up to the arrival of the response. *)
Definition passEvents (endpoint tenant : string) (params : Params)
    (st : Loop) (io : IO) : list Event :=
  match io with
  | TokenFails _ => [EvToken tenant]
  | _ => [EvToken tenant;
          EvGet endpoint params (qsStartKey params (startKey st))]
  end.

Definition bump (st : Loop) : Loop :=
  {| attempt := S (attempt st); delay := delay st * 2; out := out st;
     startKey := startKey st; nextStartKey := nextStartKey st |}.

Definition advance (st : Loop) (next : JsVal) : Loop :=
  {| attempt := attempt st; delay := delay st; out := [];
     startKey := next; nextStartKey := next |}.

Definition finish (st : Loop) (next : JsVal) (rows : list JsVal) : Loop :=
  {| attempt := attempt st; delay := delay st; out := rows;
     startKey := startKey st; nextStartKey := next |}.

End LoopTerms.

(** ** Phone numbers *)

Module CountryTerms.

(** The digits of a phone number text, in their order. *)
Definition digitString (phoneNumber : string) : string :=
  Str.filter Str.isDigit phoneNumber.

End CountryTerms.

(** ** Rows and their identifiers *)

Module RowTerms.

Import ReportFetcher.

Definition callId (r : JsVal) : JsVal := getOpt r "call_id".

(** The row carries the identifier [c]. *)
Definition hasId (c : JsVal) (r : JsVal) : bool := sameValueZero (callId r) c.

(** What [fetchReport] does to one inbound-queue row that it keeps. *)
Definition processLeg `{Host} (r : JsVal) : Res JsVal :=
  bind (bind (bind (addExtension "queueCalls" r) (addCountry "queueCalls"))
             deriveDurations)
       deriveAbandoned.

End RowTerms.

(** ** The abandonment rule *)

(** The rule in the words of the specification, to be compared with
    [ReportFetcher.isAbandoned]: a call is abandoned when its
    agent-history is missing, empty or all empty objects, or its
    [answered_time] is falsy, or every entry of the agent-history lacks
    both an answer time and a transfer action.  An agent-history that is
    not an array (JSON text, which [fetchReport] does not parse) has no
    entries to speak of. *)
Module AbandonedRule.

Definition hasAnswerTime (h : JsVal) : bool :=
  truthy (getOpt h "answered_time").

Definition hasTransferAction (h : JsVal) : bool :=
  match getOpt h "agent_action" with
  | JStr s => Str.includes s "transfer"
  | JArr l _ => existsb (fun e => sameValueZero e (JStr "transfer")) l
  | _ => false
  end.

Definition lacksBoth (h : JsVal) : bool :=
  negb (hasAnswerTime h) && negb (hasTransferAction h).

Definition isEmptyObject (h : JsVal) : bool :=
  match h with JObj [] => true | _ => false end.

Definition historyMissing (hist : JsVal) : bool :=
  match hist with
  | JUndef | JNull => true
  | JArr l _ => forallb isEmptyObject l
  | _ => false
  end.

Definition everyEntryLacksBoth (hist : JsVal) : bool :=
  match hist with
  | JArr l _ => forallb lacksBoth l
  | _ => false
  end.

Definition abandoned (r : JsVal) : bool :=
  historyMissing (getOpt r "agent_history")
  || negb (truthy (getOpt r "answered_time"))
  || everyEntryLacksBoth (getOpt r "agent_history").

(** An entry on which the test for a transfer action cannot be made: it
    has no answer time, and its [agent_action] is neither missing nor a
    text nor an array, so that it has no [includes] to call. *)
Definition badAction (h : JsVal) : bool :=
  negb (hasAnswerTime h)
  && match getOpt h "agent_action" with
     | JUndef | JNull | JStr _ | JArr _ _ => false
     | _ => true
     end.

(** Such an entry is reached: every entry before it lacks both. *)
Fixpoint reachesBadAction (l : list JsVal) : bool :=
  match l with
  | [] => false
  | h :: l' => badAction h || (lacksBoth h && reachesBadAction l')
  end.

Definition stuck (hist : JsVal) : bool :=
  match hist with
  | JArr l _ => reachesBadAction l
  | _ => false
  end.

End AbandonedRule.

(** ** Revealed records *)

Module EngineTerms.

Import Script.

(** The call identifiers that [dedupRecords] compares by value: the
    truthy primitive ones, in the order of the records. *)
Fixpoint ids (l : list Row) : list JsVal :=
  match l with
  | [] => []
  | r :: l' =>
      if truthy (Call_ID r) && isPrim (Call_ID r) then Call_ID r :: ids l'
      else ids l'
  end.

(** The records without a call identifier (a falsy [Call ID]), in their
    order. *)
Definition withoutId (l : list Row) : list Row :=
  List.filter (fun r => negb (truthy (Call_ID r))) l.

(** The records that wait in the four buffers. *)
Definition waiting (b : Per (list Row)) : list Row :=
  p_in b ++ p_out b ++ p_camp b ++ p_cdr b.

(** [a] is not earlier than [b]. *)
Definition notEarlier `{Host} (a b : Row) : Prop := toEpoch b <= toEpoch a.

(** What the callbacks never touch. *)
Definition sameRevealed (st st' : State) : Prop :=
  lastRecords st' = lastRecords st /\ baseQuery st' = baseQuery st.

End EngineTerms.

(** ** Sample runs *)

Module Sample.

Import ReportFetcher Server Script.

(** A host on which the functions can be run: the phone library parses
    nothing, dates are unreadable, and an ISO date is stood for by the
    decimal text of its milliseconds. *)
Definition host : Host :=
  {| parsePhoneNumber := fun _ => None;
     Date_parse := fun _ => None;
     toISOString := fun ms => Some (showZ ms);
     JSON_parse := fun _ => None;
     coerceNumber := fun _ => None;
     historyCells := fun _ _ => None |}.

(** An upstream that answers an empty page with a cursor, then a page
    of three rows, to a client that asks for two rows. *)
Definition sampleParams : Params :=
  {| startDate := Some 1700000000; endDate := Some 1700003600;
     start_key := None; maxRows := Some 2 |}.

Definition sampleRow (id : string) : JsVal :=
  JObj [("call_id", JStr id); ("caller_id_number", JStr "0568334181")].

Definition emptyBody : JsVal :=
  JObj [("data", jarr []); ("next_start_key", JStr "k1")].

Definition rowsBody : JsVal :=
  JObj [("data", jarr [sampleRow "a"; sampleRow "b"; sampleRow "c"]);
        ("next_start_key", JStr "k2")].

(** An upstream that fails twice (a transport error, then a token
    error) and then answers with the page of three rows. *)
Definition failingTwice : list IO :=
  [GetFails (JStr "ECONNRESET"); TokenFails (JStr "401")].

(** The same window asked for with the cursor "k2", and the page the
    upstream holds behind that cursor. *)
Definition cursorParams : Params :=
  {| startDate := Some 1700000000; endDate := Some 1700003600;
     start_key := Some "k2"; maxRows := Some 2 |}.

Definition secondBody : JsVal :=
  JObj [("data", jarr [sampleRow "d"]); ("next_start_key", JNull)].

(** What [postProcess] makes of a CDR row of the samples. *)
Definition processed (id : string) : JsVal :=
  JObj [("call_id", JStr id); ("caller_id_number", JStr "0568334181");
        ("Extension", JStr ""); ("Country", JStr "UAE")].

(** A first-page request answered upstream with three rows and the
    cursor "k2", then the request for the next page 1000 ms later. *)
Definition firstQuery : Query :=
  {| account := Some "acme"; start := None; end_ := None;
     limit := Some 500; startKey := None |}.

Definition cursorQuery : Query :=
  {| account := Some "acme"; start := None; end_ := None;
     limit := Some 500; startKey := Some "k2" |}.

(** The rows of that first page as the HTTP handler sends them, and the
    cache after the first request (stored at time 10). *)
Definition served (id : string) : JsVal :=
  JObj [("call_id", JStr id); ("caller_id_number", JStr "0568334181");
        ("Extension", JStr ""); ("Country", JStr "UAE");
        ("answered_time", JStr "--"); ("agent_history", JUndef)].

Definition firstResponse : Response :=
  {| status := 200;
     body := JObj [("data", jarr [served "a"; served "b"; served "c"]);
                   ("next", JStr "k2")] |}.

Definition warmCache : gmap string CacheEntry :=
  <[makeCacheKey "cdrs" "acme"
      {| startDate := None; endDate := None; start_key := None;
         maxRows := Some 500 |} :=
      {| expires := 10 + CACHE_TTL;
         data := [processed "a"; processed "b"; processed "c"] |}]> ∅.

(** Three legs of the call "x" with a row of the call "y" in between. *)
Definition leg (id ext : string) : JsVal :=
  JObj [("call_id", JStr id); ("caller_id_number", JStr "0568334181");
        ("agent_history", jarr [JObj [("ext", JStr ext)]])].

Definition legsBody : JsVal :=
  JObj [("data", jarr [leg "x" "101"; leg "y" "102"; leg "x" "103";
                       leg "x" "104"]);
        ("next_start_key", JNull)].

(** The request for that page: the limit of the browser, which lets all
    four rows through. *)
Definition browserParams : Params :=
  {| startDate := Some 1700000000; endDate := Some 1700003600;
     start_key := None; maxRows := Some 500 |}.

(** The first leg of the call "x" as [fetchReport] hands it back. *)
Definition firstLeg : JsVal :=
  JObj [("call_id", JStr "x"); ("caller_id_number", JStr "0568334181");
        ("agent_history", jarr [JObj [("ext", JStr "101")]]);
        ("Extension", JStr "101"); ("Country", JStr "UAE");
        ("abandoned", JStr "YES")].

(** An answered call whose only agent leg is marked as connected, and an
    unanswered call whose only leg is a "*7" event. *)
Definition connectedEntry : JsVal :=
  JObj [("ext", JStr "101"); ("connected", JBool true)].

Definition connectedCall : JsVal :=
  JObj [("call_id", JStr "x"); ("answered_time", JNum 1700000005);
        ("agent_history", jarr [connectedEntry])].

Definition star7Call : JsVal :=
  JObj [("call_id", JStr "y");
        ("agent_history", jarr [JObj [("event", JStr "*7")]])].

(** An unanswered call whose only leg has a number as its action. *)
Definition oddRow : JsVal :=
  JObj [("call_id", JStr "z");
        ("agent_history", jarr [JObj [("agent_action", JNum 5)]])].

(** A first page with two inbound rows that carry no [call_id]. *)
Definition anonymous (called : Z) : JsVal :=
  JObj [("called_time", JNum called); ("caller_id_number", JStr "0568334181")].

Definition page (rows : list JsVal) (next : JsVal) : Reply :=
  Resolved (JObj [("data", jarr rows); ("next", next)]).

Definition sampleQuery : BaseQuery :=
  {| bq_account := "acme"; bq_start := "2023-11-14T20:00:00.000Z";
     bq_end := "2023-11-14T23:00:00.000Z" |}.

Definition anonymousReplies : Per Reply :=
  {| p_in := page [anonymous 1700000100; anonymous 1700000000] JNull;
     p_out := page [] JNull; p_camp := page [] JNull; p_cdr := page [] JNull |}.

(** Two revealed records, one of them without a called time, one more
    record in a buffer and every cursor null. *)
Definition revealed (id : string) (called : JsVal) : Row :=
  {| Type_ := "Inbound"; Call_ID := JStr id; Called_Time := called;
     Abandoned := "YES"; Extension := JStr ""; Country := JStr "UAE" |}.

Definition exhausted (recs : list Row) : State :=
  {| nextTokens := pall JNull;
     buffers := {| p_in := [revealed "c" (JNum 1699990000)]; p_out := [];
                   p_camp := []; p_cdr := [] |};
     lastRecords := recs;
     baseQuery := sampleQuery |}.

Definition noReplies : Per Reply := pall (page [] JNull).

(** One record revealed; in the buffers a later record, a second copy of
    the revealed one (as a fallback window that overlaps brings it) and
    two records without identifier. *)
Definition overlapping : State :=
  {| nextTokens := pall JNull;
     buffers := {| p_in := [revealed "d" (JNum 1700000200);
                            revealed "a" (JNum 1700000100)];
                   p_out := [revealed "" (JNum 1700000150);
                             revealed "" (JNum 1700000150)];
                   p_camp := []; p_cdr := [] |};
     lastRecords := [revealed "a" (JNum 1700000100)];
     baseQuery := sampleQuery |}.

(** A round in which the inbound source answers 500 and the outbound
    source answers with one row. *)
Definition status500 : JsVal :=
  JObj [("message", JStr "Request failed with status code 500")].

Definition outboundRow : JsVal :=
  JObj [("call_id", JStr "o1"); ("called_time", JNum 1700000000);
        ("to", JStr "0568334181")].

Definition oneFails : Per Reply :=
  {| p_in := Rejected status500; p_out := page [outboundRow] JNull;
     p_camp := page [] JNull; p_cdr := page [] JNull |}.

Definition paging : State :=
  {| nextTokens := {| p_in := JStr "k1"; p_out := JStr "k2";
                      p_camp := JNull; p_cdr := JNull |};
     buffers := pall []; lastRecords := []; baseQuery := sampleQuery |}.

(** Such a state is reached from the initial one: the first page of the
    inbound source has 500 rows, the first of them without a called time,
    and the outbound source has one row; the submit handler reveals 500
    records, one stays buffered, every cursor is null, and the next call
    of [loadNextChunks] issues no fallback request. *)
Definition numbered (i : nat) : JsVal :=
  JObj [("call_id", JNum (Z.of_nat i));
        ("called_time", JNum (1700000000 + Z.of_nat i))].

Definition fullPage : Per Reply :=
  {| p_in := page (JObj [("call_id", JStr "t")] :: map numbered (seq 1 499))
                  JNull;
     p_out := page [outboundRow] JNull;
     p_camp := page [] JNull; p_cdr := page [] JNull |}.

End Sample.

(** ** Traces of the fetch client *)

Module TraceTerms.

Import ReportFetcher.

(** Every GET of the trace goes to [endpoint] with the [params] of the
    call and comes right after a token request for [tenant]. *)
Inductive Guarded (endpoint tenant : string) (params : Params)
  : list Event -> Prop :=
| guarded_nil : Guarded endpoint tenant params []
| guarded_get k evs :
    Guarded endpoint tenant params evs ->
    Guarded endpoint tenant params
      (EvToken tenant :: EvGet endpoint params k :: evs)
| guarded_token evs :
    Guarded endpoint tenant params evs ->
    Guarded endpoint tenant params (EvToken tenant :: evs)
| guarded_sleep d evs :
    Guarded endpoint tenant params evs ->
    Guarded endpoint tenant params (EvSleep d :: evs).

(** The token requests and the GETs of a trace. *)
Definition tokens (evs : list Event) : nat :=
  length (List.filter (fun e => match e with EvToken _ => true | _ => false end)
                      evs).

Definition gets (evs : list Event) : list JsVal :=
  omap (fun e => match e with EvGet _ _ k => Some k | _ => None end) evs.

(** The request of a pass that repeats the one of the call. *)
Definition sameRequest (endpoint tenant : string) (params : Params)
  : list Event :=
  [EvToken tenant; EvGet endpoint params (qsStartKey params JUndef)].

End TraceTerms.

(** ** Rows after post-processing *)

Module ColumnTerms.

Import ReportFetcher.

(** The properties that [fetchReport] assigns after the fetch. *)
Definition derived : list string :=
  ["Extension"; "Country"; "talked_duration"; "wait_duration";
   "abandoned"; "queue_history"].

(** [r'] is [r] up to the properties [ks]. *)
Definition sameExcept (ks : list string) (r r' : JsVal) : Prop :=
  forall k : string, k ∉ ks -> getOpt r' k = getOpt r k.

(** [r'] is [r] up to the derived properties: what the upstream sent is
    still there. *)
Definition sameUpstream (r r' : JsVal) : Prop := sameExcept derived r r'.

(** The two columns every report gets: a country text, and an extension
    that is a truthy value of the row or the empty text. *)
Definition hasColumns (r : JsVal) : Prop :=
  (exists s, getOpt r "Country" = JStr s)
  /\ (truthy (getOpt r "Extension") = true \/ getOpt r "Extension" = JStr "").

Definition flagged (r : JsVal) : Prop :=
  getOpt r "abandoned" = JStr "YES" \/ getOpt r "abandoned" = JStr "NO".

End ColumnTerms.

(** ** Cursors after a round *)

Module RoundTerms.

Import Script.

#[global] Instance Source_eq_dec : EqDecision Source.
Proof. solve_decision. Defined.

(** The cursor of the source [k] once the cursor round of
    [loadNextChunks] has settled: [next ?? null] of the reply to its
    request, and what it was when the source was not asked or its request
    was rejected. *)
Definition tokenAfter (st : State) (cursor : Per Reply) (k : Source) : JsVal :=
  match chunkRequest st k, pget cursor k with
  | Some _, Resolved data => nullish (getOpt (or data (JObj [])) "next") JNull
  | _, _ => pget (nextTokens st) k
  end.



End RoundTerms.

(** ** reportFetcher.js: toCsv *)

Module ReportCsv.

Import ReportFetcher.

Definition dquote : string := String "034"%char "".
Definition newline : string := String "010"%char "".

(** The [replace] of the callback: every double quote twice. *)
Fixpoint doubleQuotes (str : string) : string :=
  match str with
  | EmptyString => EmptyString
  | String c str' =>
      if Ascii.eqb c "034"%char
      then String c (String c (doubleQuotes str'))
      else String c (doubleQuotes str')
  end.

(** The escaping of one value text (RFC 4180): quoted when it holds the
    delimiter, a line feed or a double quote. *)
Definition escapeField (delimiter str : string) : string :=
  if Str.includes str delimiter || Str.includes str newline
     || Str.includes str dquote
  then dquote +:+ doubleQuotes str +:+ dquote
  else str.

(** The callback of the inner [map]: [String(v)] escaped, nothing for
    null and undefined. *)
Definition cell (delimiter : string) (v : JsVal) : Res string :=
  if isNullish v then Ok ""
  else let! str := Script.toString v in Ok (escapeField delimiter str).

(** [Object.keys(v)] and [Object.values(v)]. *)
Definition keys (v : JsVal) : Res (list string) :=
  if isNullish v then Throw TypeError else Ok (map fst (ownEntries v)).

Definition values (v : JsVal) : Res (list JsVal) :=
  if isNullish v then Throw TypeError else Ok (map snd (ownEntries v)).

Definition line (delimiter : string) (r : JsVal) : Res string :=
  let! vs := values r in
  let! cells := mapM (cell delimiter) vs in
  Ok (String.concat delimiter cells).

Definition toCsv (records : list JsVal) (delimiter : string) : Res string :=
  match records with
  | [] => Ok ""
  | r0 :: _ =>
      let! ks := keys r0 in
      let header := String.concat delimiter ks in
      let! rows := mapM (line delimiter) records in
      Ok (String.concat newline (header :: rows))
  end.

End ReportCsv.

(** ** server.js: GET /api/auth/check *)

Module Auth.

Section WithVerifier.

(** [jwt.verify(token, JWT_SECRET)]: the decoded payload, [None] when it
    throws (bad signature, expired, malformed). *)
Variable verify : string -> option JsVal.

(** The token of an [Authorization] header, [None] for [null]. *)
Definition bearerToken (authHeader : option string) : option string :=
  match authHeader with
  | Some h =>
      if negb (String.eqb h "") && Str.startsWith h "Bearer "
      then Some (Str.dropStr 7 h) else None
  | None => None
  end.

(** [cookieToken || bearerToken]. *)
Definition token (cookieToken authHeader : option string) : option string :=
  match cookieToken with
  | Some c => if String.eqb c "" then bearerToken authHeader else Some c
  | None => bearerToken authHeader
  end.

Definition unauthenticated : JsVal := JObj [("authenticated", JBool false)].

(** The body of the response; the status is always 200. *)
Definition authCheck (cookieToken authHeader : option string) : JsVal :=
  match token cookieToken authHeader with
  | None => unauthenticated
  | Some t =>
      if String.eqb t "" then unauthenticated
      else
        match verify t with
        | None => unauthenticated
        | Some decoded =>
            match get decoded "id" with
            | Throw _ => unauthenticated
            | Ok id =>
                JObj [("authenticated", JBool true);
                      ("user", JObj [("id", id);
                                     ("username", getOpt decoded "username")])]
            end
        end
  end.

End WithVerifier.

End Auth.

(** ** server.js: GET /api/recordings/:id/meta *)

Module Recordings.

Import Server.

Section WithDuration.

(** The values of [format.duration] (seconds, a fraction in general, or
    undefined) and their truth value. *)
Variable Duration : Type.
Variable known : Duration -> bool.
Variable ofDuration : Duration -> JsVal.

(** What the request meets outside: the token provider throws, the GET
    throws (with [err.response.status], if any), the parser throws, or
    the parser returns [format.duration]. *)
Inductive Upstream : Type :=
| TokenThrows (status : option Z) (message : JsVal)
| GetThrows (status : option Z) (message : JsVal)
| ParseThrows (message : JsVal)
| Parsed (duration : Duration).

Inductive Contact : Type :=
| AskToken (account : string)
| GetRange (id : string).

Record Answer : Type := {
  response : Response;
  cache : gmap string Duration;
  contacts : list Contact
}.

Definition failed (status : Z) (message : JsVal)
    (durationCache : gmap string Duration) (contacts : list Contact) : Answer :=
  {| response := {| status := status; body := JObj [("error", message)] |};
     cache := durationCache; contacts := contacts |}.

(** [err.response?.status || 500]. *)
Definition errorStatus (status : option Z) : Z :=
  match status with
  | Some s => if s =? 0 then 500 else s
  | None => 500
  end.

Definition found (d : Duration) (durationCache : gmap string Duration)
    (contacts : list Contact) : Answer :=
  {| response := {| status := 200; body := JObj [("duration", ofDuration d)] |};
     cache := durationCache; contacts := contacts |}.

Definition meta (durationCache : gmap string Duration) (id : string)
    (account : option string) (up : Upstream) : Answer :=
  match nonEmpty account with
  | None =>
      {| response := badRequest "Missing account query param";
         cache := durationCache; contacts := [] |}
  | Some acc =>
      match durationCache !! id with
      | Some d => found d durationCache []
      | None =>
          match up with
          | TokenThrows st msg =>
              failed (errorStatus st) msg durationCache [AskToken acc]
          | GetThrows st msg =>
              failed (errorStatus st) msg durationCache
                     [AskToken acc; GetRange id]
          | ParseThrows msg =>
              failed 500 msg durationCache [AskToken acc; GetRange id]
          | Parsed d =>
              if known d
              then found d (<[id := d]> durationCache)
                         [AskToken acc; GetRange id]
              else failed 500 (JStr "Unable to determine duration")
                          durationCache [AskToken acc; GetRange id]
          end
      end
  end.

End WithDuration.

End Recordings.

(** ** script.js: totals, pages and durations *)

Module Display.

Import Script.

(** *** computeTotals *)

Record Totals : Type := {
  inCt : Z; outCt : Z; campCt : Z; cdrCt : Z; total : Z
}.

(** One pass of the [for] loop. *)
Definition tally (t : Totals) (r : Row) : Totals :=
  if String.eqb (Type_ r) "Inbound" then
    {| inCt := inCt t + 1; outCt := outCt t; campCt := campCt t;
       cdrCt := cdrCt t; total := total t |}
  else if String.eqb (Type_ r) "Outbound" then
    {| inCt := inCt t; outCt := outCt t + 1; campCt := campCt t;
       cdrCt := cdrCt t; total := total t |}
  else if String.eqb (Type_ r) "Campaign" then
    {| inCt := inCt t; outCt := outCt t; campCt := campCt t + 1;
       cdrCt := cdrCt t; total := total t |}
  else
    {| inCt := inCt t; outCt := outCt t; campCt := campCt t;
       cdrCt := cdrCt t + 1; total := total t |}.

Definition computeTotals (list : list Row) : Totals :=
  fold_left tally list
    {| inCt := 0; outCt := 0; campCt := 0; cdrCt := 0;
       total := Z.of_nat (length list) |}.

(** *** renderCurrentPage *)

(** [Math.max(1, Math.ceil(n / PAGE_SIZE))]. *)
Definition totalPages (n : nat) : Z :=
  Z.max 1 ((Z.of_nat n + (PAGE_SIZE - 1)) / PAGE_SIZE).

(** [l.slice(a, b)] for indices that are not negative. *)
Definition slice {A} (l : list A) (a b : Z) : list A :=
  take (Z.to_nat (b - a)) (drop (Z.to_nat a) l).

(** What the function shows: the page after clamping, its rows with the
    serial number of the first one, the number of pages, and which of
    the two buttons are disabled. *)
Record Rendered : Type := {
  page : Z;
  pageSlice : list Row;
  firstSerial : Z;
  pages : Z;
  prevDisabled : bool;
  nextDisabled : bool
}.

Definition noMoreTokens (st : State) : bool :=
  forallb (fun k => match pget (nextTokens st) k with
                    | JNull => true
                    | _ => false
                    end) sources.

Definition buffersEmpty (st : State) : bool :=
  forallb (fun k => match pget (buffers st) k with
                    | [] => true
                    | _ => false
                    end) sources.

Definition renderCurrentPage (st : State) (currentPage : Z)
    (currentFiltered : list Row) : Rendered :=
  let totalPages := totalPages (length currentFiltered) in
  let currentPage :=
    if totalPages <? currentPage then totalPages else currentPage in
  let currentPage := if currentPage <? 1 then 1 else currentPage in
  let startIdx := (currentPage - 1) * PAGE_SIZE in
  let mayHaveMore := negb (buffersEmpty st && noMoreTokens st) in
  {| page := currentPage;
     pageSlice := slice currentFiltered startIdx (startIdx + PAGE_SIZE);
     firstSerial := startIdx + 1;
     pages := totalPages;
     prevDisabled := currentPage =? 1;
     nextDisabled := (currentPage =? totalPages) && negb mayHaveMore |}.

(** *** secondsToHMS *)

(** [n.toString().padStart(2, '0')]. *)
Definition pad2 (n : Z) : string :=
  let s := showZ n in
  if (String.length s <? 2)%nat then "0" +:+ s else s.

Definition clock (h m s : Z) : string :=
  pad2 h +:+ ":" +:+ pad2 m +:+ ":" +:+ pad2 s.

(** The text in front of the clock: nothing for less than a day. *)
Definition dayPart (days : Z) : string :=
  if days =? 0 then ""
  else showZ days +:+ " day" +:+ (if 1 <? days then "s" else "") +:+ " ".

Section WithParseInt.

(** [parseInt(sec, 10)]; [None] is NaN. *)
Variable parseInt : JsVal -> option Z.

Definition secondsToHMS (sec : JsVal) : JsVal :=
  match parseInt sec with
  | None => sec
  | Some total =>
      let days := total / 86400 in
      let rem := Z.rem total 86400 in
      JStr (dayPart days
            +:+ clock (rem / 3600) (Z.rem rem 3600 / 60) (Z.rem rem 60))
  end.

End WithParseInt.

End Display.

(** ** Terms for the views *)

Module ViewTerms.

Import ReportCsv.

(** How many records of the list have the given [Type]. *)
Definition ofType (t : string) (l : list Script.Row) : Z :=
  Z.of_nat (length (List.filter (fun r => String.eqb (Script.Type_ r) t) l)).

(** A reader of CSV text as RFC 4180 has it, with the line feed as the
    end of a record: fields are separated by the delimiter; a field that
    starts with a double quote runs to the closing double quote, a
    doubled double quote inside it standing for one. *)
Definition quoteChar : ascii := "034"%char.
Definition lfChar : ascii := "010"%char.

Inductive Mode : Type :=
| FieldStart      (* nothing of the field read yet *)
| Unquoted        (* inside a field without quotes *)
| Quoted          (* inside a quoted field *)
| QuoteSeen.      (* after a double quote inside a quoted field *)

(** The field being read, the later fields of its record, the later
    records. *)
Definition Reading : Type := (string * list string * list (list string))%type.

Definition push (c : ascii) (r : Reading) : Reading :=
  let '(f, fs, rs) := r in (String c f, fs, rs).

Definition nextField (r : Reading) : Reading :=
  let '(f, fs, rs) := r in ("", f :: fs, rs).

Definition nextRecord (r : Reading) : Reading :=
  let '(f, fs, rs) := r in ("", [], (f :: fs) :: rs).

Fixpoint read (d : ascii) (m : Mode) (s : string) : Reading :=
  match s with
  | EmptyString => ("", [], [])
  | String c s' =>
      match m with
      | Quoted =>
          if Ascii.eqb c quoteChar then read d QuoteSeen s'
          else push c (read d Quoted s')
      | FieldStart =>
          if Ascii.eqb c quoteChar then read d Quoted s'
          else if Ascii.eqb c d then nextField (read d FieldStart s')
          else if Ascii.eqb c lfChar then nextRecord (read d FieldStart s')
          else push c (read d Unquoted s')
      | Unquoted =>
          if Ascii.eqb c d then nextField (read d FieldStart s')
          else if Ascii.eqb c lfChar then nextRecord (read d FieldStart s')
          else push c (read d Unquoted s')
      | QuoteSeen =>
          if Ascii.eqb c quoteChar then push c (read d Quoted s')
          else if Ascii.eqb c d then nextField (read d FieldStart s')
          else if Ascii.eqb c lfChar then nextRecord (read d FieldStart s')
          else push c (read d Unquoted s')
      end
  end.

Definition readCsv (d : ascii) (s : string) : list (list string) :=
  let '(f, fs, rs) := read d FieldStart s in (f :: fs) :: rs.

(** Where a field ends: at the end of the text, at a delimiter or at a
    line feed. *)
Definition boundary (d : ascii) (rest : string) : Prop :=
  rest = "" \/ exists r, rest = String d r \/ rest = String lfChar r.

(** A reading with the text [str] put in front of its first field. *)
Definition pushText (str : string) (r : Reading) : Reading :=
  let '(f, fs, rs) := r in (str +:+ f, fs, rs).

(** The text of a record as [toCsv] writes it: its cells, joined by the
    delimiter. *)
Definition recordText (d : ascii) (fields : list string) : string :=
  String.concat (String d "") (map (escapeField (String d "")) fields).

(** A text that needs no quotes: it holds neither the delimiter nor a
    line feed nor a double quote. *)
Definition plain (delimiter str : string) : bool :=
  negb (Str.includes str delimiter || Str.includes str ReportCsv.newline
        || Str.includes str ReportCsv.dquote).

(** The text of a value in a cell: [String(v)], nothing for null and
    undefined. *)
Definition valueText (v : JsVal) : Res string :=
  if isNullish v then Ok "" else Script.toString v.

(** The texts of the values of a row. *)
Definition rowTexts (r : JsVal) : Res (list string) :=
  let! vs := ReportCsv.values r in mapM valueText vs.

End ViewTerms.

(** * Properties *)

(** ** The country heuristic *)

Module CountryFacts.

Import ReportFetcher CountryTerms.

Lemma short_number_is_blank `{Host} (p : string) :
  (String.length (cleanNumber p) <= 4)%nat ->
  extractCountryFromPhoneNumber (JStr p) = "".
Proof.
  intros Hlen. unfold extractCountryFromPhoneNumber.
  destruct (String.eqb p ""); [reflexivity|].
  apply Nat.leb_le in Hlen. rewrite Hlen. reflexivity.
Qed.

Lemma non_string_is_blank `{Host} (v : JsVal) :
  isString v = false -> extractCountryFromPhoneNumber v = "".
Proof. destruct v; simpl; intros; try reflexivity; discriminate. Qed.

Lemma strip_length (s : string) :
  (String.length (Str.stripLeadingZeros s) <= String.length s)%nat.
Proof.
  induction s as [|c s IH]; [reflexivity|]. cbn [Str.stripLeadingZeros].
  destruct (Ascii.eqb_spec c "0") as [->|Hne].
  - cbn [String.length]. lia.
  - destruct c as [[] [] [] [] [] [] [] []]; try reflexivity; congruence.
Qed.

Lemma no_plus_filter (p : string) :
  Str.includes p "+" = false ->
  Str.filter (fun ch => Str.isDigit ch || Ascii.eqb ch "+"%char) p
  = digitString p.
Proof.
  unfold digitString. induction p as [|c p IH]; [reflexivity|].
  cbn [Str.includes String.prefix Str.filter].
  destruct (ascii_dec "+" c) as [<-|Hne].
  - destruct p; discriminate.
  - intros Hinc. rewrite IH by exact Hinc.
    replace (Ascii.eqb c "+") with false
      by (symmetry; apply Ascii.eqb_neq; congruence).
    rewrite orb_false_r. reflexivity.
Qed.

Lemma clean_digits (p : string) :
  Str.includes p "+" = false ->
  (String.length (cleanNumber p) <= String.length (digitString p))%nat.
Proof.
  intros Hinc. unfold cleanNumber. cbv zeta. rewrite (no_plus_filter p Hinc).
  destruct (Str.startsWith (digitString p) "+"); [lia | apply strip_length].
Qed.

(** C9: the country derivation returns "UAE" for "0568334181" and for
    "971501234567", and the empty string for every input whose cleaned
    number ([cleanNumber]: digits and plus signs kept, leading zeros
    stripped unless it starts with a plus sign) has at most 4 characters,
    such as "1234"; that holds for every input with at most 4 digits and
    no plus sign. *)
Theorem country_heuristic `{Host} (p : string) :
  extractCountryFromPhoneNumber (JStr "0568334181") = "UAE"
  /\ extractCountryFromPhoneNumber (JStr "971501234567") = "UAE"
  /\ extractCountryFromPhoneNumber (JStr "1234") = ""
  /\ ((String.length (cleanNumber p) <= 4)%nat ->
      extractCountryFromPhoneNumber (JStr p) = "")
  /\ ((String.length (digitString p) <= 4)%nat ->
      Str.includes p "+" = false ->
      extractCountryFromPhoneNumber (JStr p) = "").
Proof.
  repeat split; try reflexivity; [apply short_number_is_blank|].
  intros Hlen Hinc. apply short_number_is_blank.
  pose proof (clean_digits p Hinc). lia.
Qed.

Lemma country_heuristic_witness :
  (String.length (digitString "04-12") <= 4)%nat
  /\ Str.includes "04-12" "+" = false
  /\ extractCountryFromPhoneNumber (H := Sample.host) (JStr "04-12") = "".
Proof.
  split; [vm_compute; lia|]. split; [reflexivity|].
  apply (proj2 (proj2 (proj2 (proj2
           (country_heuristic (H := Sample.host) "04-12")))));
    [vm_compute; lia | reflexivity].
Defined.

(** The claim does not hold as stated: an input that starts with a plus
    sign and has four digits is classified, by the prefix rules that
    follow the length test. *)
Lemma country_counterexample :
  String.length (digitString "+9711") = 4%nat
  /\ extractCountryFromPhoneNumber (H := Sample.host) (JStr "+9711") = "UAE"
  /\ String.length (digitString "+2012") = 4%nat
  /\ extractCountryFromPhoneNumber (H := Sample.host) (JStr "+2012") = "Egypt".
Proof. repeat split; reflexivity. Qed.

End CountryFacts.

(** ** Results and lists *)

Module ResFacts.

Lemma bind_ok {A B} (r : Res A) (k : A -> Res B) (b : B) :
  bind r k = Ok b -> exists a, r = Ok a /\ k a = Ok b.
Proof. destruct r as [a|e]; cbn [bind]; [eauto | discriminate]. Qed.

Lemma mapM_length {A B} (f : A -> Res B) (l : list A) (l' : list B) :
  mapM f l = Ok l' -> length l' = length l.
Proof.
  revert l'. induction l as [|x l IH]; intros l'; cbn [mapM bind].
  - intros [= <-]. reflexivity.
  - destruct (f x) as [y|e]; cbn [bind]; [|discriminate].
    destruct (mapM f l) as [ys|e]; cbn [bind]; [|discriminate].
    intros [= <-]. cbn [length]. f_equal. apply IH. reflexivity.
Qed.

Lemma mapM_filter {A B} (f : A -> Res B) (p : A -> bool) (q : B -> bool)
    (l : list A) (l' : list B) :
  (forall x y, f x = Ok y -> q y = p x) ->
  mapM f l = Ok l' ->
  mapM f (List.filter p l) = Ok (List.filter q l').
Proof.
  intros Hpq. revert l'. induction l as [|x l IH]; intros l'; cbn [mapM bind].
  - intros [= <-]. reflexivity.
  - destruct (f x) as [y|e] eqn:Hfx; cbn [bind]; [|discriminate].
    destruct (mapM f l) as [ys|e]; cbn [bind]; [|discriminate].
    intros [= <-]. cbn [List.filter]. rewrite (Hpq x y Hfx).
    destruct (p x); cbn [mapM bind].
    + rewrite Hfx. cbn [bind]. rewrite (IH ys eq_refl). reflexivity.
    + apply IH. reflexivity.
Qed.

Lemma mapM_take {A B} (f : A -> Res B) (n : nat) (l : list A) (l' : list B) :
  mapM f l = Ok l' -> mapM f (take n l) = Ok (take n l').
Proof.
  revert n l'. induction l as [|x l IH]; intros n l'; cbn [mapM bind].
  - intros [= <-]. destruct n; reflexivity.
  - destruct (f x) as [y|e] eqn:Hfx; cbn [bind]; [|discriminate].
    destruct (mapM f l) as [ys|e]; cbn [bind]; [|discriminate].
    intros [= <-]. destruct n as [|n]; [reflexivity|].
    cbn [take firstn mapM bind]. rewrite Hfx. cbn [bind].
    rewrite (IH n ys eq_refl). reflexivity.
Qed.

Lemma mapM_compose {A B C} (f : A -> Res B) (g : B -> Res C)
    (l : list A) (l1 : list B) (l2 : list C) :
  mapM f l = Ok l1 -> mapM g l1 = Ok l2 ->
  mapM (fun x => bind (f x) g) l = Ok l2.
Proof.
  revert l1 l2. induction l as [|x l IH]; intros l1 l2; cbn [mapM bind].
  - intros [= <-]. cbn [mapM]. intros [= <-]. reflexivity.
  - destruct (f x) as [y|e] eqn:Hfx; cbn [bind]; [|discriminate].
    destruct (mapM f l) as [ys|e]; cbn [bind]; [|discriminate].
    intros [= <-]. cbn [mapM bind].
    destruct (g y) as [z|e] eqn:Hgy; cbn [bind]; [|discriminate].
    destruct (mapM g ys) as [zs|e] eqn:Hzs; cbn [bind]; [|discriminate].
    intros [= <-]. rewrite (IH ys zs eq_refl Hzs). reflexivity.
Qed.

End ResFacts.

(** ** The retrying, paginating fetch loop *)

Module FetchFacts.

Import ReportFetcher ResFacts LoopTerms TraceTerms Sample.

Lemma classify_fail (params : Params) (a : IO) (e : JsVal) :
  classify params a = KFail e <-> Failed a e.
Proof.
  split.
  - destruct a as [e'|e'|payload]; cbn [classify].
    + intros [= ->]. constructor.
    + intros [= ->]. constructor.
    + destruct (readPage payload) as [[next records]|e'] eqn:Hp.
      * destruct (capped params records), next; discriminate.
      * intros [= ->]. constructor. exact Hp.
  - intros [e'|e'|payload e' Hp]; cbn [classify]; [reflexivity..|].
    rewrite Hp. reflexivity.
Qed.

Lemma classify_empty (params : Params) (a : IO) :
  (exists next, classify params a = KEmpty next) <-> EmptyPage params a.
Proof.
  split.
  - intros [n Hk]. destruct a as [e'|e'|payload]; cbn [classify] in Hk;
      try discriminate.
    destruct (readPage payload) as [[next records]|e'] eqn:Hp; [|discriminate].
    destruct (capped params records) eqn:Hc; [|discriminate].
    econstructor; [exact Hp | exact Hc |].
    intros ->. discriminate.
  - intros [payload next records Hp Hc Hn]. exists next. cbn [classify].
    rewrite Hp, Hc. destruct next; congruence.
Qed.

Lemma classify_final (params : Params) (a : IO) (next : JsVal)
    (rows : list JsVal) :
  classify params a = KFinal next rows <-> LastPage params a next rows.
Proof.
  split.
  - destruct a as [e'|e'|payload]; cbn [classify]; try discriminate.
    destruct (readPage payload) as [[n records]|e'] eqn:Hp; [|discriminate].
    destruct (capped params records) as [|r rs] eqn:Hc.
    + destruct n; try discriminate. intros [= <- <-].
      rewrite <- Hc. econstructor; [exact Hp | right; reflexivity].
    + intros Hk.
      assert (Hk' : KFinal n (r :: rs) = KFinal next rows)
        by (destruct n; exact Hk).
      injection Hk' as <- <-. rewrite <- Hc.
      econstructor; [exact Hp | left; rewrite Hc; discriminate].
  - intros [payload n records Hp Hor]. cbn [classify]. rewrite Hp.
    destruct (capped params records) as [|r rs] eqn:Hc.
    + destruct Hor as [Hne| ->]; [congruence | reflexivity].
    + destruct n; reflexivity.
Qed.

Lemma last_page_inv (params : Params) (a : IO) (next : JsVal)
    (rows : list JsVal) :
  LastPage params a next rows ->
  exists payload records,
    a = GetReturns payload
    /\ readPage payload = Ok (next, records)
    /\ rows = capped params records
    /\ (rows <> [] \/ next = JNull).
Proof.
  intros [payload n records Hp Hor]. exists payload, records.
  repeat split; assumption.
Qed.

Lemma not_final (params : Params) (a : IO) :
  isFinal (classify params a) = false <->
  (exists e, Failed a e) \/ EmptyPage params a.
Proof.
  split.
  - destruct (classify params a) as [e|n|n r] eqn:Hk; [| |discriminate].
    + intros _. left. exists e. apply (classify_fail params). exact Hk.
    + intros _. right. apply classify_empty. exists n. exact Hk.
  - intros [[e He]|He].
    + apply (classify_fail params) in He. rewrite He. reflexivity.
    + apply classify_empty in He as [n ->]. reflexivity.
Qed.

Lemma capped_limit (params : Params) (m : Z) (records : list JsVal) :
  maxRows params = Some m -> 0 < m ->
  capped params records = take (Z.to_nat m) records.
Proof.
  intros Hm Hpos. unfold capped. rewrite Hm.
  replace (m =? 0) with false by (symmetry; apply Z.eqb_neq; lia).
  replace (0 <? m) with true by (symmetry; apply Z.ltb_lt; lia).
  reflexivity.
Qed.

Section Loop.

Context `{Host} (endpoint tenant : string) (params : Params).

Lemma fresh_init : fresh loopInit.
Proof. repeat split; simpl; lia. Qed.

Lemma pushed_capped (records : list JsVal) :
  pushed params [] records = capped params records.
Proof.
  unfold pushed, remaining, capped. cbn [length app].
  assert (Hall : (if 0 <? Z.of_nat (length records)
                  then take (Z.to_nat (Z.of_nat (length records))) records
                  else []) = records).
  { destruct records as [|r records]; [reflexivity|].
    replace (0 <? Z.of_nat (length (r :: records))) with true
      by (symmetry; apply Z.ltb_lt; cbn [length]; lia).
    rewrite Nat2Z.id. apply firstn_all. }
  destruct (maxRows params) as [m|]; [|exact Hall].
  destruct (m =? 0); [exact Hall|].
  rewrite Z.sub_0_r. reflexivity.
Qed.

(** One pass, case by case. *)
Lemma step_classify (st : Loop) (io : IO) :
  out st = [] ->
  step endpoint tenant params st io =
  match classify params io with
  | KFail e =>
      if (attempt st =? 2)%nat
      then (Rethrow e, passEvents endpoint tenant params st io)
      else (Continue (bump st),
            passEvents endpoint tenant params st io ++ [EvSleep (delay st)])
  | KEmpty next =>
      (Continue (advance st next), passEvents endpoint tenant params st io)
  | KFinal next rows =>
      (Break (finish st next rows), passEvents endpoint tenant params st io)
  end.
Proof.
  intros Hout. unfold ReportFetcher.step, classify, onError.
  change (MAX_RETRIES - 1)%nat with 2%nat.
  destruct io as [e|e|payload]; cbn [passEvents].
  - destruct (attempt st =? 2)%nat; reflexivity.
  - destruct (attempt st =? 2)%nat; reflexivity.
  - unfold onPage. destruct (readPage payload) as [[next records]|e].
    + rewrite Hout, pushed_capped.
      destruct (capped params records) as [|r rows] eqn:Hc.
      * cbn [length Nat.ltb Nat.leb].
        destruct next; reflexivity.
      * cbn [length Nat.ltb Nat.leb].
        destruct next; reflexivity.
    + unfold onError. change (MAX_RETRIES - 1)%nat with 2%nat.
      destruct (attempt st =? 2)%nat; reflexivity.
Qed.

Lemma fresh_bump (st : Loop) :
  fresh st -> attempt st <> 2%nat -> fresh (bump st).
Proof.
  intros (Ho & Ha & Hd) Hne. repeat split; cbn [bump out attempt delay].
  - exact Ho.
  - lia.
  - rewrite Hd, Nat2Z.inj_succ, Z.pow_succ_r by lia. lia.
Qed.

Lemma fresh_advance (st : Loop) (next : JsVal) :
  fresh st -> fresh (advance st next).
Proof. intros (Ho & Ha & Hd). repeat split; assumption. Qed.

Lemma backoff_next (st : Loop) :
  fresh st -> attempt st <> 2%nat ->
  backoff (attempt st) = delay st :: backoff (S (attempt st)).
Proof.
  intros (_ & Ha & Hd) Hne. rewrite Hd.
  destruct (attempt st) as [|[|[|a]]]; try reflexivity; try lia; congruence.
Qed.

Lemma sleeps_app (a b : list Event) : sleeps (a ++ b) = sleeps a ++ sleeps b.
Proof. unfold sleeps. apply omap_app. Qed.

Lemma sleeps_pass (st : Loop) (io : IO) :
  sleeps (passEvents endpoint tenant params st io) = [].
Proof. destruct io; reflexivity. Qed.

Lemma fetchLoop_cons (io : IO) (script : list IO) (st : Loop) :
  out st = [] ->
  fetchLoop endpoint tenant params (io :: script) st =
  match classify params io with
  | KFail e =>
      if (attempt st =? 2)%nat then (Raised e, passEvents endpoint tenant params st io)
      else (fst (fetchLoop endpoint tenant params script (bump st)),
            (passEvents endpoint tenant params st io ++ [EvSleep (delay st)])
              ++ snd (fetchLoop endpoint tenant params script (bump st)))
  | KEmpty next =>
      (fst (fetchLoop endpoint tenant params script (advance st next)),
       passEvents endpoint tenant params st io
       ++ snd (fetchLoop endpoint tenant params script (advance st next)))
  | KFinal next rows =>
      (Done (finish st next rows), passEvents endpoint tenant params st io)
  end.
Proof.
  intros Hout. cbn [ReportFetcher.fetchLoop].
  rewrite (step_classify st io Hout).
  destruct (classify params io) as [e|next|next rows].
  - destruct (attempt st =? 2)%nat; [reflexivity|].
    destruct (fetchLoop endpoint tenant params script (bump st)); reflexivity.
  - destruct (fetchLoop endpoint tenant params script (advance st next)); reflexivity.
  - reflexivity.
Qed.

(** A script whose passes fail at most twice in all and otherwise skip
    empty pages, followed by a page with rows or without a further
    cursor: the loop returns that page. *)
Lemma run_to_done (pre : list IO) (io : IO) (post : list IO)
    (next : JsVal) (rows : list JsVal) :
  forall st : Loop,
  fresh st ->
  Forall (fun a => isFinal (classify params a) = false) pre ->
  (attempt st + failures params pre <= 2)%nat ->
  classify params io = KFinal next rows ->
  exists st' evs,
    fetchLoop endpoint tenant params (pre ++ io :: post) st = (Done st', evs)
    /\ out st' = rows /\ nextStartKey st' = next
    /\ attempt st' = (attempt st + failures params pre)%nat
    /\ sleeps evs = take (failures params pre) (backoff (attempt st)).
Proof.
  induction pre as [|a pre IH]; intros st Hfresh Hpre Hle Hio.
  - exists (finish st next rows), (passEvents endpoint tenant params st io).
    cbn [app]. rewrite fetchLoop_cons by apply Hfresh. rewrite Hio.
    cbn [failures finish out nextStartKey attempt take].
    rewrite sleeps_pass. repeat split; try reflexivity; lia.
  - apply Forall_cons in Hpre as [Ha Hpre]. cbn [app].
    rewrite fetchLoop_cons by apply Hfresh. cbn [failures] in *.
    destruct (classify params a) as [e|n|n r] eqn:Hk; cbn [isFail isFinal] in *.
    + assert (Hne : attempt st <> 2%nat) by lia.
      apply Nat.eqb_neq in Hne as Hne'. rewrite Hne'.
      destruct (IH (bump st)) as (st' & evs & Hrun & Ho & Hn & Hatt & Hs);
        [apply fresh_bump; assumption | assumption
        | cbn [bump attempt]; lia | assumption |].
      exists st',
        ((passEvents endpoint tenant params st a ++ [EvSleep (delay st)])
         ++ evs).
      rewrite Hrun. cbn [fst snd].
      split; [reflexivity|]. split; [assumption|]. split; [assumption|]. split.
      * rewrite Hatt. cbn [bump attempt]. lia.
      * rewrite !sleeps_app, sleeps_pass, Hs.
        rewrite (backoff_next st Hfresh Hne). reflexivity.
    + destruct (IH (advance st n)) as (st' & evs & Hrun & Ho & Hn & Hatt & Hs);
        [apply fresh_advance; assumption | assumption
        | cbn [advance attempt]; lia | assumption |].
      exists st', (passEvents endpoint tenant params st a ++ evs).
      rewrite Hrun. cbn [fst snd].
      split; [reflexivity|]. split; [assumption|]. split; [assumption|]. split.
      * rewrite Hatt. reflexivity.
      * rewrite sleeps_app, sleeps_pass, Hs. reflexivity.
    + discriminate.
Qed.



(** What a returning loop has seen: passes that failed (at most two) or
    gave an empty page with a cursor, then the page it returns. *)
Lemma done_inv (script : list IO) :
  forall (st st' : Loop) (evs : list Event),
  fresh st ->
  fetchLoop endpoint tenant params script st = (Done st', evs) ->
  exists pre io post,
    script = pre ++ io :: post
    /\ Forall (fun a => isFinal (classify params a) = false) pre
    /\ (attempt st + failures params pre <= 2)%nat
    /\ classify params io = KFinal (nextStartKey st') (out st')
    /\ attempt st' = (attempt st + failures params pre)%nat.
Proof.
  induction script as [|io script IH]; intros st st' evs Hfresh Hrun.
  - discriminate.
  - rewrite fetchLoop_cons in Hrun by apply Hfresh.
    destruct (classify params io) as [e|n|n r] eqn:Hk.
    + destruct (attempt st =? 2)%nat eqn:Ha; [discriminate|].
      apply Nat.eqb_neq in Ha.
      destruct (fetchLoop endpoint tenant params script (bump st)) as [r evs'] eqn:Hrest.
      cbn [fst snd] in Hrun. injection Hrun as -> _.
      destruct (IH _ _ _ (fresh_bump st Hfresh Ha) Hrest)
        as (pre & io' & post & -> & Hpre & Hle & Hfin & Hatt).
      exists (io :: pre), io', post. repeat split; try assumption.
      * constructor; [rewrite Hk; reflexivity | assumption].
      * cbn [failures]. rewrite Hk. cbn [isFail bump attempt] in *. lia.
      * cbn [failures]. rewrite Hk, Hatt. cbn [isFail bump attempt]. lia.
    + destruct (fetchLoop endpoint tenant params script (advance st n))
        as [r evs'] eqn:Hrest.
      cbn [fst snd] in Hrun. injection Hrun as -> _.
      destruct (IH _ _ _ (fresh_advance st n Hfresh) Hrest)
        as (pre & io' & post & -> & Hpre & Hle & Hfin & Hatt).
      exists (io :: pre), io', post. repeat split; try assumption.
      * constructor; [rewrite Hk; reflexivity | assumption].
      * cbn [failures]. rewrite Hk. cbn [isFail advance attempt] in *. lia.
      * cbn [failures]. rewrite Hk, Hatt. cbn [isFail advance attempt]. lia.
    + injection Hrun as <- _.
      exists [], io, script. repeat split.
      * constructor.
      * cbn [failures]. destruct Hfresh as (_ & Ha & _). lia.
      * exact Hk.
      * cbn [failures finish attempt]. lia.
Qed.

Lemma gets_app (a b : list Event) : gets (a ++ b) = gets a ++ gets b.
Proof. unfold gets. apply omap_app. Qed.

Lemma gets_pass (st : Loop) (io : IO) :
  gets (passEvents endpoint tenant params st io)
  = match io with
    | TokenFails _ => []
    | _ => [qsStartKey params (startKey st)]
    end.
Proof. destruct io; reflexivity. Qed.

(** The start keys a returning loop has sent. *)
Lemma done_keys (script : list IO) :
  forall (st st' : Loop) (evs : list Event),
  fresh st ->
  fetchLoop endpoint tenant params script st = (Done st', evs) ->
  gets evs = expectedKeys params (qsStartKey params (startKey st)) script
  /\ exists rest, gets evs = qsStartKey params (startKey st) :: rest.
Proof.
  induction script as [|io script IH]; intros st st' evs Hfresh Hrun.
  - discriminate.
  - rewrite fetchLoop_cons in Hrun by apply Hfresh.
    destruct (classify params io) as [e|n|n r] eqn:Hk.
    + destruct (attempt st =? 2)%nat eqn:Ha; [discriminate|].
      apply Nat.eqb_neq in Ha.
      destruct (fetchLoop endpoint tenant params script (bump st))
        as [f evs'] eqn:Hrest.
      cbn [fst snd] in Hrun.
      assert (Hevs : evs = (passEvents endpoint tenant params st io
                            ++ [EvSleep (delay st)]) ++ evs') by congruence.
      assert (Hf : f = Done st') by congruence.
      subst evs f. clear Hrun.
      destruct (IH _ _ _ (fresh_bump st Hfresh Ha) Hrest) as [Hkeys [rest Hhd]].
      unfold bump in Hkeys, Hhd. cbn [startKey] in Hkeys, Hhd.
      rewrite !gets_app, gets_pass.
      change (gets [EvSleep (delay st)]) with (@nil JsVal).
      destruct io as [e'|e'|payload]; cbn [expectedKeys]; rewrite ?Hk;
        cbn [app]; rewrite <- Hkeys; eauto.
    + destruct io as [e'|e'|payload]; try discriminate.
      destruct (fetchLoop endpoint tenant params script (advance st n))
        as [f evs'] eqn:Hrest.
      cbn [fst snd] in Hrun.
      assert (Hevs : evs = passEvents endpoint tenant params st
                             (GetReturns payload) ++ evs') by congruence.
      assert (Hf : f = Done st') by congruence.
      subst evs f. clear Hrun.
      destruct (IH _ _ _ (fresh_advance st n Hfresh) Hrest) as [Hkeys _].
      unfold advance in Hkeys. cbn [startKey] in Hkeys.
      rewrite gets_app, gets_pass. cbn [expectedKeys]. rewrite Hk.
      cbn [app]. rewrite Hkeys. split; [reflexivity | eauto].
    + destruct io as [e'|e'|payload]; try discriminate.
      assert (Hevs : evs = passEvents endpoint tenant params st
                             (GetReturns payload)) by congruence.
      subst evs. rewrite gets_pass. cbn [expectedKeys]. rewrite Hk.
      split; eauto.
Qed.

End Loop.

(** *** Post-processing never adds a row *)

Lemma firstRowsFrom_length (out : list JsVal) :
  forall (seen fr : list JsVal),
  firstRowsFrom seen out = Ok fr -> (length fr <= length out)%nat.
Proof.
  induction out as [|r out IH]; intros seen fr; cbn [firstRowsFrom bind].
  - intros [= <-]. reflexivity.
  - destruct (get r "call_id") as [id|e]; cbn [bind]; [|discriminate].
    destruct (negb (truthy id)).
    + destruct (firstRowsFrom seen out) as [rs|e] eqn:Hrs; cbn [bind];
        [|discriminate].
      intros [= <-]. cbn [length]. apply IH in Hrs. lia.
    + destruct (existsb (sameValueZero id) seen).
      * intros Hfr. apply IH in Hfr. cbn [length]. lia.
      * destruct (firstRowsFrom (id :: seen) out) as [rs|e] eqn:Hrs;
          cbn [bind]; [|discriminate].
        intros [= <-]. cbn [length]. apply IH in Hrs. lia.
Qed.

Lemma postProcess_length `{Host} (report : string) (out rows : list JsVal) :
  postProcess report out = Ok rows -> (length rows <= length out)%nat.
Proof.
  unfold postProcess.
  destruct (mapM (addExtension report) out) as [o1|e] eqn:H1; cbn [bind];
    [|discriminate].
  destruct (mapM (addCountry report) o1) as [o2|e] eqn:H2; cbn [bind];
    [|discriminate].
  apply mapM_length in H1, H2.
  assert (H3 : forall o3,
    (if isQueue report then mapM deriveDurations o2 else Ok o2) = Ok o3 ->
    length o3 = length out).
  { intros o3. destruct (isQueue report).
    - intros Hm. apply mapM_length in Hm. congruence.
    - intros [= <-]. congruence. }
  destruct (if isQueue report then mapM deriveDurations o2 else Ok o2)
    as [o3|e]; cbn [bind]; [|discriminate].
  specialize (H3 o3 eq_refl).
  destruct (String.eqb report "queueCalls").
  - destruct (firstRowsFrom [] o3) as [fr|e] eqn:Hfr; cbn [bind];
      [|discriminate].
    intros Hm. apply mapM_length in Hm. apply firstRowsFrom_length in Hfr. lia.
  - destruct (String.eqb report "queueOutboundCalls").
    + intros Hm. apply mapM_length in Hm. lia.
    + intros [= <-]. lia.
Qed.

(** *** fetchReport on its two paths *)

Section Report.

Context `{Host}.

Lemma fetchReport_hit (reportCache : gmap string CacheEntry)
    (now stored : Z) (script : list IO) (report tenant endpoint : string)
    (params : Params) (rows : list JsVal) :
  lookupEndpoint report = Some endpoint ->
  cacheLookup reportCache (makeCacheKey report tenant params) now = Some rows ->
  fetchReport reportCache now script stored report tenant params
  = {| outcome := Return (BareArray rows); cacheAfter := reportCache;
       events := [] |}.
Proof. intros He Hc. unfold fetchReport. rewrite He, Hc. reflexivity. Qed.

Lemma fetchReport_miss (reportCache : gmap string CacheEntry)
    (now stored : Z) (script : list IO) (report tenant endpoint : string)
    (params : Params) :
  lookupEndpoint report = Some endpoint ->
  cacheLookup reportCache (makeCacheKey report tenant params) now = None ->
  fetchReport reportCache now script stored report tenant params
  = match fetchLoop endpoint tenant params script loopInit with
    | (Pending, evs) =>
        {| outcome := Waiting; cacheAfter := reportCache; events := evs |}
    | (Raised err, evs) =>
        {| outcome := Raise err; cacheAfter := reportCache; events := evs |}
    | (Done st, evs) =>
        match postProcess report (out st) with
        | Throw err =>
            {| outcome := Raise err; cacheAfter := reportCache;
               events := evs |}
        | Ok rows =>
            {| outcome := Return (RowsNext rows (nextStartKey st));
               cacheAfter :=
                 <[makeCacheKey report tenant params :=
                     {| expires := stored + CACHE_TTL; data := rows |}]>
                   reportCache;
               events := evs |}
        end
    end.
Proof.
  intros He Hc. unfold fetchReport. rewrite He, Hc.
  destruct (fetchLoop endpoint tenant params script loopInit) as [[st|e|] evs];
    reflexivity.
Qed.

(** A bare array comes from the cache, without any upstream event. *)
Lemma fetchReport_array (reportCache : gmap string CacheEntry)
    (now stored : Z) (script : list IO) (report tenant : string)
    (params : Params) (rows : list JsVal) :
  outcome (fetchReport reportCache now script stored report tenant params)
  = Return (BareArray rows) ->
  events (fetchReport reportCache now script stored report tenant params) = [].
Proof.
  unfold fetchReport.
  destruct (lookupEndpoint report) as [endpoint|]; [|discriminate].
  destruct (cacheLookup _ _ _) as [cached|]; [reflexivity|].
  destruct (fetchLoop endpoint tenant params script loopInit)
    as [[st|e|] evs]; try discriminate.
  destruct (postProcess report (out st)); discriminate.
Qed.

(** Only the upstream path returns the object [{ rows, next }]. *)
Lemma fetchReport_object (reportCache : gmap string CacheEntry)
    (now stored : Z) (script : list IO) (report tenant : string)
    (params : Params) (rows : list JsVal) (next : JsVal) :
  outcome (fetchReport reportCache now script stored report tenant params)
  = Return (RowsNext rows next) ->
  exists endpoint st evs,
    lookupEndpoint report = Some endpoint
    /\ cacheLookup reportCache (makeCacheKey report tenant params) now = None
    /\ fetchLoop endpoint tenant params script loopInit = (Done st, evs)
    /\ postProcess report (out st) = Ok rows
    /\ next = nextStartKey st.
Proof.
  unfold fetchReport.
  destruct (lookupEndpoint report) as [endpoint|]; [|discriminate].
  destruct (cacheLookup _ _ _) as [cached|] eqn:Hc; [discriminate|].
  destruct (fetchLoop endpoint tenant params script loopInit)
    as [[st|e|] evs] eqn:Hl; try discriminate.
  destruct (postProcess report (out st)) as [rs|e] eqn:Hp; [|discriminate].
  cbn [outcome]. intros [= <- <-].
  exists endpoint, st, evs. repeat split; assumption.
Qed.

End Report.

(** The part of C5 that holds, on the upstream path: with a row limit
    [m > 0], a call of the fetch client that goes
    to the upstream and returns has at most [m] rows, in [out] and in the
    rows it hands back; it went on to a further page only after a pass
    that failed or a page that gave no row and a cursor that is not null,
    it stopped at the first page that gave a row or no cursor, and the
    cursor it returns is the [next_start_key] of that last page.
    Conversely the call does return on every such script with at most two
    failed passes.  Its first GET carries the start key of the call, so
    that a call made with the cursor of the previous one asks for the
    page behind it; after a failed pass it asks for the same page again,
    and after an empty page for the page behind the cursor of that page
    (with the key of the call again when that cursor is falsy). *)
Theorem fetch_client_paging `{Host} (tenant : string) (params : Params)
    (m : Z) :
  maxRows params = Some m -> 0 < m ->
  (forall endpoint script st evs,
     fetchLoop endpoint tenant params script loopInit = (Done st, evs) ->
     Z.of_nat (length (out st)) <= m
     /\ exists pre payload post records,
          script = pre ++ GetReturns payload :: post
          /\ Forall (fun a => (exists e, Failed a e) \/ EmptyPage params a) pre
          /\ readPage payload = Ok (nextStartKey st, records)
          /\ out st = take (Z.to_nat m) records
          /\ (out st <> [] \/ nextStartKey st = JNull))
  /\ (forall endpoint pre payload post next records,
        Forall (fun a => (exists e, Failed a e) \/ EmptyPage params a) pre ->
        (failures params pre <= 2)%nat ->
        readPage payload = Ok (next, records) ->
        records <> [] \/ next = JNull ->
        exists st evs,
          fetchLoop endpoint tenant params (pre ++ GetReturns payload :: post)
            loopInit = (Done st, evs)
          /\ out st = take (Z.to_nat m) records
          /\ nextStartKey st = next)
  /\ (forall reportCache now script stored report rows next,
        outcome (fetchReport reportCache now script stored report tenant params)
        = Return (RowsNext rows next) ->
        Z.of_nat (length rows) <= m)
  /\ (forall endpoint script st evs,
        fetchLoop endpoint tenant params script loopInit = (Done st, evs) ->
        gets evs = expectedKeys params (callKey params) script
        /\ exists rest, gets evs = callKey params :: rest).
Proof.
  intros Hm Hpos.
  assert (Hcap : forall records,
             capped params records = take (Z.to_nat m) records)
    by (intros; apply capped_limit; assumption).
  assert (Hdone : forall endpoint script st evs,
     fetchLoop endpoint tenant params script loopInit = (Done st, evs) ->
     Z.of_nat (length (out st)) <= m
     /\ exists pre payload post records,
          script = pre ++ GetReturns payload :: post
          /\ Forall (fun a => (exists e, Failed a e) \/ EmptyPage params a) pre
          /\ readPage payload = Ok (nextStartKey st, records)
          /\ out st = take (Z.to_nat m) records
          /\ (out st <> [] \/ nextStartKey st = JNull)).
  { intros endpoint script st evs Hrun.
    destruct (done_inv endpoint tenant params script loopInit st evs
                fresh_init Hrun) as (pre & io & post & -> & Hpre & _ & Hfin & _).
    apply classify_final, last_page_inv in Hfin
      as (payload & records & -> & Hp & Hrows & Hor).
    rewrite Hcap in Hrows. split.
    - rewrite Hrows, length_take. lia.
    - exists pre, payload, post, records. repeat split; try assumption.
      eapply Forall_impl; [exact Hpre|].
      intros a Ha. apply not_final. exact Ha. }
  split; [exact Hdone|]. split; [|split].
  - intros endpoint pre payload post next records Hpre Hle Hp Hor.
    destruct (run_to_done endpoint tenant params pre (GetReturns payload) post
                next (capped params records) loopInit fresh_init)
      as (st & evs & Hrun & Hout & Hnext & _).
    + eapply Forall_impl; [exact Hpre|].
      intros a Ha. apply not_final. exact Ha.
    + cbn [loopInit attempt]. lia.
    + apply classify_final. constructor; [exact Hp|].
      destruct Hor as [Hne|Hnull]; [left | right; exact Hnull].
      rewrite Hcap. destruct records as [|r records]; [congruence|].
      destruct (Z.to_nat m) eqn:Hz; [lia | discriminate].
    + exists st, evs. rewrite Hcap in Hout. repeat split; assumption.
  - intros reportCache now script stored report rows next Hret.
    apply fetchReport_object in Hret
      as (ep & st & evs & _ & _ & Hrun & Hpost & _).
    apply postProcess_length in Hpost.
    destruct (Hdone ep script st evs Hrun) as [Hlen _]. lia.
  - intros endpoint script st evs Hrun.
    exact (done_keys endpoint tenant params script loopInit st evs
             fresh_init Hrun).
Qed.

Lemma fetch_client_paging_witness :
  (maxRows sampleParams = Some 2 /\ 0 < 2)
  /\ exists st evs,
       fetchLoop "/api/v2/reports/cdrs" "acme" sampleParams
         ([GetReturns emptyBody] ++ GetReturns rowsBody :: []) loopInit
       = (Done st, evs)
       /\ out st = take (Z.to_nat 2) [sampleRow "a"; sampleRow "b"; sampleRow "c"]
       /\ nextStartKey st = JStr "k2"
       /\ gets evs = [JUndef; JStr "k1"].
Proof.
  split; [split; [reflexivity | lia]|].
  destruct (fetch_client_paging (H := Sample.host) "acme" sampleParams 2
              eq_refl ltac:(lia)) as (_ & Hreturns & _ & Hkeys).
  destruct (Hreturns "/api/v2/reports/cdrs" [GetReturns emptyBody] rowsBody []
              (JStr "k2") [sampleRow "a"; sampleRow "b"; sampleRow "c"])
    as (st & evs & Hrun & Hout & Hnext).
  - constructor; [|constructor]. right.
    apply (empty_page sampleParams emptyBody (JStr "k1") []);
      [reflexivity | reflexivity | discriminate].
  - vm_compute. lia.
  - reflexivity.
  - left. discriminate.
  - exists st, evs. split; [exact Hrun|]. split; [exact Hout|].
    split; [exact Hnext|].
    exact (proj1 (Hkeys _ _ _ _ Hrun)).
Defined.

(** C5, on the code: the limit is applied where the rows of a page are
    pushed, which a call answered from the cache never reaches.  A call
    with the limit 500 stores the three rows of its page; 1000 ms later a
    call for the same window with the limit 2 is handed all three of
    them, and a call made with the returned cursor "k2" is handed the
    same three rows and asks the upstream for no page at all. *)
Theorem cached_rows_exceed_limit :
  let first := fetchReport (H := Sample.host) ∅ 0 [GetReturns rowsBody] 10
                 "cdrs" "acme" browserParams in
  let second := fetchReport (H := Sample.host) (cacheAfter first) 1000
                  [GetReturns secondBody] 1010 "cdrs" "acme" sampleParams in
  let resumed := fetchReport (H := Sample.host) (cacheAfter first) 1000
                   [GetReturns secondBody] 1010 "cdrs" "acme" cursorParams in
  outcome first
  = Return (RowsNext [processed "a"; processed "b"; processed "c"] (JStr "k2"))
  /\ maxRows browserParams = Some 500
  /\ maxRows sampleParams = Some 2
  /\ outcome second
     = Return (BareArray [processed "a"; processed "b"; processed "c"])
  /\ events second = []
  /\ start_key cursorParams = Some "k2"
  /\ maxRows cursorParams = Some 2
  /\ outcome resumed
     = Return (BareArray [processed "a"; processed "b"; processed "c"])
  /\ events resumed = [].
Proof. vm_compute. repeat split; reflexivity. Qed.



End FetchFacts.

(** ** The query cache *)

Module CacheFacts.

Import ReportFetcher Server LoopTerms Sample FetchFacts.

(** The key is made of the report, the tenant and the two window bounds:
    the cursor and the row limit of the request play no part in it. *)
Lemma key_ignores_cursor (report tenant : string) (p q : Params) :
  startDate p = startDate q -> endDate p = endDate q ->
  makeCacheKey report tenant p = makeCacheKey report tenant q.
Proof. unfold makeCacheKey. intros -> ->. reflexivity. Qed.

Lemma lookup_after_store (reportCache : gmap string CacheEntry)
    (key : string) (stored now : Z) (rows : list JsVal) :
  now < stored + CACHE_TTL ->
  cacheLookup (<[key := {| expires := stored + CACHE_TTL; data := rows |}]>
                 reportCache) key now = Some rows.
Proof.
  intros Hfresh. unfold cacheLookup. rewrite lookup_insert_eq. cbn [expires data].
  apply Z.ltb_lt in Hfresh. rewrite Hfresh. reflexivity.
Qed.

Section WithHost.

Context `{Host}.

(** A call that went upstream and returned has stored its rows, whatever
    its parameters were. *)
Lemma returned_object_is_stored (reportCache : gmap string CacheEntry)
    (now stored : Z) (script : list IO) (report tenant : string)
    (params : Params) (rows : list JsVal) (next : JsVal) :
  outcome (fetchReport reportCache now script stored report tenant params)
  = Return (RowsNext rows next) ->
  cacheAfter (fetchReport reportCache now script stored report tenant params)
  = <[makeCacheKey report tenant params :=
        {| expires := stored + CACHE_TTL; data := rows |}]> reportCache
  /\ exists endpoint, lookupEndpoint report = Some endpoint.
Proof.
  intros Hret.
  destruct (fetchReport_object _ _ _ _ _ _ _ _ _ Hret)
    as (ep & st & evs & Hep & Hmiss & Hrun & Hpost & Hnext).
  split; [|exists ep; exact Hep].
  rewrite (fetchReport_miss _ _ _ _ _ _ ep _ Hep Hmiss), Hrun, Hpost.
  reflexivity.
Qed.

(** The response of the handler to a request that passes the checks. *)
Lemma getReport_valid (reportCache : gmap string CacheEntry) (now stored : Z)
    (script : list IO) (type tenant : string) (q : Query)
    (startDate endDate : option Z) :
  nonEmpty (account q) = Some tenant ->
  parseBound (start q) = Some startDate ->
  parseBound (end_ q) = Some endDate ->
  getReport reportCache now script stored type q
  = let run := fetchReport reportCache now script stored type tenant
                 (fetchParams q startDate endDate) in
    (respond (outcome run), cacheAfter run, events run).
Proof. intros Ha Hs He. unfold getReport. rewrite Ha, Hs, He. reflexivity. Qed.

(** A 200 response comes from a request that passed the checks and a
    call of [fetchReport] that returned. *)
Lemma getReport_ok (reportCache : gmap string CacheEntry) (now stored : Z)
    (script : list IO) (type : string) (q : Query) (resp : Response)
    (cache' : gmap string CacheEntry) (evs : list Event) :
  getReport reportCache now script stored type q = (Some resp, cache', evs) ->
  status resp = 200 ->
  exists tenant startDate endDate result processedData,
    nonEmpty (account q) = Some tenant
    /\ parseBound (start q) = Some startDate
    /\ parseBound (end_ q) = Some endDate
    /\ fetchReport reportCache now script stored type tenant
         (fetchParams q startDate endDate)
       = {| outcome := Return result; cacheAfter := cache'; events := evs |}
    /\ mapM processRow (resultRows result) = Ok processedData
    /\ body resp = JObj [("data", jarr processedData);
                         ("next", nextToken result)].
Proof.
  unfold getReport.
  destruct (nonEmpty (account q)) as [tenant|];
    [|intros [= <- _ _]; discriminate].
  destruct (parseBound (start q)) as [startDate|];
    [|intros [= <- _ _]; discriminate].
  destruct (parseBound (end_ q)) as [endDate|];
    [|intros [= <- _ _]; discriminate].
  destruct (fetchReport reportCache now script stored type tenant
              (fetchParams q startDate endDate)) as [o c e] eqn:Hrun.
  cbn [outcome cacheAfter events]. unfold respond.
  destruct o as [result|err|]; [| intros [= <- _ _]; discriminate | discriminate].
  destruct (mapM processRow (resultRows result)) as [processedData|err] eqn:Hm;
    [|intros [= <- _ _]; discriminate].
  intros [= <- <- <-] _.
  exists tenant, startDate, endDate, result, processedData.
  repeat split; try reflexivity; assumption.
Qed.

End WithHost.

(** C10: a call of [fetchReport] that finds a fresh cache entry returns
    the cached rows as a bare array, where a miss returns [{ rows, next }];
    hence, once a request has been answered from the upstream, the HTTP
    endpoint answers every repetition of it (same account and window, any
    limit and cursor) within the 5 minutes after the store with the same
    data and [next = null], whatever cursor the original fetch ended
    with, and without any upstream request. *)
Theorem cache_hit_bare_array `{Host} :
  (forall reportCache now script stored report endpoint tenant params rows,
     lookupEndpoint report = Some endpoint ->
     cacheLookup reportCache (makeCacheKey report tenant params) now
     = Some rows ->
     fetchReport reportCache now script stored report tenant params
     = {| outcome := Return (BareArray rows); cacheAfter := reportCache;
          events := [] |})
  /\ (forall reportCache now script stored type q resp cache' evs
             data next now' script' stored' q',
        getReport reportCache now script stored type q
        = (Some resp, cache', evs) ->
        evs <> [] ->
        status resp = 200 ->
        body resp = JObj [("data", data); ("next", next)] ->
        account q' = account q -> start q' = start q -> end_ q' = end_ q ->
        now' < stored + CACHE_TTL ->
        getReport cache' now' script' stored' type q'
        = (Some {| status := 200;
                   body := JObj [("data", data); ("next", JNull)] |},
           cache', [])).
Proof.
  split.
  - intros reportCache now script stored report endpoint tenant params rows.
    apply fetchReport_hit.
  - intros reportCache now script stored type q resp cache' evs data next now'
           script' stored' q' Hget Hevs Hst Hbody Ha Hs He Hfresh.
    destruct (getReport_ok _ _ _ _ _ _ _ _ _ Hget Hst)
      as (tenant & sd & ed & result & processed & Hten & Hsd & Hed & Hrun
          & Hproc & Hbody').
    rewrite Hbody in Hbody'. injection Hbody' as -> ->.
    destruct result as [rows|rows nxt].
    { pose proof (fetchReport_array reportCache now stored script type tenant
                    (fetchParams q sd ed) rows) as Hnone.
      rewrite Hrun in Hnone. cbn [outcome events] in Hnone.
      specialize (Hnone eq_refl). congruence. }
    cbn [resultRows nextToken] in *.
    assert (Hout : outcome (fetchReport reportCache now script stored type
                              tenant (fetchParams q sd ed))
                   = Return (RowsNext rows nxt)) by (rewrite Hrun; reflexivity).
    destruct (returned_object_is_stored _ _ _ _ _ _ _ _ _ Hout)
      as [Hstore [ep Hep]].
    rewrite Hrun in Hstore. cbn [cacheAfter] in Hstore.
    rewrite (getReport_valid cache' now' stored' script' type tenant q' sd ed)
      by congruence.
    rewrite (fetchReport_hit cache' now' stored' script' type tenant ep
               (fetchParams q' sd ed) rows Hep).
    + cbn [outcome cacheAfter events respond resultRows nextToken].
      rewrite Hproc. reflexivity.
    + rewrite Hstore.
      rewrite (key_ignores_cursor type tenant (fetchParams q' sd ed)
                 (fetchParams q sd ed) eq_refl eq_refl).
      apply lookup_after_store. exact Hfresh.
Qed.

(** C2, on the code: a first-page fetch stores its rows, and a fetch with
    a continuation cursor for the same window 1000 ms later is served
    those first-page rows from the cache, with no upstream request; on an
    empty cache the fetch with the cursor stores its own page under the
    key of the window, so that a first-page request is then answered with
    the rows of the later page. *)
Theorem cursor_fetch_uses_cache :
  let first := fetchReport (H := Sample.host) ∅ 0 [GetReturns rowsBody] 10
                 "cdrs" "acme" sampleParams in
  let second := fetchReport (H := Sample.host) (cacheAfter first) 1000
                  [GetReturns secondBody] 1010 "cdrs" "acme" cursorParams in
  let cold := fetchReport (H := Sample.host) ∅ 0 [GetReturns secondBody] 10
                "cdrs" "acme" cursorParams in
  let again := fetchReport (H := Sample.host) (cacheAfter cold) 1000
                 [GetReturns rowsBody] 1010 "cdrs" "acme" sampleParams in
  makeCacheKey "cdrs" "acme" cursorParams = makeCacheKey "cdrs" "acme" sampleParams
  /\ outcome first = Return (RowsNext [processed "a"; processed "b"] (JStr "k2"))
  /\ outcome second = Return (BareArray [processed "a"; processed "b"])
  /\ events second = []
  /\ outcome cold = Return (RowsNext [processed "d"] JNull)
  /\ events cold = [EvToken "acme";
                    EvGet "/api/v2/reports/cdrs" cursorParams (JStr "k2")]
  /\ outcome again = Return (BareArray [processed "d"])
  /\ events again = [].
Proof. vm_compute. repeat split; reflexivity. Qed.

(** The part of C2 that holds: whatever the cursor and the limit, a call
    for a window whose entry is fresh returns the stored rows and issues
    no upstream request. *)
Lemma repeat_within_ttl `{Host} (reportCache : gmap string CacheEntry)
    (now stored now' stored' : Z) (script script' : list IO)
    (report tenant : string) (params params' : Params)
    (rows : list JsVal) (next : JsVal) :
  outcome (fetchReport reportCache now script stored report tenant params)
  = Return (RowsNext rows next) ->
  startDate params' = startDate params -> endDate params' = endDate params ->
  now' < stored + CACHE_TTL ->
  let cache' := cacheAfter (fetchReport reportCache now script stored report
                              tenant params) in
  fetchReport cache' now' script' stored' report tenant params'
  = {| outcome := Return (BareArray rows); cacheAfter := cache'; events := [] |}.
Proof.
  intros Hret Hs He Hfresh cache'.
  destruct (returned_object_is_stored _ _ _ _ _ _ _ _ _ Hret) as [Hstore [ep Hep]].
  apply (fetchReport_hit cache' now' stored' script' report tenant ep params'
           rows Hep).
  subst cache'. rewrite Hstore.
  rewrite (key_ignores_cursor report tenant params' params Hs He).
  apply lookup_after_store. exact Hfresh.
Qed.

Lemma cache_hit_bare_array_witness :
  getReport (H := Sample.host) ∅ 0 [GetReturns rowsBody] 10 "cdrs" firstQuery
  = (Some firstResponse, warmCache,
     [EvToken "acme";
      EvGet "/api/v2/reports/cdrs" (fetchParams firstQuery None None) JUndef])
  /\ getReport (H := Sample.host) warmCache 1000 [] 2000 "cdrs" cursorQuery
     = (Some {| status := 200;
                body := JObj [("data", jarr [served "a"; served "b";
                                             served "c"]);
                              ("next", JNull)] |},
        warmCache, []).
Proof.
  assert (Hfirst :
    getReport (H := Sample.host) ∅ 0 [GetReturns rowsBody] 10 "cdrs" firstQuery
    = (Some firstResponse, warmCache,
       [EvToken "acme";
        EvGet "/api/v2/reports/cdrs" (fetchParams firstQuery None None) JUndef]))
    by (vm_compute; reflexivity).
  split; [exact Hfirst|].
  apply (proj2 (cache_hit_bare_array (H := Sample.host))
           ∅ 0 [GetReturns rowsBody] 10 "cdrs" firstQuery firstResponse
           warmCache _ (jarr [served "a"; served "b"; served "c"])
           (JStr "k2") 1000 [] 2000 cursorQuery Hfirst).
  - discriminate.
  - reflexivity.
  - reflexivity.
  - reflexivity.
  - reflexivity.
  - reflexivity.
  - vm_compute. reflexivity.
Defined.

End CacheFacts.

(** ** Post-processing of inbound-queue rows *)

Module PostFacts.

Import ReportFetcher ResFacts RowTerms Sample.

Lemma sameValueZero_eq (a b : JsVal) : sameValueZero a b = true -> a = b.
Proof.
  destruct a, b; cbn [sameValueZero]; try discriminate; try reflexivity.
  - intros Hb. apply Bool.eqb_prop in Hb. congruence.
  - intros Hn. apply Z.eqb_eq in Hn. congruence.
  - intros Hs. apply String.eqb_eq in Hs. congruence.
Qed.

Lemma sameValueZero_sym (a b : JsVal) : sameValueZero a b = sameValueZero b a.
Proof.
  destruct a, b; cbn [sameValueZero]; try reflexivity.
  - destruct b, b0; reflexivity.
  - apply Z.eqb_sym.
  - apply String.eqb_sym.
Qed.

Lemma assoc_assocSet_ne (k k' : string) (v : JsVal) (l : list (string * JsVal)) :
  k <> k' -> assoc k' (assocSet k v l) = assoc k' l.
Proof.
  intros Hne. induction l as [|[k0 v0] l IH]; cbn [assocSet assoc].
  - replace (String.eqb k' k) with false
      by (symmetry; apply String.eqb_neq; congruence).
    reflexivity.
  - destruct (String.eqb k k0) eqn:Hk; cbn [assoc].
    + apply String.eqb_eq in Hk. subst k0.
      replace (String.eqb k' k) with false
        by (symmetry; apply String.eqb_neq; congruence).
      reflexivity.
    + rewrite IH. reflexivity.
Qed.

Lemma assoc_assocSet_eq (k : string) (v : JsVal) (l : list (string * JsVal)) :
  assoc k (assocSet k v l) = Some v.
Proof.
  induction l as [|[k0 v0] l IH]; cbn [assocSet assoc].
  - rewrite String.eqb_refl. reflexivity.
  - destruct (String.eqb k k0) eqn:Hk; cbn [assoc].
    + rewrite String.eqb_refl. reflexivity.
    + rewrite Hk. exact IH.
Qed.

(** An assignment to one property leaves the others as they were. *)
Lemma set_other (r r' : JsVal) (k k' : string) (v : JsVal) :
  set r k v = Ok r' -> k <> k' -> getOpt r' k' = getOpt r k'.
Proof.
  destruct r; cbn [set]; try discriminate; intros [= <-] Hne; cbn [getOpt];
    rewrite assoc_assocSet_ne by assumption; reflexivity.
Qed.

Lemma set_same (r r' : JsVal) (k : string) (v : JsVal) :
  set r k v = Ok r' -> getOpt r' k = v.
Proof.
  destruct r; cbn [set]; try discriminate; intros [= <-]; cbn [getOpt];
    rewrite assoc_assocSet_eq; reflexivity.
Qed.

(** *** The first row of every call *)

Lemma firstRowsFrom_first (c : JsVal) (out : list JsVal) :
  truthy c = true ->
  forall seen fr : list JsVal,
  firstRowsFrom seen out = Ok fr ->
  List.filter (hasId c) fr
  = if existsb (sameValueZero c) seen then []
    else take 1 (List.filter (hasId c) out).
Proof.
  intros Hc. induction out as [|r out IH]; intros seen fr;
    cbn [firstRowsFrom bind].
  - intros [= <-]. destruct (existsb _ seen); reflexivity.
  - unfold get. destruct (isNullish r) eqn:Hr; cbn [bind]; [discriminate|].
    fold (callId r).
    assert (Hsame : hasId c r = true -> callId r = c)
      by (apply sameValueZero_eq).
    destruct (truthy (callId r)) eqn:Hid; cbn [negb].
    + destruct (existsb (sameValueZero (callId r)) seen) eqn:Hseen.
      * intros Hfr. rewrite (IH seen fr Hfr). cbn [List.filter].
        destruct (hasId c r) eqn:Hh; [|reflexivity].
        rewrite <- (Hsame eq_refl), Hseen. reflexivity.
      * destruct (firstRowsFrom (callId r :: seen) out) as [rs|e] eqn:Hrs;
          cbn [bind]; [|discriminate].
        intros [= <-]. cbn [List.filter]. rewrite (IH _ rs Hrs).
        cbn [existsb]. rewrite (sameValueZero_sym c (callId r)).
        fold (hasId c r).
        destruct (hasId c r) eqn:Hh; cbn [orb]; [|reflexivity].
        rewrite <- (Hsame eq_refl), Hseen. reflexivity.
    + destruct (firstRowsFrom seen out) as [rs|e] eqn:Hrs; cbn [bind];
        [|discriminate].
      intros [= <-]. cbn [List.filter].
      destruct (hasId c r) eqn:Hh.
      * rewrite (Hsame eq_refl) in Hid. congruence.
      * apply IH. exact Hrs.
Qed.

Section WithHost.

Context `{Host}.

Lemma addExtension_callId (report : string) (r r' : JsVal) :
  addExtension report r = Ok r' -> callId r' = callId r.
Proof.
  unfold addExtension. intros Hb. apply bind_ok in Hb as (ext & _ & Hset).
  apply (set_other _ _ _ "call_id" _ Hset). discriminate.
Qed.

Lemma addCountry_callId (report : string) (r r' : JsVal) :
  addCountry report r = Ok r' -> callId r' = callId r.
Proof.
  unfold addCountry. intros Hb. apply bind_ok in Hb as (ext & _ & Hset).
  apply (set_other _ _ _ "call_id" _ Hset). discriminate.
Qed.

Lemma deriveDurations_callId (r r' : JsVal) :
  deriveDurations r = Ok r' -> callId r' = callId r.
Proof.
  unfold deriveDurations. intros Hb.
  apply bind_ok in Hb as (td & _ & Hb).
  apply bind_ok in Hb as (r1 & H1 & Hb).
  assert (E1 : callId r1 = callId r).
  { destruct (negb (truthy td) && truthy (getOpt r "hangup_time")
              && truthy (getOpt r "answered_time")).
    - apply (set_other _ _ _ "call_id" _ H1). discriminate.
    - injection H1 as <-. reflexivity. }
  rewrite <- E1.
  destruct (negb (truthy (getOpt r1 "wait_duration"))
            && truthy (getOpt r "called_time"));
    [|injection Hb as <-; reflexivity].
  destruct (truthy (getOpt r "answered_time")).
  - apply (set_other _ _ _ "call_id" _ Hb). discriminate.
  - destruct (truthy (getOpt r "hangup_time")).
    + apply (set_other _ _ _ "call_id" _ Hb). discriminate.
    + injection Hb as <-. reflexivity.
Qed.

Lemma deriveAbandoned_callId (r r' : JsVal) :
  deriveAbandoned r = Ok r' -> callId r' = callId r.
Proof.
  unfold deriveAbandoned. intros Hb. apply bind_ok in Hb as (a & _ & Hset).
  apply (set_other _ _ _ "call_id" _ Hset). discriminate.
Qed.

Lemma take_one_length {A} (p : A -> bool) (l : list A) :
  length (take 1 (List.filter p l)) = if existsb p l then 1%nat else 0%nat.
Proof.
  induction l as [|x l IH]; [reflexivity|].
  cbn [List.filter existsb]. destruct (p x); cbn [orb]; [reflexivity|exact IH].
Qed.

Lemma postProcess_queueCalls (out rows : list JsVal) :
  postProcess "queueCalls" out = Ok rows ->
  exists o3 firstRows,
    mapM (fun r => bind (bind (addExtension "queueCalls" r)
                              (addCountry "queueCalls")) deriveDurations) out
    = Ok o3
    /\ firstRowsFrom [] o3 = Ok firstRows
    /\ mapM deriveAbandoned firstRows = Ok rows.
Proof.
  unfold postProcess. cbn [isQueue String.eqb Ascii.eqb Bool.eqb orb].
  intros Hb.
  apply bind_ok in Hb as (o1 & H1 & Hb).
  apply bind_ok in Hb as (o2 & H2 & Hb).
  apply bind_ok in Hb as (o3 & H3 & Hb).
  apply bind_ok in Hb as (fr & Hfr & Hrows).
  exists o3, fr. repeat split; try assumption.
  apply (mapM_compose _ _ _ o2 o3); [|exact H3].
  apply (mapM_compose _ _ _ o1 o2); assumption.
Qed.

End WithHost.

(** C8: in every inbound-queue fetch result, the rows that carry a given
    non-empty call identifier are exactly the first fetched row with that
    identifier, as fetchReport processes a row it keeps; so N >= 1 fetched
    rows sharing the identifier give exactly 1 record. *)
Theorem inbound_first_leg_kept `{Host} (reportCache : gmap string CacheEntry)
    (now stored : Z) (script : list IO) (tenant : string) (params : Params)
    (rows : list JsVal) (next : JsVal) (c : JsVal) :
  outcome (fetchReport reportCache now script stored "queueCalls" tenant params)
  = Return (RowsNext rows next) ->
  truthy c = true ->
  exists st evs,
    fetchLoop "/api/v2/reports/queues_cdrs" tenant params script loopInit
    = (Done st, evs)
    /\ mapM processLeg (take 1 (List.filter (hasId c) (out st)))
       = Ok (List.filter (hasId c) rows)
    /\ length (List.filter (hasId c) rows)
       = (if existsb (hasId c) (out st) then 1 else 0)%nat.
Proof.
  intros Hret Hc.
  apply FetchFacts.fetchReport_object in Hret
    as (ep & st & evs & Hep & _ & Hrun & Hpost & _).
  injection Hep as <-. exists st, evs. split; [exact Hrun|].
  apply postProcess_queueCalls in Hpost as (o3 & fr & Hprep & Hfr & Hrows).
  assert (Hkeep : mapM processLeg (take 1 (List.filter (hasId c) (out st)))
                  = Ok (List.filter (hasId c) rows)).
  { unfold processLeg.
    apply (mapM_compose _ _ _ (take 1 (List.filter (hasId c) o3))).
    - apply mapM_take. apply (mapM_filter _ (hasId c) (hasId c)); [|exact Hprep].
      intros x y Hxy. unfold hasId. f_equal.
      apply bind_ok in Hxy as (x2 & Hxy & H3).
      apply bind_ok in Hxy as (x1 & H1 & H2).
      rewrite (deriveDurations_callId _ _ H3), (addCountry_callId _ _ _ H2).
      apply (addExtension_callId _ _ _ H1).
    - pose proof (firstRowsFrom_first c o3 Hc [] fr Hfr) as Hfirst.
      cbn [existsb] in Hfirst. rewrite <- Hfirst.
      apply (mapM_filter _ (hasId c) (hasId c)); [|exact Hrows].
      intros x y Hxy. unfold hasId. f_equal.
      apply (deriveAbandoned_callId _ _ Hxy). }
  split; [exact Hkeep|].
  apply mapM_length in Hkeep. rewrite Hkeep. apply take_one_length.
Qed.

Lemma inbound_first_leg_kept_witness :
  exists rows,
    outcome (fetchReport (H := Sample.host) ∅ 0 [GetReturns legsBody] 10
               "queueCalls" "acme" browserParams)
    = Return (RowsNext rows JNull)
    /\ List.filter (hasId (JStr "x"))
         [leg "x" "101"; leg "y" "102"; leg "x" "103"; leg "x" "104"]
       = [leg "x" "101"; leg "x" "103"; leg "x" "104"]
    /\ mapM (processLeg (H := Sample.host)) [leg "x" "101"]
       = Ok (List.filter (hasId (JStr "x")) rows)
    /\ List.filter (hasId (JStr "x")) rows = [firstLeg]
    /\ length (List.filter (hasId (JStr "x")) rows) = 1%nat.
Proof.
  eexists _.
  assert (Hret : outcome (fetchReport (H := Sample.host) ∅ 0
                            [GetReturns legsBody] 10 "queueCalls" "acme"
                            browserParams)
                 = Return (RowsNext _ JNull)) by (vm_compute; reflexivity).
  destruct (inbound_first_leg_kept (H := Sample.host) ∅ 0 10
              [GetReturns legsBody] "acme" browserParams _ JNull
              (JStr "x") Hret eq_refl) as (st & evs & Hrun & Hkeep & Hlen).
  vm_compute in Hrun. injection Hrun as <- _.
  split; [exact Hret|]. split; [reflexivity|]. split; [exact Hkeep|].
  split; [reflexivity | exact Hlen].
Defined.

End PostFacts.

(** ** The abandonment flag *)


Module AbandonedFacts.

Import ReportFetcher Script ResFacts RowTerms AbandonedRule Sample PostFacts.

Lemma noAnswer_rule (h : JsVal) :
  noAnswer h = if badAction h then Throw TypeError else Ok (lacksBoth h).
Proof.
  unfold noAnswer, badAction, lacksBoth, hasAnswerTime, hasTransferAction.
  destruct (truthy (getOpt h "answered_time")); [reflexivity|].
  destruct (getOpt h "agent_action"); reflexivity.
Qed.

Lemma everyM_rule (l : list JsVal) :
  everyM noAnswer l
  = if reachesBadAction l then Throw TypeError else Ok (forallb lacksBoth l).
Proof.
  induction l as [|h l IH]; [reflexivity|].
  cbn [everyM forallb reachesBadAction]. rewrite (noAnswer_rule h).
  destruct (badAction h); [reflexivity|]. cbn [orb].
  destruct (lacksBoth h); [exact IH | reflexivity].
Qed.

Lemma emptyObject_lacks (h : JsVal) :
  emptyObject h = true -> lacksBoth h = true.
Proof.
  unfold emptyObject, lacksBoth, hasAnswerTime, hasTransferAction.
  destruct h as [| |b|n| |s|l ps|fs]; cbn; try discriminate; try reflexivity.
  - destruct l, ps; cbn; try discriminate; reflexivity.
  - destruct fs; cbn; [reflexivity | discriminate].
Qed.

Lemma isEmptyObject_lacks (h : JsVal) :
  isEmptyObject h = true -> lacksBoth h = true.
Proof. destruct h as [| |b|n| |s|l ps|[|f fs]]; try discriminate. reflexivity. Qed.

Lemma forallb_lacks (p : JsVal -> bool) (l : list JsVal) :
  (forall h, p h = true -> lacksBoth h = true) ->
  forallb lacksBoth l = false -> forallb p l = false.
Proof.
  intros Hp. induction l as [|h l IH]; [discriminate|]. cbn [forallb].
  destruct (p h) eqn:Hh; [|reflexivity]. rewrite (Hp h Hh). exact IH.
Qed.

(** The flag of [fetchReport] is the rule, wherever it can be derived. *)
Lemma isAbandoned_rule (r : JsVal) :
  isNullish r = false ->
  isAbandoned r
  = if stuck (getOpt r "agent_history") then Throw TypeError
    else Ok (abandoned r).
Proof.
  intros Hr. unfold isAbandoned, abandoned, get. rewrite Hr. cbn [bind].
  destruct (getOpt r "agent_history") as [| |b|n| |s|l ps|fs] eqn:Hh;
    try reflexivity.
  unfold histNoAnswer, histMissing, historyMissing, everyEntryLacksBoth, stuck.
  cbn [isNullish orb].
  destruct l as [|h l]; [reflexivity|].
  rewrite (everyM_rule (h :: l)).
  destruct (reachesBadAction (h :: l)); [reflexivity|]. cbn [bind length Nat.eqb].
  f_equal. destruct (forallb lacksBoth (h :: l)) eqn:Hall.
  - rewrite !orb_true_r. reflexivity.
  - rewrite (forallb_lacks emptyObject _ emptyObject_lacks Hall),
      (forallb_lacks isEmptyObject _ isEmptyObject_lacks Hall).
    reflexivity.
Qed.

Lemma connected_is_no `{Host} (flags : bool * bool) (l : list JsVal)
    (f : bool * bool) :
  fst flags = true -> scanHistory flags l = Ok f -> fst f = true.
Proof.
  revert flags. induction l as [|h l IH]; intros flags Hc; cbn [scanHistory bind].
  - intros [= <-]. exact Hc.
  - destruct (scanEntry flags h) as [f1|e] eqn:H1; cbn [bind]; [|discriminate].
    apply IH. unfold scanEntry in H1.
    apply bind_ok in H1 as (c & _ & H1). apply bind_ok in H1 as (ev & _ & H1).
    injection H1 as <-. cbn [fst]. rewrite Hc. reflexivity.
Qed.

Lemma toString_prim `{Host} (v : JsVal) :
  isPrim v = true -> exists s, toString v = Ok s.
Proof. destruct v; cbn; try discriminate; eauto. Qed.

(** C3, as the code has it: on an inbound-queue row (an object)
    fetchReport sets [abandoned] to "YES" exactly when the agent-history
    is missing, or is an array that is empty, all empty objects, or whose
    entries all lack both an answer time and a transfer action, or
    [answered_time] is falsy, and to "NO" otherwise, leaving the other
    properties as they are; it derives no flag and throws a TypeError
    when the row is not an object, or when the check of the entries
    reaches an entry without answer time whose [agent_action] is neither
    missing nor a text nor an array.  A row with an empty agent-history
    gets "YES" there and in the browser's [computeAbandoned]; a row whose
    agent-history (parsed, if it is JSON text) is one entry with a truthy
    [connected] gets "NO" in [computeAbandoned], the flag of the Abandoned
    column, unless taking the text of the entry's [event] throws. *)
Theorem abandoned_derivation `{Host} (r : JsVal) :
  (isPrim r = false -> stuck (getOpt r "agent_history") = false ->
   exists r',
     deriveAbandoned r = Ok r'
     /\ getOpt r' "abandoned" = JStr (if abandoned r then "YES" else "NO")
     /\ forall k, k <> "abandoned" -> getOpt r' k = getOpt r k)
  /\ (isPrim r = true \/ stuck (getOpt r "agent_history") = true ->
      deriveAbandoned r = Throw TypeError)
  /\ (forall ps,
        getOpt r "agent_history" = JArr [] ps ->
        (exists r', deriveAbandoned r = Ok r'
                    /\ getOpt r' "abandoned" = JStr "YES")
        /\ computeAbandoned r = Ok "YES")
  /\ (forall h ps,
        parsedHistory r = JArr [h] ps ->
        truthy (getOpt h "connected") = true ->
        computeAbandoned r
        = match toString (or (getOpt h "event") (JStr "")) with
          | Ok _ => Ok "NO"
          | Throw e => Throw e
          end).
Proof.
  assert (Hobj : isPrim r = false -> stuck (getOpt r "agent_history") = false ->
    exists r',
      deriveAbandoned r = Ok r'
      /\ getOpt r' "abandoned" = JStr (if abandoned r then "YES" else "NO")
      /\ forall k, k <> "abandoned" -> getOpt r' k = getOpt r k).
  { intros Hr Hs. unfold deriveAbandoned.
    rewrite isAbandoned_rule by (destruct r; try discriminate; reflexivity).
    rewrite Hs. cbn [bind].
    destruct (set r "abandoned" (yesNo (abandoned r))) as [r'|e] eqn:Hset;
      [|destruct r; discriminate].
    exists r'. split; [reflexivity|]. split.
    - apply (set_same _ _ _ _ Hset).
    - intros k Hk. apply (set_other _ _ _ _ _ Hset). congruence. }
  split; [exact Hobj|]. split; [|split].
  - intros [Hr|Hs]; unfold deriveAbandoned.
    + destruct (isNullish r) eqn:Hn.
      * unfold isAbandoned, get. rewrite Hn. reflexivity.
      * rewrite (isAbandoned_rule r Hn).
        replace (getOpt r "agent_history") with JUndef
          by (destruct r; try discriminate; reflexivity).
        cbn [stuck bind]. destruct r; try discriminate; reflexivity.
    + assert (Hn : isNullish r = false)
        by (destruct r; try reflexivity; discriminate).
      rewrite (isAbandoned_rule r Hn), Hs. reflexivity.
  - intros ps Hh.
    assert (Hr : isPrim r = false)
      by (destruct r; try reflexivity; discriminate).
    split.
    + destruct (Hobj Hr) as (r' & Hd & Hflag & _); [rewrite Hh; reflexivity|].
      exists r'. split; [exact Hd|]. rewrite Hflag.
      unfold abandoned. rewrite Hh. reflexivity.
    + unfold computeAbandoned, parsedHistory, get.
      replace (isNullish r) with false
        by (destruct r; try reflexivity; discriminate).
      cbn [bind]. rewrite Hh. reflexivity.
  - intros h ps Hh Hc.
    unfold computeAbandoned, get.
    replace (isNullish r) with false
      by (unfold parsedHistory in Hh; destruct r; try reflexivity;
          discriminate).
    cbn [bind]. rewrite Hh. cbn [scanHistory]. unfold scanEntry, get.
    replace (isNullish h) with false
      by (destruct h; try reflexivity; discriminate).
    cbn [bind]. destruct (toString (or (getOpt h "event") (JStr "")));
      cbn [bind fst snd]; [|reflexivity].
    rewrite Hc. reflexivity.
Qed.

Lemma abandoned_derivation_witness :
  (exists r', deriveAbandoned connectedCall = Ok r'
              /\ getOpt r' "abandoned"
                 = JStr (if abandoned connectedCall then "YES" else "NO"))
  /\ abandoned connectedCall = true
  /\ stuck (getOpt oddRow "agent_history") = true
  /\ deriveAbandoned oddRow = Throw TypeError
  /\ computeAbandoned (H := Sample.host) connectedCall = Ok "NO".
Proof.
  destruct (abandoned_derivation (H := Sample.host) connectedCall)
    as (Hflag & _ & _ & Hno).
  destruct (abandoned_derivation (H := Sample.host) oddRow)
    as (_ & Hthrow & _ & _).
  split.
  - destruct (Hflag eq_refl eq_refl) as (r' & Hd & Hf & _). eauto.
  - split; [reflexivity|]. split; [reflexivity|].
    split; [apply Hthrow; right; reflexivity|].
    apply (Hno connectedEntry []); reflexivity.
Defined.

(** The claim does not hold as stated: for the answered call with one
    connected leg fetchReport derives "YES", because the leg has neither
    an [answered_time] nor a transfer action; and the browser's flag does
    not follow the rule, since for the unanswered call with a "*7" leg
    the rule gives "YES" and [computeAbandoned] gives "NO". *)
Lemma abandoned_counterexample :
  getOpt connectedCall "agent_history" = jarr [connectedEntry]
  /\ getOpt connectedEntry "connected" = JBool true
  /\ deriveAbandoned connectedCall
     = Ok (JObj [("call_id", JStr "x"); ("answered_time", JNum 1700000005);
                 ("agent_history", jarr [connectedEntry]);
                 ("abandoned", JStr "YES")])
  /\ truthy (getOpt star7Call "answered_time") = false
  /\ computeAbandoned (H := Sample.host) star7Call = Ok "NO".
Proof. repeat split; reflexivity. Qed.

End AbandonedFacts.

(** ** The merge engine *)

Module RevealFacts.

Import Script EngineTerms.

Lemma ids_app (l l' : list Row) : ids (l ++ l') = ids l ++ ids l'.
Proof.
  induction l as [|r l IH]; [reflexivity|]. cbn [app ids].
  destruct (truthy (Call_ID r) && isPrim (Call_ID r)); cbn [app];
    rewrite IH; reflexivity.
Qed.

Lemma ids_perm (l l' : list Row) : Permutation l l' -> Permutation (ids l) (ids l').
Proof.
  induction 1 as [|x l l' _ IH|x y l|l l' l'' _ IH1 _ IH2]; cbn [ids].
  - constructor.
  - destruct (truthy (Call_ID x) && isPrim (Call_ID x));
      [constructor|]; exact IH.
  - destruct (truthy (Call_ID x) && isPrim (Call_ID x)),
             (truthy (Call_ID y) && isPrim (Call_ID y));
      try reflexivity. constructor.
  - etransitivity; eassumption.
Qed.

Lemma sameValueZero_refl (v : JsVal) : isPrim v = true -> sameValueZero v v = true.
Proof.
  destruct v; cbn; try discriminate; intros _; try reflexivity.
  - destruct b; reflexivity.
  - apply Z.eqb_refl.
  - apply String.eqb_refl.
Qed.

(** [dedupFrom] keeps no identifier twice, and none of [seen]. *)
Lemma dedupFrom_ids (l : list Row) :
  forall seen : list JsVal,
  NoDup (ids (dedupFrom seen l))
  /\ forall x, x ∈ ids (dedupFrom seen l) ->
               existsb (sameValueZero x) seen = false.
Proof.
  induction l as [|r l IH]; intros seen; cbn [dedupFrom].
  - split; [constructor | intros x Hx; inversion Hx].
  - destruct (truthy (Call_ID r)) eqn:Ht; cbn [negb].
    + destruct (existsb (sameValueZero (Call_ID r)) seen) eqn:Hseen.
      * apply IH.
      * destruct (IH (Call_ID r :: seen)) as [Hnd Hnot].
        cbn [ids]. rewrite Ht. cbn [andb].
        destruct (isPrim (Call_ID r)) eqn:Hp.
        -- split.
           ++ constructor; [|exact Hnd].
              intros Hin. specialize (Hnot _ Hin). cbn [existsb] in Hnot.
              rewrite (sameValueZero_refl _ Hp) in Hnot. discriminate.
           ++ intros x Hx. apply elem_of_cons in Hx as [->|Hin];
                [exact Hseen|].
              specialize (Hnot _ Hin). cbn [existsb] in Hnot.
              apply orb_false_elim in Hnot as [_ Hnot]. exact Hnot.
        -- split; [exact Hnd|].
           intros x Hin. specialize (Hnot _ Hin). cbn [existsb] in Hnot.
           apply orb_false_elim in Hnot as [_ Hnot]. exact Hnot.
    + cbn [ids]. rewrite Ht. cbn [andb]. apply IH.
Qed.

Lemma dedupRecords_nodup (l : list Row) : NoDup (ids (dedupRecords l)).
Proof. apply dedupFrom_ids. Qed.

(** [dedupRecords] drops no record without identifier. *)
Lemma withoutId_dedupFrom (l : list Row) :
  forall seen : list JsVal, withoutId (dedupFrom seen l) = withoutId l.
Proof.
  induction l as [|r l IH]; intros seen; [reflexivity|].
  cbn [dedupFrom]. unfold withoutId in *.
  destruct (truthy (Call_ID r)) eqn:Ht; cbn [negb].
  - destruct (existsb (sameValueZero (Call_ID r)) seen);
      cbn [List.filter]; rewrite Ht; cbn [negb]; apply IH.
  - cbn [List.filter]. rewrite Ht. cbn [negb]. f_equal. apply IH.
Qed.

Lemma withoutId_app (l l' : list Row) :
  withoutId (l ++ l') = withoutId l ++ withoutId l'.
Proof. apply List.filter_app. Qed.

Lemma withoutId_perm (l l' : list Row) :
  Permutation l l' -> Permutation (withoutId l) (withoutId l').
Proof.
  unfold withoutId.
  induction 1 as [|x l l' _ IH|x y l|l l' l'' _ IH1 _ IH2]; cbn [List.filter].
  - constructor.
  - destruct (negb (truthy (Call_ID x))); [constructor|]; exact IH.
  - destruct (negb (truthy (Call_ID x))), (negb (truthy (Call_ID y)));
      try reflexivity. constructor.
  - etransitivity; eassumption.
Qed.

Lemma waiting_take (b : Per (list Row)) (k : Source) (r : Row)
    (tl : list Row) :
  pget b k = r :: tl ->
  Permutation (waiting b) (r :: waiting (pset b k (tail (pget b k)))).
Proof.
  destruct b as [bi bo bc bd], k; cbn [pget p_in p_out p_camp p_cdr];
    intros ->; unfold waiting; cbn [pset p_in p_out p_camp p_cdr tail app].
  - reflexivity.
  - symmetry. apply Permutation_cons_app. reflexivity.
  - symmetry. rewrite (app_assoc bi bo (r :: tl ++ bd)).
    apply (Permutation_cons_app (bi ++ bo)). rewrite app_assoc. reflexivity.
  - symmetry. rewrite (app_assoc bo bc (r :: tl)),
      (app_assoc bi (bo ++ bc) (r :: tl)).
    apply (Permutation_cons_app (bi ++ bo ++ bc)).
    rewrite <- !app_assoc. reflexivity.
Qed.

Section WithHost.

Context `{Host}.

Lemma insertDesc_perm (x : Row) (l : list Row) :
  Permutation (insertDesc x l) (x :: l).
Proof.
  induction l as [|y l IH]; cbn [insertDesc]; [reflexivity|].
  destruct (toEpoch x <? toEpoch y); [|reflexivity].
  rewrite IH. apply perm_swap.
Qed.

Lemma sortDesc_perm (l : list Row) : Permutation (sortDesc l) l.
Proof.
  induction l as [|x l IH]; [reflexivity|].
  unfold sortDesc in *. cbn [foldr]. rewrite insertDesc_perm, IH. reflexivity.
Qed.

Lemma insertDesc_sorted (x : Row) (l : list Row) :
  StronglySorted notEarlier l -> StronglySorted notEarlier (insertDesc x l).
Proof.
  induction 1 as [|y l Hs IH Hall]; cbn [insertDesc].
  - repeat constructor.
  - destruct (toEpoch x <? toEpoch y) eqn:Hlt.
    + apply Z.ltb_lt in Hlt. constructor; [exact IH|].
      rewrite insertDesc_perm. constructor; [unfold notEarlier; lia | exact Hall].
    + apply Z.ltb_ge in Hlt. constructor.
      * constructor; assumption.
      * constructor; [exact Hlt|].
        eapply Forall_impl; [exact Hall|].
        unfold notEarlier. intros z Hz. lia.
Qed.

Lemma sortDesc_sorted (l : list Row) : StronglySorted notEarlier (sortDesc l).
Proof.
  induction l as [|x l IH]; [constructor|].
  unfold sortDesc in *. cbn [foldr]. apply insertDesc_sorted. exact IH.
Qed.

(** Sorted, index by index. *)
Lemma sorted_adjacent (l : list Row) :
  StronglySorted notEarlier l ->
  forall (i : nat) (a b : Row),
  l !! i = Some a -> l !! S i = Some b -> toEpoch a >= toEpoch b.
Proof.
  induction 1 as [|x l Hs IH Hall]; intros i a b Ha Hb; [discriminate|].
  destruct i as [|i]; cbn in Ha, Hb.
  - injection Ha as <-. destruct l as [|y l]; [discriminate|].
    cbn in Hb. injection Hb as <-.
    apply Forall_inv in Hall. unfold notEarlier in Hall. lia.
  - eapply IH; eassumption.
Qed.

(** *** The reveal loop *)

Lemma pick_some (b : Per (list Row)) (k : Source) (r : Row) :
  pick b = Some (k, r) -> exists tl, pget b k = r :: tl.
Proof.
  destruct b as [bi bo bc bd]. unfold pick, sources.
  cbn [fold_left pget p_in p_out p_camp p_cdr].
  destruct bi as [|ri bi], bo as [|ro bo], bc as [|rc bc], bd as [|rd bd];
    repeat match goal with
           | |- context [if ?c then _ else _] => destruct c
           end;
    intros [= <- <-]; cbn [pget p_in p_out p_camp p_cdr]; eauto.
Qed.

Lemma buffered_tail (b : Per (list Row)) (k : Source) (r : Row) (tl : list Row) :
  pget b k = r :: tl ->
  buffered (pset b k (tail (pget b k))) = pred (buffered b).
Proof.
  destruct b as [bi bo bc bd], k; cbn [pget p_in p_out p_camp p_cdr];
    intros ->; unfold buffered; cbn [pset p_in p_out p_camp p_cdr tail length];
    lia.
Qed.

Lemma buffered_pos (b : Per (list Row)) (k : Source) (r : Row) (tl : list Row) :
  pget b k = r :: tl -> (0 < buffered b)%nat.
Proof.
  destruct b as [bi bo bc bd], k; cbn [pget p_in p_out p_camp p_cdr];
    intros ->; unfold buffered; cbn [p_in p_out p_camp p_cdr length]; lia.
Qed.

(** With fuel for every buffered record the loop ends; it changes the
    buffers and the revealed records only, and keeps the revealed
    identifiers distinct. *)
Lemma revealLoop_spec (fuel : nat) (startLen : nat) :
  forall st : State,
  (buffered (buffers st) <= fuel)%nat ->
  exists st',
    revealLoop fuel startLen st = Some st'
    /\ nextTokens st' = nextTokens st
    /\ baseQuery st' = baseQuery st
    /\ (NoDup (ids (lastRecords st)) -> NoDup (ids (lastRecords st'))).
Proof.
  induction fuel as [|fuel IH]; intros st Hfuel.
  - cbn [revealLoop].
    destruct (PAGE_SIZE <=? _); [exists st; repeat split; auto|].
    destruct (pick (buffers st)) as [[k r]|] eqn:Hpick;
      [|exists st; repeat split; auto].
    apply pick_some in Hpick as [tl Hk]. apply buffered_pos in Hk. lia.
  - cbn [revealLoop].
    destruct (PAGE_SIZE <=? _); [exists st; repeat split; auto|].
    destruct (pick (buffers st)) as [[k r]|] eqn:Hpick;
      [|exists st; repeat split; auto].
    apply pick_some in Hpick as [tl Hk].
    pose proof (buffered_tail _ _ _ _ Hk) as Hdec.
    pose proof (buffered_pos _ _ _ _ Hk) as Hpos.
    match goal with
    | |- context [revealLoop fuel startLen ?s] =>
        destruct (IH s) as (st' & Hrun & Ht & Hq & Hnd)
    end.
    + cbn [buffers]. lia.
    + exists st'. cbn [nextTokens baseQuery lastRecords] in *.
      repeat split; try assumption.
      intros _. apply Hnd. apply dedupRecords_nodup.
Qed.

Lemma revealNextBatch_spec (st : State) :
  exists st',
    revealNextBatch st = Some st'
    /\ nextTokens st' = nextTokens st
    /\ baseQuery st' = baseQuery st
    /\ StronglySorted notEarlier (lastRecords st')
    /\ (NoDup (ids (lastRecords st)) -> NoDup (ids (lastRecords st'))).
Proof.
  unfold revealNextBatch.
  destruct (revealLoop_spec (buffered (buffers st)) (length (lastRecords st))
              st (le_n _)) as (st1 & -> & Ht & Hq & Hnd).
  eexists. split; [reflexivity|].
  cbn [withLastRecords nextTokens baseQuery lastRecords].
  repeat split; try assumption.
  - apply sortDesc_sorted.
  - intros Hst. rewrite (ids_perm _ _ (sortDesc_perm (lastRecords st1))).
    exact (Hnd Hst).
Qed.

(** No record without identifier is lost between the revealed list and
    the buffers. *)
Lemma revealLoop_withoutId (fuel : nat) (startLen : nat) :
  forall st st' : State,
  revealLoop fuel startLen st = Some st' ->
  Permutation (withoutId (lastRecords st' ++ waiting (buffers st')))
              (withoutId (lastRecords st ++ waiting (buffers st))).
Proof.
  induction fuel as [|fuel IH]; intros st st'; cbn [revealLoop].
  - destruct (PAGE_SIZE <=? _); [intros [= <-]; reflexivity|].
    destruct (pick (buffers st)) as [[k r]|]; [discriminate|].
    intros [= <-]. reflexivity.
  - destruct (PAGE_SIZE <=? _); [intros [= <-]; reflexivity|].
    destruct (pick (buffers st)) as [[k r]|] eqn:Hpick;
      [|intros [= <-]; reflexivity].
    apply pick_some in Hpick as [tl Hk]. intros Hrun.
    rewrite (IH _ _ Hrun). cbn [lastRecords buffers].
    rewrite !withoutId_app. unfold dedupRecords.
    rewrite withoutId_dedupFrom, withoutId_app.
    rewrite (withoutId_perm _ _ (waiting_take (buffers st) k r tl Hk)).
    change (r :: waiting (pset (buffers st) k (tail (pget (buffers st) k))))
      with ([r] ++ waiting (pset (buffers st) k (tail (pget (buffers st) k)))).
    rewrite withoutId_app, app_assoc. reflexivity.
Qed.

Lemma revealNextBatch_withoutId (st st' : State) :
  revealNextBatch st = Some st' ->
  Permutation (withoutId (lastRecords st' ++ waiting (buffers st')))
              (withoutId (lastRecords st ++ waiting (buffers st))).
Proof.
  unfold revealNextBatch.
  destruct (revealLoop _ _ st) as [st1|] eqn:Hrun; [|discriminate].
  intros [= <-]. cbn [withLastRecords lastRecords buffers].
  rewrite <- (revealLoop_withoutId _ _ _ _ Hrun).
  apply withoutId_perm, Permutation_app_tail, sortDesc_perm.
Qed.

End WithHost.

End RevealFacts.

(** ** Rounds of the merge engine *)

Module EngineFacts.

Import Script EngineTerms Sample RevealFacts.

Section WithHost.

Context `{Host}.

Lemma sameRevealed_refl (st : State) : sameRevealed st st.
Proof. split; reflexivity. Qed.

Lemma sameRevealed_trans (a b c : State) :
  sameRevealed a b -> sameRevealed b c -> sameRevealed a c.
Proof. intros [H1 H2] [H3 H4]. split; congruence. Qed.

Lemma chunkArrived_same (st : State) (k : Source) (data : JsVal) :
  sameRevealed st (fst (chunkArrived st k data)).
Proof.
  unfold chunkArrived. destruct (normalizeAll k _); split; reflexivity.
Qed.

Lemma settleChunks_same (st0 : State) (replies : Per Reply) (ks : list Source) :
  forall st : State, sameRevealed st (fst (settleChunks st0 replies ks st)).
Proof.
  induction ks as [|k ks IH]; intros st; cbn [settleChunks].
  - apply sameRevealed_refl.
  - destruct (chunkRequest st0 k); [|apply IH].
    destruct (pget replies k) as [err|data].
    + specialize (IH st). destruct (settleChunks st0 replies ks st). exact IH.
    + pose proof (chunkArrived_same st k data) as Hk.
      destruct (chunkArrived st k data) as [st1 thrown]. cbn [fst] in Hk.
      specialize (IH st1). destruct (settleChunks st0 replies ks st1).
      cbn [fst] in *. eapply sameRevealed_trans; eassumption.
Qed.


(** No request when every token is null. *)
Lemma settleChunks_idle (st0 : State) (replies : Per Reply) (ks : list Source) :
  (forall k, chunkRequest st0 k = None) ->
  forall st : State, settleChunks st0 replies ks st = (st, []).
Proof.
  intros Hnone. induction ks as [|k ks IH]; intros st; cbn [settleChunks];
    [reflexivity|].
  rewrite Hnone. apply IH.
Qed.

Lemma fallbackArrived_same (datas : Per JsVal) (ks : list Source) :
  forall st : State, sameRevealed st (fst (fallbackArrived datas ks st)).
Proof.
  induction ks as [|k ks IH]; intros st; cbn [fallbackArrived].
  - apply sameRevealed_refl.
  - destruct (negb (hasLength _)); [apply IH|].
    destruct (normalizeAll k _) as [norm|err]; [|apply sameRevealed_refl].
    eapply sameRevealed_trans; [|apply IH]. split; reflexivity.
Qed.


(** The least event time of a list of records. *)
Lemma oldest_fold (l : list Row) :
  forall (acc : option Z) (o : Z),
  fold_left (fun (min : option Z) r =>
               let ts := toEpoch r in
               match min with
               | None => Some ts
               | Some m => if ts <? m then Some ts else Some m
               end) l acc = Some o ->
  (acc = Some o \/ exists r, r ∈ l /\ toEpoch r = o)
  /\ (forall a, acc = Some a -> o <= a)
  /\ (forall r, r ∈ l -> o <= toEpoch r).
Proof.
  induction l as [|x l IH]; intros acc o; cbn [fold_left].
  - intros ->. split; [left; reflexivity|]. split.
    + intros a [= <-]. lia.
    + intros r Hr. inversion Hr.
  - intros Hfold. apply IH in Hfold as (Hwho & Hacc & Hall).
    assert (Hx : o <= toEpoch x /\ forall a, acc = Some a -> o <= a).
    { destruct acc as [m|].
      - destruct (toEpoch x <? m) eqn:Hlt.
        + apply Z.ltb_lt in Hlt. specialize (Hacc _ eq_refl).
          split; [lia|]. intros a [= <-]. lia.
        + apply Z.ltb_ge in Hlt. specialize (Hacc _ eq_refl).
          split; [lia|]. intros a [= <-]. lia.
      - specialize (Hacc _ eq_refl). split; [lia | discriminate]. }
    destruct Hx as [Hx Hacc']. split; [|split].
    + destruct Hwho as [Hs|(r & Hr & Ho)].
      * destruct acc as [m|].
        -- destruct (toEpoch x <? m); injection Hs as Hs.
           ++ right. exists x. split; [left | exact Hs].
           ++ left. f_equal. exact Hs.
        -- injection Hs as Hs. right. exists x. split; [left | exact Hs].
      * right. exists r. split; [right; exact Hr | exact Ho].
    + exact Hacc'.
    + intros r Hr. apply elem_of_cons in Hr as [->|Hr]; [exact Hx | auto].
Qed.

Lemma oldest_least (l : list Row) (o : Z) :
  oldest l = Some o ->
  (exists r, r ∈ l /\ toEpoch r = o) /\ (forall r, r ∈ l -> o <= toEpoch r).
Proof.
  intros Ho. apply oldest_fold in Ho as ([Hs|Hr] & _ & Hall);
    [discriminate | split; assumption].
Qed.

(** The fallback block ends in a round, whatever the replies. *)
Lemma fallbackAndReveal_total (st : State) (reqs : list Request)
    (fallback : Per Reply) :
  exists round,
    fallbackAndReveal st reqs fallback = Some round
    /\ cursorRequests round = reqs
    /\ nextTokens (after round) = nextTokens st
    /\ (forall reasons, ending round = Rejects reasons ->
        sameRevealed st (after round) /\ reasons <> [])
    /\ (ending round = Completed ->
        StronglySorted notEarlier (lastRecords (after round)))
    /\ (NoDup (ids (lastRecords st)) ->
        NoDup (ids (lastRecords (after round)))).
Proof.
  assert (Hreveal : forall st1 freqs,
    sameRevealed st st1 -> nextTokens st1 = nextTokens st ->
    exists round,
      match revealNextBatch st1 with
      | Some st2 => Some {| after := st2; cursorRequests := reqs;
                            fallbackRequests := freqs; ending := Completed |}
      | None => None
      end = Some round
      /\ cursorRequests round = reqs
      /\ nextTokens (after round) = nextTokens st
      /\ (forall reasons, ending round = Rejects reasons ->
          sameRevealed st (after round) /\ reasons <> [])
      /\ (ending round = Completed ->
          StronglySorted notEarlier (lastRecords (after round)))
      /\ (NoDup (ids (lastRecords st)) ->
          NoDup (ids (lastRecords (after round))))).
  { intros st1 freqs [Hl Hq] Ht.
    destruct (revealNextBatch_spec st1) as (st2 & -> & Ht2 & Hq2 & Hs & Hnd).
    eexists. split; [reflexivity|]. cbn [cursorRequests after ending].
    split; [reflexivity|]. split; [congruence|]. split; [|split].
    - intros reasons Hr. discriminate.
    - intros _. exact Hs.
    - rewrite <- Hl. exact Hnd. }
  assert (Hreject : forall st1 freqs errs,
    sameRevealed st st1 -> nextTokens st1 = nextTokens st -> errs <> [] ->
    exists round,
      Some {| after := st1; cursorRequests := reqs; fallbackRequests := freqs;
              ending := Rejects errs |} = Some round
      /\ cursorRequests round = reqs
      /\ nextTokens (after round) = nextTokens st
      /\ (forall reasons, ending round = Rejects reasons ->
          sameRevealed st (after round) /\ reasons <> [])
      /\ (ending round = Completed ->
          StronglySorted notEarlier (lastRecords (after round)))
      /\ (NoDup (ids (lastRecords st)) ->
          NoDup (ids (lastRecords (after round))))).
  { intros st1 freqs errs Hsame Ht Hne.
    eexists. split; [reflexivity|]. cbn [cursorRequests after ending].
    split; [reflexivity|]. split; [exact Ht|]. split; [|split].
    - intros reasons [= <-]. split; [exact Hsame | exact Hne].
    - discriminate.
    - destruct Hsame as [-> _]. auto. }
  unfold fallbackAndReveal.
  destruct (forallb _ sources); [|apply Hreveal; [apply sameRevealed_refl | reflexivity]].
  destruct (oldest (lastRecords st)) as [o|];
    [|apply Hreveal; [apply sameRevealed_refl | reflexivity]].
  destruct (o =? 0); [apply Hreveal; [apply sameRevealed_refl | reflexivity]|].
  destruct (toISOString (fallbackEnd o)) as [iso|];
    [|apply Hreject; [apply sameRevealed_refl | reflexivity | discriminate]].
  destruct (allResolved fallback) as [datas|errs] eqn:Hall.
  - pose proof (fallbackArrived_same datas sources st) as Hsame.
    assert (Htok : nextTokens (fst (fallbackArrived datas sources st))
                   = nextTokens st).
    { clear. generalize sources. intros ks. revert st.
      induction ks as [|k ks IH]; intros st; cbn [fallbackArrived];
        [reflexivity|].
      destruct (negb (hasLength _)); [apply IH|].
      destruct (normalizeAll k _); [|reflexivity].
      rewrite IH. reflexivity. }
    destruct (fallbackArrived datas sources st) as [st1 [err|]];
      cbn [fst] in *.
    + apply Hreject; [assumption | assumption | discriminate].
    + apply Hreveal; assumption.
  - apply Hreject; [apply sameRevealed_refl | reflexivity |].
    unfold allResolved in Hall.
    destruct (p_in fallback) as [e1|d1] eqn:H1;
      [injection Hall as <-; unfold sources; cbn [omap pget]; rewrite H1;
       discriminate|].
    destruct (p_out fallback) as [e2|d2] eqn:H2;
      [injection Hall as <-; unfold sources; cbn [omap pget]; rewrite H1, H2;
       discriminate|].
    destruct (p_camp fallback) as [e3|d3] eqn:H3;
      [injection Hall as <-; unfold sources; cbn [omap pget];
       rewrite H1, H2, H3; discriminate|].
    destruct (p_cdr fallback) as [e4|d4] eqn:H4;
      [injection Hall as <-; unfold sources; cbn [omap pget];
       rewrite H1, H2, H3, H4; discriminate|].
    discriminate.
Qed.

Lemma assignTokens_same (datas : Per JsVal) (ks : list Source) :
  forall st : State,
  sameRevealed st (fst (assignTokens datas ks st))
  /\ buffers (fst (assignTokens datas ks st)) = buffers st.
Proof.
  induction ks as [|k ks IH]; intros st; cbn [assignTokens].
  - split; [apply sameRevealed_refl | reflexivity].
  - destruct (get (pget datas k) "next") as [next|err];
      [|split; [apply sameRevealed_refl | reflexivity]].
    destruct (IH (withTokens st (pset (nextTokens st) k (nullish next JNull))))
      as [Hs Hb].
    split; [|exact Hb]. eapply sameRevealed_trans; [|exact Hs].
    split; reflexivity.
Qed.

Lemma assignBuffers_same (datas : Per JsVal) (ks : list Source) :
  forall st : State, sameRevealed st (fst (assignBuffers datas ks st)).
Proof.
  induction ks as [|k ks IH]; intros st; cbn [assignBuffers].
  - apply sameRevealed_refl.
  - destruct (normalizeAll k _) as [rows|err]; [|apply sameRevealed_refl].
    eapply sameRevealed_trans; [|apply IH]. split; reflexivity.
Qed.

(** Every call of [loadNextChunks] ends in a round. *)
Lemma loadNextChunks_total (st : State) (cursor fallback : Per Reply) :
  exists round,
    loadNextChunks st cursor fallback = Some round
    /\ cursorRequests round = omap (chunkRequest st) sources
    /\ (forall reasons, ending round = Rejects reasons ->
        sameRevealed st (after round) /\ reasons <> [])
    /\ (ending round = Completed ->
        StronglySorted notEarlier (lastRecords (after round)))
    /\ (NoDup (ids (lastRecords st)) ->
        NoDup (ids (lastRecords (after round)))).
Proof.
  unfold loadNextChunks.
  pose proof (settleChunks_same st cursor sources st) as Hsame.
  destruct (settleChunks st cursor sources st) as [st1 [|err errs]];
    cbn [fst] in Hsame.
  - destruct (fallbackAndReveal_total st1 (omap (chunkRequest st) sources)
                fallback) as (round & -> & Hreq & _ & Hrej & Hdone & Hnd).
    exists round. split; [reflexivity|]. split; [exact Hreq|].
    split; [|split].
    + intros reasons Hr. destruct (Hrej reasons Hr) as [Hs Hne].
      split; [eapply sameRevealed_trans; eassumption | exact Hne].
    + exact Hdone.
    + destruct Hsame as [<- _]. exact Hnd.
  - eexists. split; [reflexivity|].
    cbn [cursorRequests after ending]. split; [reflexivity|].
    split; [|split].
    + intros reasons [= <-]. split; [exact Hsame | discriminate].
    + discriminate.
    + destruct Hsame as [-> _]. auto.
Qed.

(** Every run of the submit handler ends; when the [catch] clause ran,
    nothing of the revealed list has changed. *)
Lemma submit_total (st : State) (q : BaseQuery) (replies : Per Reply) :
  exists s,
    submit st q replies = Some s
    /\ sub_requests s = map (firstPage q) sources
    /\ (forall errs, sub_error s = Some errs ->
        lastRecords (sub_after s) = lastRecords st)
    /\ (sub_error s = None ->
        StronglySorted notEarlier (lastRecords (sub_after s))
        /\ NoDup (ids (lastRecords (sub_after s)))).
Proof.
  unfold submit.
  destruct (allResolved replies) as [datas|errs].
  - pose proof (assignTokens_same datas sources (withBaseQuery st q)) as [[Hl1 _] _].
    destruct (assignTokens datas sources (withBaseQuery st q)) as [st1 [err|]];
      cbn [fst withBaseQuery lastRecords] in Hl1.
    + eexists. split; [reflexivity|]. cbn [sub_requests sub_after sub_error].
      split; [reflexivity|]. split; [intros _ _; exact Hl1 | discriminate].
    + pose proof (assignBuffers_same datas sources st1) as [Hl2 _].
      destruct (assignBuffers datas sources st1) as [st2 [err|]];
        cbn [fst] in Hl2.
      * eexists. split; [reflexivity|]. cbn [sub_requests sub_after sub_error].
        split; [reflexivity|].
        split; [intros _ _; congruence | discriminate].
      * destruct (revealNextBatch_spec (withLastRecords st2 []))
          as (st3 & -> & _ & _ & Hs & Hnd).
        eexists. split; [reflexivity|]. cbn [sub_requests sub_after sub_error].
        split; [reflexivity|]. split; [discriminate|].
        intros _. split; [exact Hs|]. apply Hnd. constructor.
  - eexists. split; [reflexivity|]. cbn [sub_requests sub_after sub_error].
    split; [reflexivity|]. split; [reflexivity | discriminate].
Qed.

(** The requests of the fallback block when it runs. *)
Lemma fallbackAndReveal_requests (st : State) (reqs : list Request)
    (fallback : Per Reply) (o : Z) (iso : string) (round : Round) :
  (forall k, pget (nextTokens st) k = JNull) ->
  oldest (lastRecords st) = Some o ->
  o <> 0 ->
  toISOString (fallbackEnd o) = Some iso ->
  fallbackAndReveal st reqs fallback = Some round ->
  fallbackRequests round = map (fallbackRequest (baseQuery st) iso) sources.
Proof.
  intros Hnull Ho Hne Hiso. unfold fallbackAndReveal.
  replace (forallb _ sources) with true
    by (unfold sources; cbn [forallb]; rewrite !Hnull; reflexivity).
  rewrite Ho. apply Z.eqb_neq in Hne. rewrite Hne, Hiso.
  destruct (allResolved fallback) as [datas|errs].
  - destruct (fallbackArrived datas sources st) as [st1 [err|]].
    + intros [= <-]. reflexivity.
    + destruct (revealNextBatch st1); [|discriminate].
      intros [= <-]. reflexivity.
  - intros [= <-]. reflexivity.
Qed.

(** Without a truthy least event time the fallback block is skipped. *)
Lemma fallbackAndReveal_skipped (st : State) (reqs : list Request)
    (fallback : Per Reply) :
  oldest (lastRecords st) = None \/ oldest (lastRecords st) = Some 0 ->
  exists round,
    fallbackAndReveal st reqs fallback = Some round
    /\ cursorRequests round = reqs
    /\ fallbackRequests round = []
    /\ ending round = Completed.
Proof.
  intros Ho. unfold fallbackAndReveal.
  destruct (revealNextBatch_spec st) as (st2 & Hrev & _).
  destruct (forallb _ sources).
  - destruct Ho as [-> | ->]; cbn [Z.eqb]; rewrite Hrev; eexists;
      repeat split.
  - rewrite Hrev. eexists. repeat split.
Qed.

Lemma oldest_none (l : list Row) : oldest l = None <-> l = [].
Proof.
  split; [|intros ->; reflexivity].
  destruct l as [|x l]; [reflexivity|]. unfold oldest. cbn [fold_left].
  intros Hfold. exfalso. revert Hfold. generalize (toEpoch x).
  induction l as [|y l IH]; intros m; cbn [fold_left]; [discriminate|].
  destruct (toEpoch y <? m); apply IH.
Qed.

End WithHost.

(** C4, as the code has it: after every reveal step the revealed records
    are sorted by event time, latest first, and no truthy primitive call
    identifier occurs twice among them; a record without an identifier is
    never taken for a duplicate: the records without identifier that are
    revealed or wait in the buffers are the same before and after the
    step.  Order and distinctness hold after [revealNextBatch], after
    every completed [loadNextChunks], fallback round included, and after
    every successful submit. *)
Theorem revealed_sorted_distinct `{Host} (st : State) :
  NoDup (ids (lastRecords st)) ->
  (exists st',
     revealNextBatch st = Some st'
     /\ (forall i a b, lastRecords st' !! i = Some a ->
                       lastRecords st' !! S i = Some b ->
                       toEpoch a >= toEpoch b)
     /\ NoDup (ids (lastRecords st'))
     /\ Permutation (withoutId (lastRecords st' ++ waiting (buffers st')))
                    (withoutId (lastRecords st ++ waiting (buffers st))))
  /\ (forall cursor fallback,
        exists round,
          loadNextChunks st cursor fallback = Some round
          /\ NoDup (ids (lastRecords (after round)))
          /\ (ending round = Completed ->
              forall i a b, lastRecords (after round) !! i = Some a ->
                            lastRecords (after round) !! S i = Some b ->
                            toEpoch a >= toEpoch b))
  /\ (forall q replies,
        exists s,
          submit st q replies = Some s
          /\ NoDup (ids (lastRecords (sub_after s)))
          /\ (sub_error s = None ->
              forall i a b, lastRecords (sub_after s) !! i = Some a ->
                            lastRecords (sub_after s) !! S i = Some b ->
                            toEpoch a >= toEpoch b)).
Proof.
  intros Hst. split; [|split].
  - destruct (revealNextBatch_spec st) as (st' & Hrun & _ & _ & Hs & Hnd).
    exists st'. split; [exact Hrun|]. split; [|split; [exact (Hnd Hst)|]].
    + apply sorted_adjacent. exact Hs.
    + apply revealNextBatch_withoutId. exact Hrun.
  - intros cursor fallback.
    destruct (loadNextChunks_total st cursor fallback)
      as (round & Hrun & _ & _ & Hs & Hnd).
    exists round. split; [exact Hrun|]. split; [exact (Hnd Hst)|].
    intros Hdone. apply sorted_adjacent. exact (Hs Hdone).
  - intros q replies.
    destruct (submit_total st q replies) as (s & Hrun & _ & Herr & Hok).
    exists s. split; [exact Hrun|]. split.
    + destruct (sub_error s) as [errs|] eqn:He.
      * rewrite (Herr errs eq_refl). exact Hst.
      * apply Hok. reflexivity.
    + intros Hnone. apply sorted_adjacent. apply (Hok Hnone).
Qed.

Lemma revealed_sorted_distinct_witness :
  NoDup (ids (lastRecords overlapping))
  /\ exists st',
       revealNextBatch (H := Sample.host) overlapping = Some st'
       /\ lastRecords st'
          = [revealed "d" (JNum 1700000200); revealed "" (JNum 1700000150);
             revealed "" (JNum 1700000150); revealed "a" (JNum 1700000100)]
       /\ buffers st' = pall []
       /\ (forall i a b, lastRecords st' !! i = Some a ->
                         lastRecords st' !! S i = Some b ->
                         toEpoch (H := Sample.host) a
                         >= toEpoch (H := Sample.host) b)
       /\ NoDup (ids (lastRecords st'))
       /\ Permutation
            (withoutId (lastRecords st' ++ waiting (buffers st')))
            (withoutId (lastRecords overlapping
                        ++ waiting (buffers overlapping))).
Proof.
  assert (Hinit : NoDup (ids (lastRecords overlapping))).
  { cbn. apply NoDup_cons. split; [intros Hin; inversion Hin | constructor]. }
  split; [exact Hinit|].
  destruct (proj1 (revealed_sorted_distinct (H := Sample.host) overlapping
                     Hinit)) as (st' & Hrun & Hsorted & Hnd & Hperm).
  exists st'. split; [exact Hrun|].
  assert (Hst' : Some st'
                 = Some {| nextTokens := pall JNull; buffers := pall [];
                           lastRecords :=
                             [revealed "d" (JNum 1700000200);
                              revealed "" (JNum 1700000150);
                              revealed "" (JNum 1700000150);
                              revealed "a" (JNum 1700000100)];
                           baseQuery := sampleQuery |})
    by (rewrite <- Hrun; vm_compute; reflexivity).
  injection Hst' as Hst'.
  split; [rewrite Hst'; reflexivity|]. split; [rewrite Hst'; reflexivity|].
  split; [exact Hsorted|]. split; [exact Hnd | exact Hperm].
Defined.

(** The claim does not hold as stated: the two rows without a [call_id]
    are both revealed, with the same (empty) identifier. *)
Lemma revealed_counterexample :
  exists s,
    submit (H := Sample.host) initial sampleQuery anonymousReplies = Some s
    /\ sub_error s = None
    /\ length (lastRecords (sub_after s)) = 2%nat
    /\ map Call_ID (lastRecords (sub_after s)) = [JStr ""; JStr ""]
    /\ ~ NoDup (map Call_ID (lastRecords (sub_after s))).
Proof.
  eexists. split; [vm_compute; reflexivity|]. cbn [sub_after sub_error lastRecords].
  split; [reflexivity|]. split; [reflexivity|]. split; [reflexivity|].
  cbn [map Call_ID]. intros Hnd. apply NoDup_cons in Hnd as [Hnot _].
  apply Hnot. left.
Qed.


(** C6, as the code has it: when every cursor is null, a call of
    [loadNextChunks] issues no cursor request, and it issues one fallback
    round exactly when a record is revealed and the least event time [o]
    of the revealed records is not 0: four requests, one per source and
    without a cursor.  For [o] not before 10^12 ms their window ends
    1000 ms before [o]; for another [o] that is not 0 the code takes [o]
    for seconds and ends the window at [o * 1000 - 1000].  With no
    revealed record, or with a least event time of 0 (one of the revealed
    records has no readable time and none has a negative one), no
    fallback request is issued and the call only reveals. *)
Theorem fallback_window `{Host} (st : State) (cursor fallback : Per Reply) :
  (forall k, pget (nextTokens st) k = JNull) ->
  (forall o iso,
     oldest (lastRecords st) = Some o ->
     1000000000000 <= o ->
     toISOString (o - 1000) = Some iso ->
     ((exists r, r ∈ lastRecords st /\ toEpoch r = o)
      /\ forall r, r ∈ lastRecords st -> o <= toEpoch r)
     /\ exists round,
          loadNextChunks st cursor fallback = Some round
          /\ cursorRequests round = []
          /\ fallbackRequests round
             = map (fun k => {| rq_url := endpoint k;
                                rq_account := bq_account (baseQuery st);
                                rq_start := bq_start (baseQuery st);
                                rq_end := iso;
                                rq_limit := 500;
                                rq_startKey := JUndef |}) sources)
  /\ (forall o iso,
        oldest (lastRecords st) = Some o ->
        o <> 0 -> o < 1000000000000 ->
        toISOString (o * 1000 - 1000) = Some iso ->
        exists round,
          loadNextChunks st cursor fallback = Some round
          /\ cursorRequests round = []
          /\ fallbackRequests round
             = map (fun k => {| rq_url := endpoint k;
                                rq_account := bq_account (baseQuery st);
                                rq_start := bq_start (baseQuery st);
                                rq_end := iso;
                                rq_limit := 500;
                                rq_startKey := JUndef |}) sources)
  /\ (lastRecords st = [] \/ oldest (lastRecords st) = Some 0 ->
      exists round,
        loadNextChunks st cursor fallback = Some round
        /\ cursorRequests round = []
        /\ fallbackRequests round = []
        /\ ending round = Completed)
  /\ ((forall r, r ∈ lastRecords st -> 0 <= toEpoch r) ->
      (exists r, r ∈ lastRecords st /\ toEpoch r = 0) ->
      oldest (lastRecords st) = Some 0).
Proof.
  intros Hnull.
  assert (Hnone : forall k, chunkRequest st k = None)
    by (intros k; unfold chunkRequest; rewrite Hnull; reflexivity).
  assert (Hreqs : omap (chunkRequest st) sources = [])
    by (unfold sources; cbn [omap list_omap]; rewrite !Hnone; reflexivity).
  assert (Hround : forall o iso,
    oldest (lastRecords st) = Some o -> o <> 0 ->
    toISOString (fallbackEnd o) = Some iso ->
    exists round,
      loadNextChunks st cursor fallback = Some round
      /\ cursorRequests round = []
      /\ fallbackRequests round
         = map (fun k => {| rq_url := endpoint k;
                            rq_account := bq_account (baseQuery st);
                            rq_start := bq_start (baseQuery st);
                            rq_end := iso;
                            rq_limit := 500;
                            rq_startKey := JUndef |}) sources).
  { intros o iso Ho Hne Hiso.
    destruct (loadNextChunks_total st cursor fallback)
      as (round & Hrun & Hreq & _).
    exists round. split; [exact Hrun|]. split; [rewrite Hreq; exact Hreqs|].
    unfold loadNextChunks in Hrun.
    rewrite (settleChunks_idle st cursor sources Hnone st) in Hrun.
    exact (fallbackAndReveal_requests st (omap (chunkRequest st) sources)
             fallback o iso round Hnull Ho Hne Hiso Hrun). }
  split; [|split; [|split]].
  - intros o iso Ho Hbig Hiso. split; [apply oldest_least; exact Ho|].
    apply (Hround o iso Ho); [lia|]. unfold fallbackEnd.
    replace (o <? 1000000000000) with false
      by (symmetry; apply Z.ltb_ge; lia).
    exact Hiso.
  - intros o iso Ho Hne Hsmall Hiso.
    apply (Hround o iso Ho Hne). unfold fallbackEnd.
    replace (o <? 1000000000000) with true
      by (symmetry; apply Z.ltb_lt; lia).
    exact Hiso.
  - intros Ho. unfold loadNextChunks.
    rewrite (settleChunks_idle st cursor sources Hnone st), Hreqs.
    apply fallbackAndReveal_skipped.
    destruct Ho as [Hempty|Hzero]; [left; apply oldest_none, Hempty | right; exact Hzero].
  - intros Hpos (r & Hr & Hzero).
    destruct (oldest (lastRecords st)) as [o|] eqn:Ho.
    + apply oldest_least in Ho as [(r' & Hr' & Ho') Hleast].
      f_equal. specialize (Hleast r Hr). specialize (Hpos r' Hr'). lia.
    + apply oldest_none in Ho. rewrite Ho in Hr. inversion Hr.
Qed.

Lemma fallback_window_witness :
  (exists round,
     loadNextChunks (H := Sample.host)
       (exhausted [revealed "a" (JNum 1700000100); revealed "b" (JNum 1700000000)])
       noReplies noReplies = Some round
     /\ cursorRequests round = []
     /\ fallbackRequests round
        = map (fun k => {| rq_url := endpoint k; rq_account := "acme";
                           rq_start := "2023-11-14T20:00:00.000Z";
                           rq_end := "1699999999000";
                           rq_limit := 500; rq_startKey := JUndef |}) sources)
  /\ (exists round,
        loadNextChunks (H := Sample.host)
          (exhausted [revealed "a" (JNum 1700000100); revealed "b" (JStr "")])
          noReplies noReplies = Some round
        /\ cursorRequests round = []
        /\ fallbackRequests round = []
        /\ ending round = Completed)
  /\ oldest (H := Sample.host)
       (lastRecords
          (exhausted [revealed "a" (JNum 1700000100); revealed "b" (JStr "")]))
     = Some 0.
Proof.
  split; [|split].
  - refine (proj2 (proj1 (fallback_window (H := Sample.host)
             (exhausted [revealed "a" (JNum 1700000100);
                         revealed "b" (JNum 1700000000)])
             noReplies noReplies _) 1700000000000 "1699999999000" _ _ _)).
    + intros []; reflexivity.
    + reflexivity.
    + lia.
    + reflexivity.
  - refine (proj1 (proj2 (proj2 (fallback_window (H := Sample.host)
             (exhausted [revealed "a" (JNum 1700000100);
                         revealed "b" (JStr "")])
             noReplies noReplies _))) (or_intror eq_refl)).
    intros []; reflexivity.
  - refine (proj2 (proj2 (proj2 (fallback_window (H := Sample.host)
             (exhausted [revealed "a" (JNum 1700000100);
                         revealed "b" (JStr "")])
             noReplies noReplies _))) _ _).
    + intros []; reflexivity.
    + intros r Hr.
      repeat (apply elem_of_cons in Hr as [->|Hr]; [vm_compute; discriminate|]).
      inversion Hr.
    + exists (revealed "b" (JStr "")). split; [right; left | reflexivity].
Defined.

(** The claim does not hold as stated: with every cursor null and the
    record "b" revealed without a called time, the least event time is 0
    and the call issues no fallback request at all; it only reveals the
    buffered record. *)
Lemma fallback_counterexample :
  let st := exhausted [revealed "a" (JNum 1700000100); revealed "b" (JStr "")] in
  (forall k, pget (nextTokens st) k = JNull)
  /\ oldest (H := Sample.host) (lastRecords st) = Some 0
  /\ loadNextChunks (H := Sample.host) st noReplies noReplies
     = Some {| after :=
                 {| nextTokens := pall JNull; buffers := pall [];
                    lastRecords := [revealed "a" (JNum 1700000100);
                                    revealed "c" (JNum 1699990000);
                                    revealed "b" (JStr "")];
                    baseQuery := sampleQuery |};
               cursorRequests := []; fallbackRequests := [];
               ending := Completed |}.
Proof.
  split; [intros []; reflexivity|]. split; reflexivity.
Qed.

Lemma fallback_counterexample_reachable :
  match submit (H := Sample.host) initial sampleQuery fullPage with
  | Some s =>
      sub_error s = None
      /\ nextTokens (sub_after s) = pall JNull
      /\ length (lastRecords (sub_after s)) = 500%nat
      /\ buffered (buffers (sub_after s)) = 1%nat
      /\ oldest (H := Sample.host) (lastRecords (sub_after s)) = Some 0
      /\ match loadNextChunks (H := Sample.host) (sub_after s) noReplies
                 noReplies with
         | Some round =>
             fallbackRequests round = [] /\ ending round = Completed
             /\ length (lastRecords (after round)) = 501%nat
         | None => False
         end
  | None => False
  end.
Proof. vm_compute. repeat split; reflexivity. Qed.


End EngineFacts.

(** ** The cache key *)

Module KeyFacts.

Import ReportFetcher.

#[local] Arguments String.append : simpl nomatch.

(** Strings without the separator of the key. *)
Lemma app_bar_left (r r' x x' : string) :
  "|"%char ∉ list_ascii_of_string r ->
  "|"%char ∉ list_ascii_of_string r' ->
  r +:+ "|" +:+ x = r' +:+ "|" +:+ x' -> r = r' /\ x = x'.
Proof.
  revert r'. induction r as [|c r IH]; intros [|c' r'] Hr Hr'; simpl.
  - intros [= ->]. split; reflexivity.
  - intros [= <- _]. exfalso. apply Hr'. cbn. left.
  - intros [= -> _]. exfalso. apply Hr. cbn. left.
  - intros [= -> Heq]. destruct (IH r') as [-> ->]; [| |exact Heq|split; reflexivity].
    + intros Hin. apply Hr. cbn. right. exact Hin.
    + intros Hin. apply Hr'. cbn. right. exact Hin.
Qed.

Lemma elem_of_string_app (c : ascii) (a b : string) :
  c ∈ list_ascii_of_string b -> c ∈ list_ascii_of_string (a +:+ b).
Proof.
  induction a as [|d a IH]; cbn; [auto|]. intros Hin. right. apply IH, Hin.
Qed.

Lemma app_bar_right (t t' s s' : string) :
  "|"%char ∉ list_ascii_of_string s ->
  "|"%char ∉ list_ascii_of_string s' ->
  t +:+ "|" +:+ s = t' +:+ "|" +:+ s' -> t = t' /\ s = s'.
Proof.
  revert t'. induction t as [|c t IH]; intros [|c' t'] Hs Hs'; simpl.
  - intros [= ->]. split; reflexivity.
  - intros [= <- ->]. exfalso. apply Hs.
    apply elem_of_string_app. cbn. left.
  - intros [= -> <-]. exfalso. apply Hs'.
    apply elem_of_string_app. cbn. left.
  - intros [= -> Heq]. destruct (IH t' Hs Hs' Heq) as [-> ->].
    split; reflexivity.
Qed.

Lemma string_app_assoc (a b c : string) : (a +:+ b) +:+ c = a +:+ b +:+ c.
Proof. induction a as [|x a IH]; cbn; [reflexivity|]. rewrite IH. reflexivity. Qed.

(** Decimal texts hold digits and a sign only. *)
Lemma uint_no_bar (d : Decimal.uint) :
  "|"%char ∉ list_ascii_of_string (NilEmpty.string_of_uint d).
Proof.
  induction d; cbn; intros Hin;
    try (apply elem_of_cons in Hin as [Hin|Hin]; [discriminate | auto]).
  inversion Hin.
Qed.

Lemma showZ_no_bar (n : Z) : "|"%char ∉ list_ascii_of_string (showZ n).
Proof.
  assert (Hu : forall d, "|"%char ∉ list_ascii_of_string (NilZero.string_of_uint d)).
  { intros d. destruct d; try apply uint_no_bar.
    cbn. intros Hin. apply elem_of_cons in Hin as [Hin|Hin]; [discriminate|inversion Hin]. }
  unfold showZ. destruct (Z.to_int n) as [d|d]; cbn [NilZero.string_of_int].
  - apply Hu.
  - cbn. intros Hin. apply elem_of_cons in Hin as [Hin|Hin]; [discriminate|].
    exact (Hu d Hin).
Qed.

Lemma showZ_inj (a b : Z) : showZ a = showZ b -> a = b.
Proof.
  unfold showZ. intros Heq.
  assert (Hnn : forall z, Z.to_int z <> Decimal.Pos Decimal.Nil
                          /\ Z.to_int z <> Decimal.Neg Decimal.Nil).
  { intros [|p|p]; cbn; split; try discriminate;
      intros [= Hp]; exact (DecimalPos.Unsigned.to_uint_nonnil p Hp). }
  assert (Hi : Some (Z.to_int a) = Some (Z.to_int b)).
  { rewrite <- (NilZero.isi (Z.to_int a)) by apply Hnn.
    rewrite <- (NilZero.isi (Z.to_int b)) by apply Hnn.
    rewrite Heq. reflexivity. }
  injection Hi as Hi.
  rewrite <- (DecimalZ.of_to a), <- (DecimalZ.of_to b), Hi. reflexivity.
Qed.

Lemma showZ_nonempty (n : Z) : showZ n <> "".
Proof.
  unfold showZ. destruct (Z.to_int n) as [d|d]; cbn; [|discriminate].
  destruct d; discriminate.
Qed.

Lemma showDate_no_bar (d : option Z) :
  "|"%char ∉ list_ascii_of_string (showDate d).
Proof. destruct d; cbn; [apply showZ_no_bar | intros Hin; inversion Hin]. Qed.

Lemma showDate_inj (d d' : option Z) : showDate d = showDate d' -> d = d'.
Proof.
  destruct d as [n|], d' as [n'|]; cbn; intros Heq.
  - f_equal. apply showZ_inj, Heq.
  - destruct (showZ_nonempty n Heq).
  - destruct (showZ_nonempty n' (eq_sym Heq)).
  - reflexivity.
Qed.

Lemma known_report_no_bar (report endpoint : string) :
  lookupEndpoint report = Some endpoint ->
  "|"%char ∉ list_ascii_of_string report.
Proof.
  unfold lookupEndpoint, ENDPOINTS, inherited. cbn [app List.find fst snd].
  repeat match goal with
         | |- context [String.eqb report ?k] =>
             destruct (String.eqb_spec report k) as [->|_];
             [intros _; cbn; intros Hin;
              repeat (apply elem_of_cons in Hin as [Hin|Hin]; [discriminate|]);
              inversion Hin|]
         end.
  discriminate.
Qed.

(** X1: two calls for known reports use the same cache entry only when
    they name the same report, the same tenant and the same window; no
    tenant ever reads the rows cached for another one, whatever characters
    the tenant names hold. *)
Theorem cache_key_injective (report report' tenant tenant' : string)
    (endpoint endpoint' : string) (p p' : Params) :
  lookupEndpoint report = Some endpoint ->
  lookupEndpoint report' = Some endpoint' ->
  makeCacheKey report tenant p = makeCacheKey report' tenant' p' ->
  report = report' /\ tenant = tenant'
  /\ startDate p = startDate p' /\ endDate p = endDate p'.
Proof.
  intros Hr Hr'. unfold makeCacheKey. intros Heq.
  apply app_bar_left in Heq as [-> Heq];
    [|eapply known_report_no_bar; eassumption..].
  rewrite <- !string_app_assoc in Heq.
  rewrite !(string_app_assoc _ "|" (showDate (endDate _))) in Heq.
  apply app_bar_right in Heq as [Heq He]; [|apply showDate_no_bar..].
  rewrite !string_app_assoc in Heq.
  apply app_bar_right in Heq as [-> Hs]; [|apply showDate_no_bar..].
  repeat split; try reflexivity; apply showDate_inj; assumption.
Qed.

Lemma cache_key_injective_witness :
  "cdrs" = "cdrs" /\ "acme|1" = "acme|1"
  /\ startDate Sample.sampleParams = startDate Sample.cursorParams
  /\ endDate Sample.sampleParams = endDate Sample.cursorParams.
Proof.
  apply (cache_key_injective "cdrs" "cdrs" "acme|1" "acme|1"
           "/api/v2/reports/cdrs" "/api/v2/reports/cdrs"
           Sample.sampleParams Sample.cursorParams);
    reflexivity.
Defined.

End KeyFacts.

(** ** More on the fetch loop and the cache *)

Module TraceFacts.

Import ReportFetcher ResFacts LoopTerms TraceTerms FetchFacts.

Section Loop.

Context `{Host} (endpoint tenant : string) (params : Params).

Lemma guarded_app (a b : list Event) :
  Guarded endpoint tenant params a -> Guarded endpoint tenant params b ->
  Guarded endpoint tenant params (a ++ b).
Proof. induction 1; intros Hb; cbn [app]; [assumption | constructor; auto..]. Qed.

Lemma guarded_pass (st : Loop) (io : IO) :
  Guarded endpoint tenant params (passEvents endpoint tenant params st io).
Proof. destruct io; cbn [passEvents]; repeat constructor. Qed.

Lemma tokens_app (a b : list Event) : tokens (a ++ b) = (tokens a + tokens b)%nat.
Proof. unfold tokens. rewrite List.filter_app, length_app. reflexivity. Qed.

Lemma tokens_pass (st : Loop) (io : IO) :
  tokens (passEvents endpoint tenant params st io) = 1%nat.
Proof. destruct io; reflexivity. Qed.

Lemma fetchLoop_guarded (script : list IO) :
  forall st : Loop,
  out st = [] ->
  Guarded endpoint tenant params
    (snd (fetchLoop endpoint tenant params script st))
  /\ (tokens (snd (fetchLoop endpoint tenant params script st))
      <= length script)%nat.
Proof.
  induction script as [|io script IH]; intros st Hout.
  - split; [constructor | reflexivity].
  - rewrite (fetchLoop_cons endpoint tenant params io script st Hout).
    destruct (classify params io) as [e|n|n r].
    + destruct (attempt st =? 2)%nat; cbn [snd length].
      * split; [apply guarded_pass | rewrite tokens_pass; lia].
      * destruct (IH (bump st) Hout) as [Hg Hn].
        split.
        -- apply guarded_app; [|exact Hg].
           apply guarded_app; [apply guarded_pass | repeat constructor].
        -- rewrite !tokens_app, tokens_pass. cbn. lia.
    + destruct (IH (advance st n) eq_refl) as [Hg Hn]. cbn [snd length].
      split.
      * apply guarded_app; [apply guarded_pass | exact Hg].
      * rewrite tokens_app, tokens_pass. lia.
    + cbn [snd length]. split; [apply guarded_pass | rewrite tokens_pass; lia].
Qed.

(** A pass through a page without a row whose cursor is falsy but not
    null leaves the loop where it was, up to the cursor it holds. *)
Lemma stuck_pass (payload next : JsVal) (records : list JsVal)
    (n : nat) :
  readPage payload = Ok (next, records) ->
  capped params records = [] ->
  next <> JNull -> truthy next = false ->
  forall st : Loop,
  out st = [] -> truthy (startKey st) = false ->
  fetchLoop endpoint tenant params (replicate n (GetReturns payload)) st
  = (Pending, mjoin (replicate n (sameRequest endpoint tenant params))).
Proof.
  intros Hp Hc Hne Hf. induction n as [|n IH]; intros st Hout Hk;
    [reflexivity|].
  cbn [replicate].
  rewrite (fetchLoop_cons endpoint tenant params _ _ st Hout).
  assert (Hcl : classify params (GetReturns payload) = KEmpty next).
  { cbn [classify]. rewrite Hp, Hc. destruct next; congruence. }
  rewrite Hcl, (IH (advance st next) eq_refl Hf). cbn [fst snd mjoin list_join].
  f_equal. cbn [passEvents]. unfold sameRequest, qsStartKey.
  rewrite Hk. reflexivity.
Qed.

End Loop.

(** X2: every GET of a call goes to the endpoint of the report with the
    parameters of the caller and directly follows a token request for the
    tenant, and the client asks for a token once per pass, never more
    often than the upstream was contacted. *)
Theorem get_follows_token `{Host} (reportCache : gmap string CacheEntry)
    (now stored : Z) (script : list IO) (report endpoint tenant : string)
    (params : Params) :
  lookupEndpoint report = Some endpoint ->
  let evs := events (fetchReport reportCache now script stored report tenant
                       params) in
  Guarded endpoint tenant params evs /\ (tokens evs <= length script)%nat.
Proof.
  intros Hep evs. subst evs. unfold fetchReport. rewrite Hep.
  destruct (cacheLookup _ _ _); cbn [events];
    [split; [constructor | cbn; lia]|].
  pose proof (fetchLoop_guarded endpoint tenant params script loopInit eq_refl)
    as [Hg Hn].
  destruct (fetchLoop endpoint tenant params script loopInit) as [[st|e|] evs];
    cbn [snd] in *; cbn [events]; [|split; assumption..].
  destruct (postProcess report (out st)); cbn [events]; split; assumption.
Qed.

Lemma get_follows_token_witness :
  Guarded "/api/v2/reports/cdrs" "acme" Sample.sampleParams
    (events (fetchReport (H := Sample.host) ∅ 0
               (Sample.failingTwice ++ [GetReturns Sample.rowsBody]) 5
               "cdrs" "acme" Sample.sampleParams))
  /\ (tokens (events (fetchReport (H := Sample.host) ∅ 0
                        (Sample.failingTwice ++ [GetReturns Sample.rowsBody])
                        5 "cdrs" "acme" Sample.sampleParams))
      <= length (Sample.failingTwice ++ [GetReturns Sample.rowsBody]))%nat.
Proof.
  apply (get_follows_token (H := Sample.host) ∅ 0 5
           (Sample.failingTwice ++ [GetReturns Sample.rowsBody]) "cdrs"
           "/api/v2/reports/cdrs" "acme" Sample.sampleParams).
  reflexivity.
Defined.

(** X3: while the upstream answers with a page that adds no row and whose
    [next_start_key] is falsy without being null (an empty string, 0,
    false), the client sends the request of the call again and again: it
    neither returns nor fails nor sleeps, however often the upstream
    answers so. *)
Theorem falsy_cursor_repeats (endpoint tenant : string)
    (params : Params) (payload next : JsVal) (records : list JsVal)
    (n : nat) :
  readPage payload = Ok (next, records) ->
  capped params records = [] ->
  next <> JNull -> truthy next = false ->
  fetchLoop endpoint tenant params (replicate n (GetReturns payload)) loopInit
  = (Pending, mjoin (replicate n (sameRequest endpoint tenant params))).
Proof.
  intros Hp Hc Hne Hf.
  apply (stuck_pass endpoint tenant params payload next records n Hp Hc Hne Hf);
    reflexivity.
Qed.

Lemma falsy_cursor_repeats_witness :
  fetchLoop "/api/v2/reports/cdrs" "acme" Sample.sampleParams
    (replicate 3 (GetReturns (JObj [("data", jarr []);
                                    ("next_start_key", JStr "")])))
    loopInit
  = (Pending,
     mjoin (replicate 3 (sameRequest "/api/v2/reports/cdrs" "acme"
                           Sample.sampleParams))).
Proof.
  apply (falsy_cursor_repeats "/api/v2/reports/cdrs" "acme"
           Sample.sampleParams _ (JStr "") [] 3);
    [reflexivity | reflexivity | discriminate | reflexivity].
Defined.

End TraceFacts.

(** ** The life of a cache entry *)

Module EntryFacts.

Import ReportFetcher ResFacts LoopTerms FetchFacts CacheFacts.

Section WithHost.

Context `{Host}.

(** A call that does not find a fresh entry and gets an answer from the
    upstream leaves a trace. *)
Lemma miss_leaves_trace (reportCache : gmap string CacheEntry)
    (now stored : Z) (io : IO) (script : list IO)
    (report endpoint tenant : string) (params : Params) :
  lookupEndpoint report = Some endpoint ->
  cacheLookup reportCache (makeCacheKey report tenant params) now = None ->
  events (fetchReport reportCache now (io :: script) stored report tenant
            params) <> [].
Proof.
  intros Hep Hmiss.
  rewrite (fetchReport_miss _ _ _ _ _ _ endpoint _ Hep Hmiss).
  rewrite (fetchLoop_cons endpoint tenant params io script loopInit eq_refl).
  assert (Hpass : forall evs,
             passEvents endpoint tenant params loopInit io ++ evs <> [])
    by (intros evs; destruct io; discriminate).
  destruct (classify params io) as [e|n|n r].
  - cbn [attempt loopInit Nat.eqb].
    destruct (fst (fetchLoop endpoint tenant params script (bump loopInit)));
      cbn [events]; try (rewrite <- app_assoc; apply Hpass).
    destruct (postProcess report (out st)); cbn [events];
      rewrite <- app_assoc; apply Hpass.
  - destruct (fst (fetchLoop endpoint tenant params script
                     (advance loopInit n))); cbn [events]; try apply Hpass.
    destruct (postProcess report (out st)); cbn [events]; apply Hpass.
  - destruct (postProcess report _); cbn [events];
      rewrite <- (app_nil_r (passEvents _ _ _ _ _)); apply Hpass.
Qed.

Lemma lookup_expired (reportCache : gmap string CacheEntry)
    (key : string) (stored now : Z) (rows : list JsVal) :
  stored + CACHE_TTL <= now ->
  cacheLookup (<[key := {| expires := stored + CACHE_TTL; data := rows |}]>
                 reportCache) key now = None.
Proof.
  intros Hold. unfold cacheLookup. rewrite lookup_insert_eq. cbn [expires data].
  replace (now <? stored + CACHE_TTL) with false
    by (symmetry; apply Z.ltb_ge; exact Hold).
  reflexivity.
Qed.

End WithHost.

(** X4: rows stored by a call are served for exactly 300000 ms: a later
    call for the same report, tenant and window that has an upstream to
    talk to stays silent (no token request, no GET) if and only if it
    comes less than 300000 ms after the store. *)
Theorem entry_served_until_expiry `{Host}
    (reportCache : gmap string CacheEntry) (now stored now' stored' : Z)
    (script script' : list IO) (io : IO) (report tenant : string)
    (params params' : Params) (rows : list JsVal) (next : JsVal) :
  outcome (fetchReport reportCache now script stored report tenant params)
  = Return (RowsNext rows next) ->
  startDate params' = startDate params -> endDate params' = endDate params ->
  let cache' := cacheAfter (fetchReport reportCache now script stored report
                              tenant params) in
  events (fetchReport cache' now' (io :: script') stored' report tenant params')
  = [] <-> now' < stored + CACHE_TTL.
Proof.
  intros Hret Hs He cache'.
  destruct (returned_object_is_stored _ _ _ _ _ _ _ _ _ Hret) as [Hstore [ep Hep]].
  pose proof (key_ignores_cursor report tenant params' params Hs He) as Hkey.
  split.
  - intros Hsilent. destruct (Z.lt_ge_cases now' (stored + CACHE_TTL)) as [|Hold];
      [assumption|].
    exfalso. revert Hsilent.
    apply (miss_leaves_trace cache' now' stored' io script' report ep tenant
             params' Hep).
    subst cache'. rewrite Hstore, Hkey. apply lookup_expired. exact Hold.
  - intros Hfresh.
    rewrite (fetchReport_hit cache' now' stored' (io :: script') report tenant
               ep params' rows Hep); [reflexivity|].
    subst cache'. rewrite Hstore, Hkey. apply lookup_after_store. exact Hfresh.
Qed.

Lemma entry_served_until_expiry_witness :
  events (fetchReport (H := Sample.host)
            (cacheAfter (fetchReport (H := Sample.host) ∅ 0
                           [GetReturns Sample.rowsBody] 10 "cdrs" "acme"
                           Sample.sampleParams))
            300010 [GetReturns Sample.secondBody] 300020 "cdrs" "acme"
            Sample.cursorParams)
  = [] <-> 300010 < 10 + CACHE_TTL.
Proof.
  apply (entry_served_until_expiry (H := Sample.host) ∅ 0 10 300010 300020
           [GetReturns Sample.rowsBody] [] (GetReturns Sample.secondBody)
           "cdrs" "acme" Sample.sampleParams Sample.cursorParams
           [Sample.processed "a"; Sample.processed "b"] (JStr "k2"));
    reflexivity.
Defined.

(** X5: a call writes at most the entry of its own key, and only when it
    hands back rows fetched from the upstream: a hit, an error, an
    unknown report or a pending call leave the cache as it was, and no
    call ever removes an entry, expired or not. *)
Theorem cache_only_grows `{Host} (reportCache : gmap string CacheEntry)
    (now stored : Z) (script : list IO) (report tenant : string)
    (params : Params) :
  let run := fetchReport reportCache now script stored report tenant params in
  ((forall rows next, outcome run <> Return (RowsNext rows next)) ->
   cacheAfter run = reportCache)
  /\ (forall key, key <> makeCacheKey report tenant params ->
                  cacheAfter run !! key = reportCache !! key)
  /\ (forall key, is_Some (reportCache !! key) ->
                  is_Some (cacheAfter run !! key)).
Proof.
  intros run.
  assert (Hcases : cacheAfter run = reportCache
                   \/ exists rows next,
                        outcome run = Return (RowsNext rows next)
                        /\ cacheAfter run
                           = <[makeCacheKey report tenant params :=
                                 {| expires := stored + CACHE_TTL;
                                    data := rows |}]> reportCache).
  { subst run. unfold fetchReport.
    destruct (lookupEndpoint report) as [ep|]; [|left; reflexivity].
    destruct (cacheLookup _ _ _); [left; reflexivity|].
    destruct (fetchLoop ep tenant params script loopInit) as [[st|e|] evs];
      [|left; reflexivity..].
    destruct (postProcess report (out st)) as [rows|e]; [|left; reflexivity].
    right. exists rows, (nextStartKey st). split; reflexivity. }
  split; [|split].
  - intros Hnot. destruct Hcases as [Heq|(rows & next & Hout & _)];
      [exact Heq | destruct (Hnot rows next Hout)].
  - intros key Hne. destruct Hcases as [->|(rows & next & _ & ->)];
      [reflexivity|].
    apply lookup_insert_ne. congruence.
  - intros key Hin. destruct Hcases as [->|(rows & next & _ & ->)];
      [exact Hin|].
    destruct (decide (makeCacheKey report tenant params = key)) as [<-|Hne].
    + rewrite lookup_insert_eq. eauto.
    + rewrite lookup_insert_ne by exact Hne. exact Hin.
Qed.

End EntryFacts.

(** ** Rows after post-processing *)

Module ColumnFacts.

Import ReportFetcher ResFacts RowTerms ColumnTerms PostFacts FetchFacts.

(** Membership and inclusion of explicit lists of property names. *)
Ltac names := apply (bool_decide_unpack _); vm_compute; exact I.

Lemma mapM_Forall2 {A B} (f : A -> Res B) (l : list A) (l' : list B) :
  mapM f l = Ok l' -> Forall2 (fun x y => f x = Ok y) l l'.
Proof.
  revert l'. induction l as [|x l IH]; intros l'; cbn [mapM bind].
  - intros [= <-]. constructor.
  - destruct (f x) as [y|e] eqn:Hfx; cbn [bind]; [|discriminate].
    destruct (mapM f l) as [ys|e]; cbn [bind]; [|discriminate].
    intros [= <-]. constructor; [exact Hfx | apply IH; reflexivity].
Qed.

Lemma mapM_throw {A B} (f : A -> Res B) (l : list A) (e : JsVal) :
  mapM f l = Throw e -> exists x, x ∈ l /\ f x = Throw e.
Proof.
  induction l as [|x l IH]; cbn [mapM bind]; [discriminate|].
  destruct (f x) as [y|e'] eqn:Hfx; cbn [bind].
  - destruct (mapM f l) as [ys|e']; cbn [bind]; [discriminate|].
    intros [= ->]. destruct (IH eq_refl) as (x' & Hin & Hx').
    exists x'. split; [right; exact Hin | exact Hx'].
  - intros [= ->]. exists x. split; [left | exact Hfx].
Qed.

Lemma mapM_ok_each {A B} (f : A -> Res B) (l : list A) (l' : list B) (x : A) :
  mapM f l = Ok l' -> x ∈ l -> exists y, f x = Ok y.
Proof.
  intros Hm Hin. apply mapM_Forall2 in Hm.
  induction Hm as [|a b l l' Hab _ IH]; [inversion Hin|].
  apply elem_of_cons in Hin as [->|Hin]; [eauto | apply IH, Hin].
Qed.

(** Rows related step by step are related end to end. *)
Lemma Forall2_step {A} (P Q R : A -> A -> Prop) (l1 l2 l3 : list A) :
  (forall a b c, P a b -> Q b c -> R a c) ->
  Forall2 P l1 l2 -> Forall2 Q l2 l3 -> Forall2 R l1 l3.
Proof.
  intros HR H12. revert l3. induction H12 as [|a b l l' Hab _ IH]; intros l3 H23.
  - inversion H23. constructor.
  - inversion H23 as [|b' c l2' l3' Hbc Hrest]; subst.
    constructor; [eapply HR; eassumption | apply IH, Hrest].
Qed.

Lemma Forall2_right {A} (P : A -> A -> Prop) (Q : A -> Prop) (l l' : list A) :
  Forall2 P l l' -> (forall x y, P x y -> Q y) -> Forall Q l'.
Proof. induction 1; intros HQ; constructor; eauto. Qed.

Lemma sameExcept_refl (ks : list string) (r : JsVal) : sameExcept ks r r.
Proof. intros k _. reflexivity. Qed.

Lemma sameExcept_trans (ks ks' : list string) (a b c : JsVal) :
  sameExcept ks a b -> sameExcept ks' b c -> sameExcept (ks ++ ks') a c.
Proof.
  intros H1 H2 k Hk. rewrite (H2 k), (H1 k); [reflexivity|..];
    intros Hin; apply Hk; apply elem_of_app; auto.
Qed.

Lemma sameExcept_weaken (ks ks' : list string) (a b : JsVal) :
  ks ⊆ ks' -> sameExcept ks a b -> sameExcept ks' a b.
Proof. intros Hsub H1 k Hk. apply H1. intros Hin. apply Hk, Hsub, Hin. Qed.

Lemma set_sameExcept (r r' : JsVal) (k : string) (v : JsVal) :
  set r k v = Ok r' -> sameExcept [k] r r'.
Proof.
  intros Hset k' Hk'. apply (set_other _ _ _ _ _ Hset).
  intros ->. apply Hk'. left.
Qed.

Section WithHost.

Context `{Host}.

Lemma addExtension_spec (report : string) (r r' : JsVal) :
  addExtension report r = Ok r' ->
  sameExcept ["Extension"] r r'
  /\ (truthy (getOpt r' "Extension") = true \/ getOpt r' "Extension" = JStr "").
Proof.
  unfold addExtension. intros Hb. apply bind_ok in Hb as (ext & Hext & Hset).
  split; [apply (set_sameExcept _ _ _ _ Hset)|].
  rewrite (set_same _ _ _ _ Hset).
  assert (Hor : forall e, truthy (or e (JStr "")) = true \/ or e (JStr "") = JStr "")
    by (intros e; unfold or; destruct (truthy e) eqn:He; auto).
  destruct (String.eqb report "campaignsActivity").
  - apply bind_ok in Hext as (e & _ & [= <-]). apply Hor.
  - destruct (isQueue report); [|injection Hext as <-; auto].
    apply bind_ok in Hext as (h & _ & Hext).
    destruct h as [| | | | | |[|h0 l] ps|]; try (injection Hext as <-; auto).
    apply bind_ok in Hext as (e & _ & [= <-]). apply Hor.
Qed.

Lemma addCountry_spec (report : string) (r r' : JsVal) :
  addCountry report r = Ok r' ->
  sameExcept ["Country"] r r' /\ exists s, getOpt r' "Country" = JStr s.
Proof.
  unfold addCountry. intros Hb. apply bind_ok in Hb as (c & Hc & Hset).
  split; [apply (set_sameExcept _ _ _ _ Hset)|].
  rewrite (set_same _ _ _ _ Hset).
  assert (Hor : forall v, exists s, or (countryOf v) (JStr "") = JStr s).
  { intros v. unfold or, countryOf. destruct (truthy _); eauto. }
  destruct (String.eqb report "campaignsActivity");
    [apply bind_ok in Hc as (n & _ & [= <-]); apply Hor|].
  destruct (String.eqb report "queueCalls");
    [apply bind_ok in Hc as (n & _ & [= <-]); apply Hor|].
  destruct (String.eqb report "queueOutboundCalls");
    [apply bind_ok in Hc as (n & _ & [= <-]); apply Hor|].
  destruct (String.eqb report "cdrs"); [|injection Hc as <-; eauto].
  apply bind_ok in Hc as (n & _ & [= <-]).
  unfold or, countryOf.
  repeat match goal with
         | |- context [if ?c then _ else _] => destruct c
         end; eauto.
Qed.

Lemma deriveDurations_spec (r r' : JsVal) :
  deriveDurations r = Ok r' ->
  sameExcept ["talked_duration"; "wait_duration"] r r'.
Proof.
  unfold deriveDurations. intros Hb.
  apply bind_ok in Hb as (td & _ & Hb).
  apply bind_ok in Hb as (r1 & H1 & Hb).
  assert (E1 : sameExcept ["talked_duration"] r r1).
  { destruct (negb (truthy td) && truthy (getOpt r "hangup_time")
              && truthy (getOpt r "answered_time")).
    - apply (set_sameExcept _ _ _ _ H1).
    - injection H1 as <-. apply sameExcept_refl. }
  assert (E2 : sameExcept ["wait_duration"] r1 r').
  { destruct (negb (truthy (getOpt r1 "wait_duration"))
              && truthy (getOpt r "called_time"));
      [|injection Hb as <-; apply sameExcept_refl].
    destruct (truthy (getOpt r "answered_time")).
    - apply (set_sameExcept _ _ _ _ Hb).
    - destruct (truthy (getOpt r "hangup_time")).
      + apply (set_sameExcept _ _ _ _ Hb).
      + injection Hb as <-. apply sameExcept_refl. }
  apply (sameExcept_trans _ _ _ _ _ E1 E2).
Qed.

Lemma deriveAbandoned_spec (r r' : JsVal) :
  deriveAbandoned r = Ok r' -> sameExcept ["abandoned"] r r' /\ flagged r'.
Proof.
  unfold deriveAbandoned. intros Hb. apply bind_ok in Hb as (a & _ & Hset).
  split; [apply (set_sameExcept _ _ _ _ Hset)|].
  unfold flagged. rewrite (set_same _ _ _ _ Hset).
  destruct a; [left | right]; reflexivity.
Qed.

Lemma truncateQueueHistory_spec (r r' : JsVal) :
  truncateQueueHistory r = Ok r' -> sameExcept ["queue_history"] r r'.
Proof.
  unfold truncateQueueHistory. intros Hb. apply bind_ok in Hb as (q & _ & Hq).
  destruct q as [| | | | | |[|q0 [|q1 l]] ps|];
    try (injection Hq as <-; apply sameExcept_refl).
  apply (set_sameExcept _ _ _ _ Hq).
Qed.

Lemma hasColumns_kept (ks : list string) (r r' : JsVal) :
  "Country" ∉ ks -> "Extension" ∉ ks ->
  sameExcept ks r r' -> hasColumns r -> hasColumns r'.
Proof.
  intros Hc He Hsame [[s Hs] Hx]. unfold hasColumns.
  rewrite (Hsame "Country" Hc), (Hsame "Extension" He). eauto.
Qed.

Lemma firstRowsFrom_subset (out : list JsVal) :
  forall seen fr : list JsVal,
  firstRowsFrom seen out = Ok fr -> forall r, r ∈ fr -> r ∈ out.
Proof.
  induction out as [|r0 out IH]; intros seen fr; cbn [firstRowsFrom bind].
  - intros [= <-] r Hin. exact Hin.
  - destruct (get r0 "call_id") as [id|e]; cbn [bind]; [|discriminate].
    destruct (negb (truthy id)).
    + destruct (firstRowsFrom seen out) as [rs|e] eqn:Hrs; cbn [bind];
        [|discriminate].
      intros [= <-] r Hin. apply elem_of_cons in Hin as [->|Hin];
        [left | right; eapply IH; eassumption].
    + destruct (existsb (sameValueZero id) seen).
      * intros Hfr r Hin. right. eapply IH; eassumption.
      * destruct (firstRowsFrom (id :: seen) out) as [rs|e] eqn:Hrs;
          cbn [bind]; [|discriminate].
        intros [= <-] r Hin. apply elem_of_cons in Hin as [->|Hin];
          [left | right; eapply IH; eassumption].
Qed.

(** The first three steps, row by row. *)
Lemma prepared (report : string) (out o3 : list JsVal) :
  (let! o1 := mapM (addExtension report) out in
   let! o2 := mapM (addCountry report) o1 in
   if isQueue report then mapM deriveDurations o2 else Ok o2) = Ok o3 ->
  Forall2 (fun r r' => sameUpstream r r' /\ hasColumns r') out o3.
Proof.
  intros Hb.
  apply bind_ok in Hb as (o1 & H1 & Hb).
  apply bind_ok in Hb as (o2 & H2 & H3).
  apply mapM_Forall2 in H1, H2.
  assert (H12 : Forall2 (fun r r' => sameUpstream r r' /\ hasColumns r') out o2).
  { apply (Forall2_step _ _ _ out o1 o2) with (2 := H1) (3 := H2).
    intros a b c Hab Hbc.
    apply addExtension_spec in Hab as [Sab Xb].
    apply addCountry_spec in Hbc as [Sbc Cc].
    split.
    - apply (sameExcept_weaken (["Extension"] ++ ["Country"]));
        [names|].
      eapply sameExcept_trans; eassumption.
    - split; [exact Cc|]. rewrite (Sbc "Extension"); [exact Xb|].
      names. }
  destruct (isQueue report); [|injection H3 as <-; exact H12].
  apply mapM_Forall2 in H3.
  apply (Forall2_step _ _ _ out o2 o3) with (2 := H12) (3 := H3).
  intros a b c [Sab Cb] Hbc. apply deriveDurations_spec in Hbc.
  split.
  - apply (sameExcept_weaken (derived ++ ["talked_duration"; "wait_duration"]));
      [names|].
    eapply sameExcept_trans; eassumption.
  - apply (hasColumns_kept _ b c) with (3 := Hbc); [names..|exact Cb].
Qed.

Lemma postProcess_steps (report : string) (out rows : list JsVal) :
  postProcess report out = Ok rows ->
  exists o3,
    Forall2 (fun r r' => sameUpstream r r' /\ hasColumns r') out o3
    /\ if String.eqb report "queueCalls"
       then exists firstRows,
              firstRowsFrom [] o3 = Ok firstRows
              /\ mapM deriveAbandoned firstRows = Ok rows
       else if String.eqb report "queueOutboundCalls"
       then mapM truncateQueueHistory o3 = Ok rows
       else rows = o3.
Proof.
  unfold postProcess. intros Hb.
  destruct (let! o1 := mapM (addExtension report) out in
            let! o2 := mapM (addCountry report) o1 in
            if isQueue report then mapM deriveDurations o2 else Ok o2)
    as [o3|e] eqn:H3.
  - exists o3. split; [exact (prepared report out o3 H3)|].
    apply bind_ok in H3 as (o1 & H1 & H3). rewrite H1 in Hb. cbn [bind] in Hb.
    apply bind_ok in H3 as (o2 & H2 & H3). rewrite H2 in Hb. cbn [bind] in Hb.
    rewrite H3 in Hb. cbn [bind] in Hb.
    destruct (String.eqb report "queueCalls").
    + apply bind_ok in Hb as (fr & Hfr & Hrows). eauto.
    + destruct (String.eqb report "queueOutboundCalls");
        [exact Hb | injection Hb as <-; reflexivity].
  - exfalso.
    destruct (mapM (addExtension report) out) as [o1|e1]; cbn [bind] in *;
      [|discriminate].
    destruct (mapM (addCountry report) o1) as [o2|e2]; cbn [bind] in *;
      [|discriminate].
    rewrite H3 in Hb. discriminate.
Qed.

End WithHost.

(** X6: every row that [fetchReport] hands back from the upstream, for
    whatever report, has a [Country] that is a text and an [Extension]
    that is a truthy value or the empty text; and every row of the
    inbound-queue report has [abandoned] set to "YES" or "NO", whatever
    the upstream sent in that property. *)
Theorem result_columns `{Host} (report : string) (out rows : list JsVal) :
  postProcess report out = Ok rows ->
  Forall hasColumns rows
  /\ (report = "queueCalls" -> Forall flagged rows).
Proof.
  intros Hpost. apply postProcess_steps in Hpost as (o3 & H3 & Hrest).
  assert (Hcols : Forall hasColumns o3)
    by (apply (Forall2_right _ _ _ _ H3); intros x y [_ Hy]; exact Hy).
  destruct (String.eqb_spec report "queueCalls") as [->|Hne].
  - destruct Hrest as (fr & Hfr & Hrows). apply mapM_Forall2 in Hrows.
    assert (Hfrc : Forall hasColumns fr).
    { apply Forall_forall. intros r Hin.
      apply (proj1 (Forall_forall _ _) Hcols r).
      eapply firstRowsFrom_subset; eassumption. }
    split; [|intros _].
    + clear Hfr. induction Hrows as [|a b l l' Hab _ IH]; [constructor|].
      apply Forall_cons in Hfrc as [Ha Hl].
      constructor; [|apply IH, Hl].
      apply deriveAbandoned_spec in Hab as [Sab _].
      apply (hasColumns_kept _ a b) with (3 := Sab); [names..|exact Ha].
    + apply (Forall2_right _ _ _ _ Hrows). intros x y Hxy.
      apply (deriveAbandoned_spec _ _ Hxy).
  - split; [|intros Heq; congruence].
    destruct (String.eqb report "queueOutboundCalls"); [|subst rows; exact Hcols].
    apply mapM_Forall2 in Hrest. clear H3.
    induction Hrest as [|a b l l' Hab _ IH]; [constructor|].
    apply Forall_cons in Hcols as [Ha Hl].
    constructor; [|apply IH, Hl].
    apply truncateQueueHistory_spec in Hab.
    apply (hasColumns_kept _ a b) with (3 := Hab); [names..|exact Ha].
Qed.

Lemma result_columns_witness :
  Forall hasColumns [Sample.processed "a"; Sample.processed "b"]
  /\ ("cdrs" = "queueCalls" ->
      Forall flagged [Sample.processed "a"; Sample.processed "b"]).
Proof.
  apply (result_columns (H := Sample.host) "cdrs"
           [Sample.sampleRow "a"; Sample.sampleRow "b"]).
  reflexivity.
Defined.

(** X7: for every report but the inbound-queue one, post-processing
    keeps the rows of the page one for one and in their order, and each
    differs from the row the upstream sent in the derived properties
    only ([Extension], [Country], the two durations, [queue_history]). *)
Theorem rows_pass_through `{Host} (report : string) (out rows : list JsVal) :
  report <> "queueCalls" ->
  postProcess report out = Ok rows ->
  Forall2 sameUpstream out rows.
Proof.
  intros Hne Hpost. apply postProcess_steps in Hpost as (o3 & H3 & Hrest).
  apply String.eqb_neq in Hne. rewrite Hne in Hrest.
  assert (H3' : Forall2 sameUpstream out o3).
  { eapply Forall2_impl; [exact H3|]. intros x y [Hxy _]. exact Hxy. }
  destruct (String.eqb report "queueOutboundCalls"); [|subst rows; exact H3'].
  apply mapM_Forall2 in Hrest.
  apply (Forall2_step _ _ _ out o3 rows) with (2 := H3') (3 := Hrest).
  intros a b c Sab Hbc. apply truncateQueueHistory_spec in Hbc.
  apply (sameExcept_weaken (derived ++ ["queue_history"]));
    [names|].
  eapply sameExcept_trans; eassumption.
Qed.

Lemma rows_pass_through_witness :
  Forall2 sameUpstream [Sample.sampleRow "a"; Sample.sampleRow "b"]
    [Sample.processed "a"; Sample.processed "b"].
Proof.
  apply (rows_pass_through (H := Sample.host) "cdrs");
    [discriminate | reflexivity].
Defined.

End ColumnFacts.

(** ** Rows that are not objects, and derived durations *)

Module RowFacts.

Import ReportFetcher ResFacts RowTerms ColumnTerms PostFacts FetchFacts
  ColumnFacts.

Section WithHost.

Context `{Host}.

Lemma addExtension_throws (report : string) (r e : JsVal) :
  addExtension report r = Throw e -> e = TypeError.
Proof.
  unfold addExtension, get, set.
  destruct (String.eqb report "campaignsActivity").
  - destruct (isNullish r); cbn [bind]; [intros [= <-]; reflexivity|].
    destruct r; cbn [bind]; try discriminate; intros [= <-]; reflexivity.
  - destruct (isQueue report).
    + destruct (isNullish r); cbn [bind]; [intros [= <-]; reflexivity|].
      destruct (getOpt r "agent_history") as [| | | | | |[|h0 l] ps|];
        cbn [bind];
        try (destruct r; cbn [bind]; try discriminate;
             intros [= <-]; reflexivity).
      destruct (isNullish h0); cbn [bind]; [intros [= <-]; reflexivity|].
      destruct r; cbn [bind]; try discriminate; intros [= <-]; reflexivity.
    + cbn [bind]. destruct r; try discriminate; intros [= <-]; reflexivity.
Qed.

Lemma addExtension_prim (report : string) (r : JsVal) :
  isPrim r = true -> addExtension report r = Throw TypeError.
Proof.
  intros Hp. destruct (addExtension report r) as [r'|e] eqn:Hx.
  - unfold addExtension in Hx. apply bind_ok in Hx as (ext & _ & Hset).
    destruct r; try discriminate.
  - f_equal. apply (addExtension_throws report r e Hx).
Qed.

Lemma postProcess_prim (report : string) (out : list JsVal) (r : JsVal) :
  r ∈ out -> isPrim r = true -> postProcess report out = Throw TypeError.
Proof.
  intros Hin Hp. unfold postProcess.
  destruct (mapM (addExtension report) out) as [o1|e] eqn:H1; cbn [bind].
  - destruct (mapM_ok_each _ _ _ r H1 Hin) as [y Hy].
    rewrite (addExtension_prim report r Hp) in Hy. discriminate.
  - apply mapM_throw in H1 as (x & _ & Hx).
    rewrite (addExtension_throws report x e Hx). reflexivity.
Qed.

End WithHost.

(** X8: when the page that ends the loop holds a row that is not an
    object (null, a text, a number), the call fails with a TypeError
    raised after the loop: the failure is not retried (the trace is the
    one of the loop, without a further sleep or request) and nothing is
    cached. *)
Theorem malformed_row_fails `{Host} (reportCache : gmap string CacheEntry)
    (now stored : Z) (script : list IO) (report endpoint tenant : string)
    (params : Params) (st : Loop) (evs : list Event) (r : JsVal) :
  lookupEndpoint report = Some endpoint ->
  cacheLookup reportCache (makeCacheKey report tenant params) now = None ->
  fetchLoop endpoint tenant params script loopInit = (Done st, evs) ->
  r ∈ out st -> isPrim r = true ->
  fetchReport reportCache now script stored report tenant params
  = {| outcome := Raise TypeError; cacheAfter := reportCache; events := evs |}.
Proof.
  intros Hep Hmiss Hrun Hin Hp.
  rewrite (fetchReport_miss _ _ _ _ _ _ endpoint _ Hep Hmiss), Hrun.
  rewrite (postProcess_prim report (out st) r Hin Hp). reflexivity.
Qed.

Lemma malformed_row_fails_witness :
  fetchReport (H := Sample.host) ∅ 0
    [GetReturns (JObj [("data", jarr [Sample.sampleRow "a"; JNull])])] 10
    "cdrs" "acme" Sample.sampleParams
  = {| outcome := Raise TypeError; cacheAfter := ∅;
       events := [EvToken "acme";
                  EvGet "/api/v2/reports/cdrs" Sample.sampleParams JUndef] |}.
Proof.
  apply (malformed_row_fails (H := Sample.host) ∅ 0 10 _ "cdrs"
           "/api/v2/reports/cdrs" "acme" Sample.sampleParams
           {| attempt := 0; delay := 1000;
              out := [Sample.sampleRow "a"; JNull]; startKey := JUndef;
              nextStartKey := JNull |} _ JNull);
    [reflexivity | reflexivity | reflexivity | | reflexivity].
  right. left.
Defined.

(** X9: for a queue row whose three times are numbers other than 0, a
    duration that the upstream supplied (a truthy value) is kept, a
    missing talked duration becomes hangup minus answer and a missing
    wait duration answer minus call; with both derived, wait and talk add
    up to the time from the call to the hangup. *)
Theorem durations_derived `{Host} (fs : list (string * JsVal))
    (called answered hangup : Z) :
  let r := JObj fs in
  getOpt r "called_time" = JNum called ->
  getOpt r "answered_time" = JNum answered ->
  getOpt r "hangup_time" = JNum hangup ->
  called <> 0 -> answered <> 0 -> hangup <> 0 ->
  exists r',
    deriveDurations r = Ok r'
    /\ getOpt r' "talked_duration"
       = (if truthy (getOpt r "talked_duration")
          then getOpt r "talked_duration" else JNum (hangup - answered))
    /\ getOpt r' "wait_duration"
       = (if truthy (getOpt r "wait_duration")
          then getOpt r "wait_duration" else JNum (answered - called))
    /\ (truthy (getOpt r "talked_duration") = false ->
        truthy (getOpt r "wait_duration") = false ->
        exists talk wait,
          getOpt r' "talked_duration" = JNum talk
          /\ getOpt r' "wait_duration" = JNum wait
          /\ wait + talk = hangup - called).
Proof.
  intros r Hc Ha Hh Hc0 Ha0 Hh0.
  assert (Ht : forall n, n <> 0 -> truthy (JNum n) = true).
  { intros n Hn. cbn. apply negb_true_iff, Z.eqb_neq, Hn. }
  unfold deriveDurations, get. cbn [isNullish r bind].
  fold r. rewrite Hc, Ha, Hh, !Ht by assumption.
  rewrite !andb_true_r. cbn [minus toNumber].
  destruct (truthy (getOpt r "talked_duration")) eqn:Htd; cbn [negb bind].
  - destruct (truthy (getOpt r "wait_duration")) eqn:Hwd; cbn [negb].
    + exists r. repeat split; try reflexivity. discriminate.
    + eexists. split; [reflexivity|]. cbn [getOpt].
      rewrite assoc_assocSet_eq, assoc_assocSet_ne by discriminate.
      repeat split; try reflexivity. discriminate.
  - unfold r at 1. cbn [set bind].
    assert (Hw : getOpt (JObj (assocSet "talked_duration"
                                 (JNum (hangup - answered)) fs))
                   "wait_duration" = getOpt r "wait_duration").
    { cbn [getOpt r]. rewrite assoc_assocSet_ne by discriminate. reflexivity. }
    rewrite Hw.
    destruct (truthy (getOpt r "wait_duration")) eqn:Hwd; cbn [negb].
    + eexists. split; [reflexivity|]. rewrite Hw. cbn [getOpt].
      rewrite assoc_assocSet_eq. repeat split; try reflexivity. discriminate.
    + eexists. split; [reflexivity|]. cbn [getOpt].
      rewrite assoc_assocSet_eq, assoc_assocSet_ne, assoc_assocSet_eq
        by discriminate.
      repeat split; try reflexivity.
      intros _ _. exists (hangup - answered), (answered - called).
      repeat split. lia.
Qed.

Lemma durations_derived_witness :
  exists r',
    deriveDurations (H := Sample.host)
      (JObj [("called_time", JNum 1700000000);
             ("answered_time", JNum 1700000005);
             ("hangup_time", JNum 1700000065)]) = Ok r'
    /\ getOpt r' "talked_duration" = JNum 60
    /\ getOpt r' "wait_duration" = JNum 5.
Proof.
  destruct (durations_derived (H := Sample.host)
              [("called_time", JNum 1700000000);
               ("answered_time", JNum 1700000005);
               ("hangup_time", JNum 1700000065)]
              1700000000 1700000005 1700000065
              eq_refl eq_refl eq_refl ltac:(lia) ltac:(lia) ltac:(lia))
    as (r' & Hrun & Htalk & Hwait & _).
  exists r'. split; [exact Hrun|]. split; [exact Htalk | exact Hwait].
Defined.

End RowFacts.

(** ** More on the country heuristic *)

Module NumberFacts.

Import ReportFetcher.

#[local] Arguments String.append : simpl nomatch.

Lemma filter_pass (p : ascii -> bool) (s : string) :
  Forall (fun c => p c = true) (list_ascii_of_string s) -> Str.filter p s = s.
Proof.
  induction s as [|c s IH]; cbn; [reflexivity|].
  intros Hall. apply Forall_cons in Hall as [Hc Hs].
  rewrite Hc, (IH Hs). reflexivity.
Qed.

Lemma filter_holds (p : ascii -> bool) (s : string) :
  Forall (fun c => p c = true) (list_ascii_of_string (Str.filter p s)).
Proof.
  induction s as [|c s IH]; cbn; [constructor|].
  destruct (p c) eqn:Hc; [constructor; assumption | exact IH].
Qed.

Lemma strip_holds (P : ascii -> Prop) (s : string) :
  Forall P (list_ascii_of_string s) ->
  Forall P (list_ascii_of_string (Str.stripLeadingZeros s)).
Proof.
  induction s as [|c s IH]; cbn [Str.stripLeadingZeros]; [auto|].
  intros Hall. cbn in Hall. apply Forall_cons in Hall as [Hc Hs].
  destruct (Ascii.eqb_spec c "0"%char) as [->|Hne]; [apply IH, Hs|].
  replace (match c with
           | "0"%char => Str.stripLeadingZeros s
           | _ => String c s
           end) with (String c s).
  - cbn. constructor; assumption.
  - destruct c as [[] [] [] [] [] [] [] []]; try reflexivity. congruence.
Qed.

Lemma strip_no_zero (s : string) :
  Str.startsWith (Str.stripLeadingZeros s) "0" = false.
Proof.
  induction s as [|c s IH]; [reflexivity|].
  destruct (Ascii.eqb_spec c "0"%char) as [->|Hne]; [exact IH|].
  replace (Str.stripLeadingZeros (String c s)) with (String c s)
    by (destruct c as [[] [] [] [] [] [] [] []]; try reflexivity; congruence).
  unfold Str.startsWith. cbn [String.prefix].
  destruct (ascii_dec "0"%char c) as [<-|_]; [congruence | reflexivity].
Qed.

Lemma strip_fixed (s : string) :
  Str.startsWith s "0" = false -> Str.stripLeadingZeros s = s.
Proof.
  destruct s as [|c s]; [reflexivity|]. unfold Str.startsWith. cbn [String.prefix].
  destruct (ascii_dec "0"%char c) as [<-|Hne].
  - destruct s; discriminate.
  - intros _. destruct c as [[] [] [] [] [] [] [] []]; try reflexivity.
    congruence.
Qed.

Lemma plus_not_zero (s : string) :
  Str.startsWith s "+" = true -> Str.startsWith s "0" = false.
Proof.
  destruct s as [|c s]; [discriminate|]. unfold Str.startsWith. cbn [String.prefix].
  destruct (ascii_dec "+"%char c) as [<-|_]; [|discriminate].
  reflexivity.
Qed.

Lemma cleanNumber_no_zero (p : string) :
  Str.startsWith (cleanNumber p) "0" = false.
Proof.
  unfold cleanNumber.
  destruct (Str.startsWith (Str.filter _ p) "+") eqn:Hplus.
  - apply plus_not_zero, Hplus.
  - apply strip_no_zero.
Qed.

Lemma cleanNumber_idempotent (p : string) :
  cleanNumber (cleanNumber p) = cleanNumber p.
Proof.
  assert (Hkeep : Str.filter (fun ch => Str.isDigit ch || Ascii.eqb ch "+"%char)
                    (cleanNumber p) = cleanNumber p).
  { apply filter_pass. unfold cleanNumber.
    destruct (Str.startsWith _ "+"); [|apply strip_holds]; apply filter_holds. }
  unfold cleanNumber at 1. rewrite Hkeep.
  destruct (Str.startsWith (cleanNumber p) "+"); [reflexivity|].
  apply strip_fixed, cleanNumber_no_zero.
Qed.

Lemma prefix_zero (s : string) :
  Str.startsWith s "0" = false -> Str.startsWith s "00" = false.
Proof.
  destruct s as [|c s]; [reflexivity|]. unfold Str.startsWith. cbn [String.prefix].
  destruct (ascii_dec "0"%char c); [destruct s; discriminate | reflexivity].
Qed.

(** X10: the country of a number depends on its cleaned form only:
    spaces, dashes, brackets and leading zeros change nothing, and
    cleaning twice is cleaning once. *)
Theorem country_of_cleaned `{Host} (p : string) :
  cleanNumber (cleanNumber p) = cleanNumber p
  /\ extractCountryFromPhoneNumber (JStr p)
     = extractCountryFromPhoneNumber (JStr (cleanNumber p)).
Proof.
  split; [apply cleanNumber_idempotent|].
  unfold extractCountryFromPhoneNumber. rewrite cleanNumber_idempotent.
  destruct (String.eqb_spec p "") as [->|Hp].
  - reflexivity.
  - destruct (String.eqb_spec (cleanNumber p) "") as [->|Hc]; reflexivity.
Qed.

(** X11: a cleaned number of 10 or 11 characters that starts with 1 is
    reported as "UK" without the library being consulted; the later rule
    for 10-character numbers starting with 10 ("Egypt") is never
    reached. *)
Theorem one_prefix_is_uk `{Host} (p : string) :
  String.length (cleanNumber p) = 10%nat \/ String.length (cleanNumber p) = 11%nat ->
  Str.startsWith (cleanNumber p) "1" = true ->
  extractCountryFromPhoneNumber (JStr p) = "UK".
Proof.
  intros Hlen Hone. unfold extractCountryFromPhoneNumber.
  destruct (String.eqb_spec p "") as [->|_];
    [destruct Hlen; discriminate|].
  destruct (cleanNumber p) as [|c s]; [discriminate|].
  unfold Str.startsWith in *. cbn [String.prefix] in Hone.
  destruct (ascii_dec "1"%char c) as [<-|_]; [|discriminate].
  cbn [String.length] in *.
  destruct s as [|c' s]; [destruct Hlen; discriminate|].
  destruct Hlen as [Hlen|Hlen]; injection Hlen as Hlen; cbn [String.length];
    rewrite Hlen; reflexivity.
Qed.

Lemma one_prefix_is_uk_witness :
  extractCountryFromPhoneNumber (H := Sample.host) (JStr "010-1234-5678") = "UK".
Proof.
  apply (one_prefix_is_uk (H := Sample.host) "010-1234-5678");
    [left; reflexivity | reflexivity].
Defined.

(** X12: the text given to the phone library never starts with 0: the
    two branches that turn a leading 00 or 0 into a plus sign are never
    taken, and a cleaned number gets a plus sign in front exactly when it
    has none and is longer than 10 characters. *)
Theorem parsed_text `{Host} (p : string) :
  Str.startsWith (cleanNumber p) "0" = false
  /\ prefixForParse (cleanNumber p)
     = (if negb (Str.startsWith (cleanNumber p) "+")
           && (10 <? String.length (cleanNumber p))%nat
        then "+" +:+ cleanNumber p else cleanNumber p)
  /\ Str.startsWith (prefixForParse (cleanNumber p)) "0" = false.
Proof.
  pose proof (cleanNumber_no_zero p) as Hz.
  assert (Hp : prefixForParse (cleanNumber p)
               = (if negb (Str.startsWith (cleanNumber p) "+")
                     && (10 <? String.length (cleanNumber p))%nat
                  then "+" +:+ cleanNumber p else cleanNumber p)).
  { unfold prefixForParse. rewrite (prefix_zero _ Hz), Hz. reflexivity. }
  split; [exact Hz|]. split; [exact Hp|].
  rewrite Hp. destruct (negb _ && _); [reflexivity | exact Hz].
Qed.

End NumberFacts.

(** ** The report endpoint *)

Module EndpointFacts.

Import ReportFetcher Server ResFacts LoopTerms FetchFacts CacheFacts PostFacts.

Lemma rowLimit_bounds (q : Query) :
  rowLimit q <= 1000
  /\ (forall n, limit q = Some n -> 0 < n <= 1000 -> rowLimit q = n)
  /\ (limit q = None \/ limit q = Some 0 -> rowLimit q = 1000).
Proof.
  unfold rowLimit. split; [lia|]. split.
  - intros n -> Hn. replace (n =? 0) with false
      by (symmetry; apply Z.eqb_neq; lia). lia.
  - intros [->| ->]; reflexivity.
Qed.

Section WithHost.

Context `{Host}.

(** The rows of a call that went upstream with a positive limit. *)
Lemma upstream_rows_capped (reportCache : gmap string CacheEntry)
    (now stored : Z) (script : list IO) (report tenant : string)
    (params : Params) (m : Z) (rows : list JsVal) (next : JsVal) :
  maxRows params = Some m -> 0 < m ->
  outcome (fetchReport reportCache now script stored report tenant params)
  = Return (RowsNext rows next) ->
  Z.of_nat (length rows) <= m.
Proof.
  intros Hm Hpos Hret.
  apply fetchReport_object in Hret as (ep & st & evs & _ & _ & Hrun & Hpost & _).
  apply postProcess_length in Hpost.
  destruct (done_inv ep tenant params script loopInit st evs fresh_init Hrun)
    as (pre & io & post & _ & _ & _ & Hfin & _).
  apply classify_final, last_page_inv in Hfin
    as (payload & records & _ & _ & Hrows & _).
  rewrite (capped_limit params m records Hm Hpos) in Hrows.
  assert (Hlen : (length (out st) <= Z.to_nat m)%nat)
    by (rewrite Hrows, length_take; lia).
  lia.
Qed.

Lemma served_read (fs : list (string * JsVal)) (h v : JsVal) :
  getOpt (JObj (assocSet "agent_history" h (assocSet "answered_time" v fs)))
    "answered_time" = v.
Proof.
  cbn [getOpt]. rewrite assoc_assocSet_ne by discriminate.
  rewrite assoc_assocSet_eq. reflexivity.
Qed.

Lemma processRow_spec (fs : list (string * JsVal)) (row' : JsVal) :
  processRow (JObj fs) = Ok row' ->
  isNullish (getOpt row' "answered_time") = false
  /\ (truthy (getOpt (JObj fs) "answered_time") = true ->
      getOpt row' "answered_time" = getOpt (JObj fs) "answered_time")
  /\ forall k, k <> "answered_time" -> k <> "agent_history" ->
               getOpt row' k = getOpt (JObj fs) k.
Proof.
  unfold processRow, get. cbn [isNullish bind ownEntries].
  intros Hb. apply bind_ok in Hb as (ts & Hts & [= <-]).
  rewrite served_read. split; [|split].
  - unfold nullish. destruct (isNullish ts) eqn:Hn; [reflexivity | exact Hn].
  - intros Htruthy.
    assert (Hsame : ts = getOpt (JObj fs) "answered_time").
    { match type of Hts with
      | match ?h with _ => _ end = _ => destruct h
      end; try (injection Hts as <-; reflexivity).
      rewrite Htruthy in Hts. injection Hts as <-. reflexivity. }
    rewrite Hsame. unfold nullish.
    destruct (getOpt (JObj fs) "answered_time"); try discriminate; reflexivity.
  - intros k Hk1 Hk2. cbn [getOpt].
    rewrite !assoc_assocSet_ne by congruence. reflexivity.
Qed.

End WithHost.

Lemma find_none (type : string) (l : list (string * string)) :
  List.find (fun e => String.eqb type (fst e)) l = None <-> type ∉ map fst l.
Proof.
  induction l as [|[k v] l IH]; cbn [List.find map fst].
  - split; [intros _ Hin; inversion Hin | reflexivity].
  - destruct (String.eqb_spec type k) as [->|Hne].
    + split; [discriminate | intros Hnot; destruct Hnot; left].
    + rewrite IH. split.
      * intros Hnot Hin. apply elem_of_cons in Hin as [Heq|Hin]; auto.
      * intros Hnot Hin. apply Hnot. right. exact Hin.
Qed.

(** X13: the handler answers 400 exactly when the account is missing or
    empty or a window bound cannot be read as a date, and then it neither
    reads nor writes the cache nor contacts the upstream; the report type
    is not among its checks: a request that passes them for a type with
    no endpoint is answered 500 with the text "Unknown report type: ...".
    A type has no endpoint exactly when it is neither one of the four
    report names nor the name of a property that [ENDPOINTS] inherits
    (constructor, toString, __proto__ and the like). *)
Theorem bad_request `{Host} (reportCache : gmap string CacheEntry)
    (now stored : Z) (script : list IO) (type : string) (q : Query) :
  let invalid := nonEmpty (account q) = None \/ parseBound (start q) = None
                 \/ parseBound (end_ q) = None in
  let '(resp, cache', evs) := getReport reportCache now script stored type q in
  ((exists r, resp = Some r /\ status r = 400) <-> invalid)
  /\ (invalid -> cache' = reportCache /\ evs = [])
  /\ (~ invalid -> lookupEndpoint type = None ->
      resp = Some {| status := 500;
                     body := JObj [("error",
                                    JStr ("Unknown report type: " +:+ type))] |}
      /\ cache' = reportCache /\ evs = [])
  /\ (lookupEndpoint type = None <->
      (type ∉ ["cdrs"; "queueCalls"; "queueOutboundCalls";
               "campaignsActivity"])
      /\ (type ∉ ["constructor"; "__defineGetter__"; "__defineSetter__";
                  "hasOwnProperty"; "__lookupGetter__"; "__lookupSetter__";
                  "isPrototypeOf"; "propertyIsEnumerable"; "toString";
                  "valueOf"; "__proto__"; "toLocaleString"])).
Proof.
  intros invalid. subst invalid.
  assert (Hnames : lookupEndpoint type = None <->
      (type ∉ ["cdrs"; "queueCalls"; "queueOutboundCalls";
               "campaignsActivity"])
      /\ (type ∉ ["constructor"; "__defineGetter__"; "__defineSetter__";
                  "hasOwnProperty"; "__lookupGetter__"; "__lookupSetter__";
                  "isPrototypeOf"; "propertyIsEnumerable"; "toString";
                  "valueOf"; "__proto__"; "toLocaleString"])).
  { unfold lookupEndpoint. rewrite fmap_None, find_none, map_app.
    change (map fst ENDPOINTS)
      with ["cdrs"; "queueCalls"; "queueOutboundCalls"; "campaignsActivity"].
    change (map fst inherited)
      with ["constructor"; "__defineGetter__"; "__defineSetter__";
            "hasOwnProperty"; "__lookupGetter__"; "__lookupSetter__";
            "isPrototypeOf"; "propertyIsEnumerable"; "toString";
            "valueOf"; "__proto__"; "toLocaleString"].
    rewrite not_elem_of_app. reflexivity. }
  cut (let '(resp, cache', evs) :=
         getReport reportCache now script stored type q in
       ((exists r, resp = Some r /\ status r = 400) <->
        nonEmpty (account q) = None \/ parseBound (start q) = None
        \/ parseBound (end_ q) = None)
       /\ (nonEmpty (account q) = None \/ parseBound (start q) = None
           \/ parseBound (end_ q) = None -> cache' = reportCache /\ evs = [])
       /\ (~ (nonEmpty (account q) = None \/ parseBound (start q) = None
              \/ parseBound (end_ q) = None) ->
           lookupEndpoint type = None ->
           resp = Some {| status := 500;
                          body := JObj [("error",
                                         JStr ("Unknown report type: "
                                               +:+ type))] |}
           /\ cache' = reportCache /\ evs = [])).
  { destruct (getReport reportCache now script stored type q)
      as [[resp cache'] evs].
    intros (H1 & H2 & H3). split; [exact H1|]. split; [exact H2|].
    split; [exact H3 | exact Hnames]. }
  clear Hnames. unfold getReport.
  destruct (nonEmpty (account q)) as [tenant|].
  2:{ split; [split; [auto | intros _; eexists; split; reflexivity]|].
      split; [auto|]. intros Hn. destruct Hn. auto. }
  destruct (parseBound (start q)) as [sd|].
  2:{ split; [split; [auto | intros _; eexists; split; reflexivity]|].
      split; [auto|]. intros Hn. destruct Hn. auto. }
  destruct (parseBound (end_ q)) as [ed|].
  2:{ split; [split; [auto | intros _; eexists; split; reflexivity]|].
      split; [auto|]. intros Hn. destruct Hn. auto. }
  assert (Hvalid : ~ (Some tenant = None \/ Some sd = None \/ Some ed = None))
    by (intros [|[|]]; discriminate).
  split; [|split].
  - split; [|intros Hi; destruct (Hvalid Hi)].
    intros (r & Hr & Hst). exfalso. revert Hr Hst. unfold respond.
    destruct (outcome _) as [result|err|]; [| |discriminate].
    + destruct (mapM processRow (resultRows result));
        intros [= <-]; discriminate.
    + intros [= <-]; discriminate.
  - intros Hi. destruct (Hvalid Hi).
  - intros _ Hunknown. unfold fetchReport. rewrite Hunknown.
    cbn [outcome cacheAfter events respond]. repeat split.
Qed.

(** X14: the row limit handed to the fetch client is at most 1000 (the
    limit of the request when that is between 1 and 1000, and 1000 when
    it is missing, 0 or not a number), and a 200 response that was
    fetched from the upstream with a positive limit carries at most that
    many rows. *)
Theorem response_rows_bounded `{Host} (reportCache : gmap string CacheEntry)
    (now stored : Z) (script : list IO) (type : string) (q : Query)
    (resp : Response) (cache' : gmap string CacheEntry) (evs : list Event)
    (rows : list JsVal) (next : JsVal) :
  getReport reportCache now script stored type q = (Some resp, cache', evs) ->
  status resp = 200 ->
  body resp = JObj [("data", jarr rows); ("next", next)] ->
  evs <> [] ->
  0 < rowLimit q ->
  Z.of_nat (length rows) <= rowLimit q <= 1000
  /\ (forall n, limit q = Some n -> 0 < n <= 1000 -> rowLimit q = n)
  /\ (limit q = None \/ limit q = Some 0 -> rowLimit q = 1000).
Proof.
  intros Hget Hst Hbody Hevs Hpos.
  destruct (rowLimit_bounds q) as (Hmax & Hin & Hdef).
  split; [|split; assumption]. split; [|exact Hmax].
  destruct (getReport_ok _ _ _ _ _ _ _ _ _ Hget Hst)
    as (tenant & sd & ed & result & processed & _ & _ & _ & Hrun & Hproc
        & Hbody').
  rewrite Hbody in Hbody'. injection Hbody' as -> _.
  apply mapM_length in Hproc. rewrite Hproc.
  destruct result as [cached|fetched nxt].
  - pose proof (fetchReport_array reportCache now stored script type tenant
                  (fetchParams q sd ed) cached) as Hnone.
    rewrite Hrun in Hnone. cbn [outcome events] in Hnone.
    destruct (Hevs (Hnone eq_refl)).
  - cbn [resultRows].
    apply (upstream_rows_capped reportCache now stored script type tenant
             (fetchParams q sd ed) (rowLimit q) fetched nxt eq_refl Hpos).
    rewrite Hrun. reflexivity.
Qed.

Lemma response_rows_bounded_witness :
  Z.of_nat (length [Sample.served "a"; Sample.served "b"; Sample.served "c"])
  <= rowLimit Sample.firstQuery <= 1000.
Proof.
  refine (proj1 (response_rows_bounded (H := Sample.host) ∅ 0 10
                   [GetReturns Sample.rowsBody] "cdrs" Sample.firstQuery
                   Sample.firstResponse Sample.warmCache _ _ (JStr "k2")
                   _ eq_refl eq_refl _ _)).
  - vm_compute. reflexivity.
  - discriminate.
  - vm_compute. reflexivity.
Defined.

(** X15: a row that is an object leaves the handler with all its
    properties other than [answered_time] and [agent_history] as they
    were, with a truthy [answered_time] kept, and with an [answered_time]
    that is never null or undefined (the text "--" stands for a missing
    one). *)
Theorem row_served `{Host} (fs : list (string * JsVal)) (row' : JsVal) :
  processRow (JObj fs) = Ok row' ->
  isNullish (getOpt row' "answered_time") = false
  /\ (truthy (getOpt (JObj fs) "answered_time") = true ->
      getOpt row' "answered_time" = getOpt (JObj fs) "answered_time")
  /\ forall k, k <> "answered_time" -> k <> "agent_history" ->
               getOpt row' k = getOpt (JObj fs) k.
Proof. apply processRow_spec. Qed.

Lemma row_served_witness :
  isNullish (getOpt (Sample.served "a") "answered_time") = false
  /\ (truthy (getOpt (Sample.processed "a") "answered_time") = true ->
      getOpt (Sample.served "a") "answered_time"
      = getOpt (Sample.processed "a") "answered_time")
  /\ forall k, k <> "answered_time" -> k <> "agent_history" ->
               getOpt (Sample.served "a") k = getOpt (Sample.processed "a") k.
Proof.
  apply (row_served (H := Sample.host)
           [("call_id", JStr "a"); ("caller_id_number", JStr "0568334181");
            ("Extension", JStr ""); ("Country", JStr "UAE")]).
  reflexivity.
Defined.

End EndpointFacts.

(** ** More on the reveal *)

Module BatchFacts.

Import Script EngineTerms RevealFacts.

(** *** dedupRecords *)

Lemma dedupFrom_sublist (l : list Row) :
  forall seen, sublist (dedupFrom seen l) l.
Proof.
  induction l as [|r l IH]; intros seen; cbn [dedupFrom]; [constructor|].
  destruct (negb (truthy (Call_ID r))); [apply sublist_skip, IH|].
  destruct (existsb (sameValueZero (Call_ID r)) seen);
    [apply sublist_cons, IH | apply sublist_skip, IH].
Qed.

Lemma dedupFrom_length (l : list Row) (seen : list JsVal) :
  (length (dedupFrom seen l) <= length l)%nat.
Proof. apply sublist_length, dedupFrom_sublist. Qed.

(** A record whose key is in [seen'] does not pass [dedupFrom] with a
    larger [seen] either. *)
Lemma dedupFrom_idem (l : list Row) :
  forall seen, dedupFrom seen (dedupFrom seen l) = dedupFrom seen l.
Proof.
  induction l as [|r l IH]; intros seen; cbn [dedupFrom]; [reflexivity|].
  destruct (negb (truthy (Call_ID r))) eqn:Ht.
  - cbn [dedupFrom]. rewrite Ht, IH. reflexivity.
  - destruct (existsb (sameValueZero (Call_ID r)) seen) eqn:Hs; [apply IH|].
    cbn [dedupFrom]. rewrite Ht, Hs.
    (* the tail was filtered with the key added *)
    f_equal.
    assert (Hgen : forall l' seen1 seen2,
               (forall x, existsb (sameValueZero x) seen2 = true ->
                          existsb (sameValueZero x) seen1 = true) ->
               dedupFrom seen2 (dedupFrom seen1 l') = dedupFrom seen1 l').
    { clear. induction l' as [|r l' IH']; intros seen1 seen2 Hsub;
        cbn [dedupFrom]; [reflexivity|].
      destruct (negb (truthy (Call_ID r))) eqn:Ht.
      - cbn [dedupFrom]. rewrite Ht, (IH' _ _ Hsub). reflexivity.
      - destruct (existsb (sameValueZero (Call_ID r)) seen1) eqn:Hs1;
          [apply IH', Hsub|].
        cbn [dedupFrom]. rewrite Ht.
        destruct (existsb (sameValueZero (Call_ID r)) seen2) eqn:Hs2;
          [rewrite (Hsub _ Hs2) in Hs1; discriminate|].
        f_equal. apply IH'. intros x. cbn [existsb].
        destruct (sameValueZero x (Call_ID r)); cbn [orb]; [auto|apply Hsub]. }
    apply Hgen. auto.
Qed.

Lemma sameValueZero_prim (a b : JsVal) :
  sameValueZero a b = true -> isPrim a = true.
Proof. destruct a, b; cbn; try discriminate; reflexivity. Qed.

Lemma existsb_seen (x : JsVal) (seen : list JsVal) :
  existsb (sameValueZero x) seen = true -> isPrim x = true /\ x ∈ seen.
Proof.
  induction seen as [|y seen IH]; cbn [existsb]; [discriminate|].
  destruct (sameValueZero x y) eqn:Hxy; cbn [orb].
  - intros _. split; [eapply sameValueZero_prim; eassumption|].
    apply PostFacts.sameValueZero_eq in Hxy as ->. left.
  - intros Hin. destruct (IH Hin). split; [assumption | right; assumption].
Qed.

(** Records with distinct identifiers all pass. *)
Lemma dedupFrom_fixed (l : list Row) :
  forall seen,
  NoDup (ids l) -> (forall x, x ∈ ids l -> x ∉ seen) ->
  dedupFrom seen l = l.
Proof.
  induction l as [|r l IH]; intros seen Hnd Hfresh; cbn [dedupFrom];
    [reflexivity|].
  cbn [ids] in Hnd, Hfresh.
  destruct (truthy (Call_ID r)) eqn:Ht; cbn [negb andb] in *.
  - destruct (existsb (sameValueZero (Call_ID r)) seen) eqn:Hs.
    + apply existsb_seen in Hs as [Hp Hin]. rewrite Hp in Hfresh.
      destruct (Hfresh (Call_ID r)); [left | exact Hin].
    + f_equal. destruct (isPrim (Call_ID r)) eqn:Hp.
      * apply NoDup_cons in Hnd as [Hnot Hnd]. apply IH; [exact Hnd|].
        intros x Hx Hin. apply elem_of_cons in Hin as [->|Hin];
          [exact (Hnot Hx)|].
        apply (Hfresh x); [right; exact Hx | exact Hin].
      * apply IH; [exact Hnd|].
        intros x Hx Hin. apply elem_of_cons in Hin as [->|Hin].
        -- assert (Hpx : isPrim (Call_ID r) = true); [|congruence].
           clear -Hx. induction l as [|r' l IHl]; [inversion Hx|].
           cbn [ids] in Hx.
           destruct (truthy (Call_ID r') && isPrim (Call_ID r')) eqn:Hk;
             [|auto].
           apply elem_of_cons in Hx as [->|Hx]; [|auto].
           apply andb_true_iff in Hk. apply Hk.
        -- apply (Hfresh x); assumption.
  - f_equal. apply IH; assumption.
Qed.

Lemma dedupFrom_snoc (l : list Row) (x : Row) :
  forall seen,
  dedupFrom seen (l ++ [x]) = dedupFrom seen l
  \/ dedupFrom seen (l ++ [x]) = dedupFrom seen l ++ [x].
Proof.
  induction l as [|r l IH]; intros seen; cbn [app dedupFrom].
  - destruct (negb (truthy (Call_ID x))); [right; reflexivity|].
    destruct (existsb (sameValueZero (Call_ID x)) seen);
      [left | right]; reflexivity.
  - destruct (negb (truthy (Call_ID r))).
    + destruct (IH seen) as [-> | ->]; [left | right]; reflexivity.
    + destruct (existsb (sameValueZero (Call_ID r)) seen); [apply IH|].
      destruct (IH (Call_ID r :: seen)) as [-> | ->]; [left | right];
        reflexivity.
Qed.

(** X16: [dedupRecords] only drops records (what it keeps stays in
    order), gives the same list when run again, and drops nothing from a
    list whose truthy identifiers are distinct. *)
Theorem dedup_keeps_order (l : list Row) :
  sublist (dedupRecords l) l
  /\ dedupRecords (dedupRecords l) = dedupRecords l
  /\ (NoDup (ids l) -> dedupRecords l = l).
Proof.
  split; [apply dedupFrom_sublist|]. split; [apply dedupFrom_idem|].
  intros Hnd. apply dedupFrom_fixed; [exact Hnd|].
  intros x _ Hin. inversion Hin.
Qed.

Section WithHost.

Context `{Host}.

(** *** pick *)

Lemma pick_none (b : Per (list Row)) :
  pick b = None <-> buffered b = 0%nat.
Proof.
  destruct b as [bi bo bc bd]. unfold pick, sources, buffered.
  cbn [fold_left pget p_in p_out p_camp p_cdr].
  destruct bi as [|ri bi], bo as [|ro bo], bc as [|rc bc], bd as [|rd bd];
    cbn [length];
    repeat match goal with
           | |- context [if ?c then _ else _] => destruct c
           end;
    split; intros Heq; try discriminate; try reflexivity; lia.
Qed.

Lemma pick_newest (b : Per (list Row)) (k : Source) (r : Row) :
  pick b = Some (k, r) ->
  forall k' r' tl, pget b k' = r' :: tl -> toEpoch r' <= toEpoch r.
Proof.
  destruct b as [bi bo bc bd]. unfold pick, sources.
  cbn [fold_left pget p_in p_out p_camp p_cdr].
  destruct bi as [|ri bi], bo as [|ro bo], bc as [|rc bc], bd as [|rd bd];
    repeat match goal with
           | |- context [?x <? ?y] => destruct (Z.ltb_spec x y)
           end;
    intros [= <- <-] k' r' tl; destruct k';
    cbn [pget p_in p_out p_camp p_cdr]; intros [= <- <-]; lia.
Qed.

(** *** The loop *)

Lemma revealLoop_page (fuel : nat) (startLen : nat) :
  forall st : State,
  (buffered (buffers st) <= fuel)%nat ->
  Z.of_nat (length (lastRecords st)) <= Z.of_nat startLen + PAGE_SIZE ->
  exists st',
    revealLoop fuel startLen st = Some st'
    /\ Z.of_nat (length (lastRecords st')) <= Z.of_nat startLen + PAGE_SIZE
    /\ (buffered (buffers st') = 0%nat
        \/ Z.of_nat startLen + PAGE_SIZE <= Z.of_nat (length (lastRecords st'))).
Proof.
  induction fuel as [|fuel IH]; intros st Hfuel Hlen; cbn [revealLoop].
  - destruct (Z.leb_spec PAGE_SIZE
                (Z.of_nat (length (lastRecords st)) - Z.of_nat startLen)).
    + exists st. repeat split; [assumption | right; lia].
    + destruct (pick (buffers st)) as [[k r]|] eqn:Hpick.
      * apply pick_some in Hpick as [tl Hk]. apply buffered_pos in Hk. lia.
      * exists st. repeat split; [assumption | left; apply pick_none, Hpick].
  - destruct (Z.leb_spec PAGE_SIZE
                (Z.of_nat (length (lastRecords st)) - Z.of_nat startLen)).
    + exists st. repeat split; [assumption | right; lia].
    + destruct (pick (buffers st)) as [[k r]|] eqn:Hpick.
      * apply pick_some in Hpick as [tl Hk].
        pose proof (buffered_tail _ _ _ _ Hk) as Hdec.
        pose proof (buffered_pos _ _ _ _ Hk) as Hpos.
        apply IH; cbn [buffers lastRecords]; [lia|].
        pose proof (dedupFrom_length (lastRecords st ++ [r]) []) as Hd.
        unfold dedupRecords. rewrite length_app in Hd. cbn [length] in Hd. lia.
      * exists st. repeat split; [assumption | left; apply pick_none, Hpick].
Qed.

(** What the loop moves: heads of buffers to the revealed records. *)
Lemma revealLoop_moves (fuel : nat) (startLen : nat) :
  forall st st' : State,
  revealLoop fuel startLen st = Some st' ->
  (forall r, r ∈ lastRecords st' ->
             r ∈ lastRecords st \/ exists k, r ∈ pget (buffers st) k)
  /\ (forall k, pget (buffers st') k `suffix_of` pget (buffers st) k).
Proof.
  induction fuel as [|fuel IH]; intros st st'; cbn [revealLoop].
  - destruct (PAGE_SIZE <=? _); [intros [= <-]; split; [auto | reflexivity]|].
    destruct (pick (buffers st)) as [[k r]|]; [discriminate|].
    intros [= <-]. split; [auto | reflexivity].
  - destruct (PAGE_SIZE <=? _); [intros [= <-]; split; [auto | reflexivity]|].
    destruct (pick (buffers st)) as [[k r]|] eqn:Hpick;
      [|intros [= <-]; split; [auto | reflexivity]].
    apply pick_some in Hpick as [tl Hk].
    intros Hrun. apply IH in Hrun as [Hrec Hbuf].
    cbn [buffers lastRecords] in *. split.
    + intros x Hx. destruct (Hrec x Hx) as [Hin|[k' Hin]].
      * apply (fun Hx => elem_of_sublist _ _ _ Hx (dedupFrom_sublist _ [])) in Hin.
        apply elem_of_app in Hin as [Hin|Hin]; [left; exact Hin|].
        apply list_elem_of_singleton in Hin as ->.
        right. exists k. rewrite Hk. left.
      * right. exists k'. revert Hin. rewrite Hk.
        destruct (buffers st) as [bi bo bc bd], k, k';
          cbn [pget pset p_in p_out p_camp p_cdr tail] in *;
          try rewrite Hk; cbn [tail]; auto; intros Hin; right; exact Hin.
    + intros k'. etransitivity; [apply Hbuf|]. rewrite Hk.
      destruct (buffers st) as [bi bo bc bd], k, k';
        cbn [pget pset p_in p_out p_camp p_cdr tail] in *;
        try reflexivity; rewrite Hk; cbn [tail]; apply suffix_cons_r;
        reflexivity.
Qed.

(** Revealed records with distinct identifiers stay revealed. *)
Lemma revealLoop_keeps (fuel : nat) (startLen : nat) :
  forall st st' : State,
  dedupRecords (lastRecords st) = lastRecords st ->
  revealLoop fuel startLen st = Some st' ->
  lastRecords st `prefix_of` lastRecords st'.
Proof.
  induction fuel as [|fuel IH]; intros st st' Hfix; cbn [revealLoop].
  - destruct (PAGE_SIZE <=? _); [intros [= <-]; reflexivity|].
    destruct (pick (buffers st)) as [[k r]|]; [discriminate|].
    intros [= <-]. reflexivity.
  - destruct (PAGE_SIZE <=? _); [intros [= <-]; reflexivity|].
    destruct (pick (buffers st)) as [[k r]|]; [|intros [= <-]; reflexivity].
    intros Hrun. apply IH in Hrun; cbn [lastRecords] in *.
    + etransitivity; [|exact Hrun].
      unfold dedupRecords in *.
      destruct (dedupFrom_snoc (lastRecords st) r []) as [-> | ->];
        rewrite Hfix; [reflexivity | apply prefix_app_r; reflexivity].
    + apply dedupFrom_idem.
Qed.

End WithHost.

(** X17: a reveal adds at most PAGE_SIZE = 500 records to the revealed
    ones, and it adds fewer than 500 only when it has emptied every
    buffer. *)
Theorem reveal_fills_page `{Host} (st : State) :
  exists st',
    revealNextBatch st = Some st'
    /\ Z.of_nat (length (lastRecords st'))
       <= Z.of_nat (length (lastRecords st)) + 500
    /\ (buffered (buffers st') = 0%nat
        \/ Z.of_nat (length (lastRecords st'))
           = Z.of_nat (length (lastRecords st)) + 500).
Proof.
  unfold revealNextBatch.
  destruct (revealLoop_page (buffered (buffers st)) (length (lastRecords st))
              st (le_n _)) as (st1 & -> & Hle & Hor);
    [unfold PAGE_SIZE; lia|].
  eexists. split; [reflexivity|].
  cbn [withLastRecords lastRecords buffers].
  rewrite (Permutation_length (sortDesc_perm (lastRecords st1))).
  unfold PAGE_SIZE in *. split; [exact Hle|].
  destruct Hor as [Hempty|Hfull]; [left; exact Hempty | right; lia].
Qed.

(** X18: a reveal invents nothing and loses nothing that is waiting:
    every record revealed afterwards was revealed before or stood in a
    buffer, and every buffer afterwards is what is left of it after some
    of its first records were taken. *)
Theorem reveal_moves_records `{Host} (st st' : State) :
  revealNextBatch st = Some st' ->
  (forall r, r ∈ lastRecords st' ->
             r ∈ lastRecords st \/ exists k, r ∈ pget (buffers st) k)
  /\ (forall k, pget (buffers st') k `suffix_of` pget (buffers st) k).
Proof.
  unfold revealNextBatch.
  destruct (revealLoop _ _ st) as [st1|] eqn:Hrun; [|discriminate].
  intros [= <-]. apply revealLoop_moves in Hrun as [Hrec Hbuf].
  cbn [withLastRecords lastRecords buffers]. split; [|exact Hbuf].
  intros r Hr. apply Hrec. rewrite <- (sortDesc_perm (lastRecords st1)).
  exact Hr.
Qed.

Lemma reveal_moves_records_witness :
  Sample.revealed "c" (JNum 1699990000)
    ∈ [Sample.revealed "a" (JNum 1700000100); Sample.revealed "b" (JStr "")]
  \/ exists k,
       Sample.revealed "c" (JNum 1699990000)
         ∈ pget (buffers (Sample.exhausted
                            [Sample.revealed "a" (JNum 1700000100);
                             Sample.revealed "b" (JStr "")])) k.
Proof.
  refine (proj1 (reveal_moves_records (H := Sample.host)
                  (Sample.exhausted [Sample.revealed "a" (JNum 1700000100);
                                     Sample.revealed "b" (JStr "")])
                  {| nextTokens := pall JNull; buffers := pall [];
                     lastRecords := [Sample.revealed "a" (JNum 1700000100);
                                     Sample.revealed "c" (JNum 1699990000);
                                     Sample.revealed "b" (JStr "")];
                     baseQuery := Sample.sampleQuery |} eq_refl)
            (Sample.revealed "c" (JNum 1699990000)) _).
  cbn [lastRecords]. apply elem_of_cons. right.
  apply elem_of_cons. left. reflexivity.
Defined.

(** X19: once revealed, always revealed: when the truthy identifiers of
    the revealed records are distinct, a reveal keeps every one of them
    and the revealed list does not get shorter. *)
Theorem revealed_stay `{Host} (st st' : State) :
  NoDup (ids (lastRecords st)) ->
  revealNextBatch st = Some st' ->
  (forall r, r ∈ lastRecords st -> r ∈ lastRecords st')
  /\ (length (lastRecords st) <= length (lastRecords st'))%nat.
Proof.
  intros Hnd. unfold revealNextBatch.
  destruct (revealLoop _ _ st) as [st1|] eqn:Hrun; [|discriminate].
  intros [= <-]. cbn [withLastRecords lastRecords].
  apply revealLoop_keeps in Hrun;
    [|apply dedupFrom_fixed; [exact Hnd | intros x _ Hin; inversion Hin]].
  destruct Hrun as [more Hmore]. split.
  - intros r Hr. rewrite (sortDesc_perm (lastRecords st1)), Hmore.
    apply elem_of_app. left. exact Hr.
  - rewrite (Permutation_length (sortDesc_perm (lastRecords st1))), Hmore,
      length_app. lia.
Qed.

Lemma revealed_stay_witness :
  Sample.revealed "b" (JStr "")
    ∈ [Sample.revealed "a" (JNum 1700000100);
       Sample.revealed "c" (JNum 1699990000);
       Sample.revealed "b" (JStr "")].
Proof.
  refine (proj1 (revealed_stay (H := Sample.host)
                  (Sample.exhausted [Sample.revealed "a" (JNum 1700000100);
                                     Sample.revealed "b" (JStr "")])
                  {| nextTokens := pall JNull; buffers := pall [];
                     lastRecords := [Sample.revealed "a" (JNum 1700000100);
                                     Sample.revealed "c" (JNum 1699990000);
                                     Sample.revealed "b" (JStr "")];
                     baseQuery := Sample.sampleQuery |}
                  _ eq_refl)
            (Sample.revealed "b" (JStr "")) _).
  - vm_compute.
    repeat (apply NoDup_cons; split;
            [intros Hin;
             repeat (apply elem_of_cons in Hin as [Hin|Hin]; [discriminate|]);
             inversion Hin|]).
    apply NoDup_nil. exact I.
  - cbn [lastRecords Sample.exhausted]. apply elem_of_cons. right.
    apply elem_of_cons. left. reflexivity.
Defined.

(** X20: the record a pass takes out of the buffers is the head with the
    latest event time among the heads of all four buffers, and no record
    is taken exactly when all four are empty. *)
Theorem pick_takes_newest `{Host} (b : Per (list Row)) :
  (pick b = None <-> buffered b = 0%nat)
  /\ forall k r, pick b = Some (k, r) ->
       (exists tl, pget b k = r :: tl)
       /\ forall k' r' tl, pget b k' = r' :: tl -> toEpoch r' <= toEpoch r.
Proof.
  split; [apply pick_none|]. intros k r Hpick.
  split; [apply pick_some, Hpick | apply (pick_newest b k r Hpick)].
Qed.

End BatchFacts.

(** ** Cursors, and a new query *)

Module RoundFacts.

Import Script EngineTerms RoundTerms RevealFacts EngineFacts.

Lemma pget_pset {A} (p : Per A) (k k' : Source) (a : A) :
  pget (pset p k a) k' = if decide (k = k') then a else pget p k'.
Proof. destruct p, k, k'; reflexivity. Qed.

Section WithHost.

Context `{Host}.

Lemma chunkArrived_tokens (st : State) (k : Source) (data : JsVal) :
  nextTokens (fst (chunkArrived st k data))
  = pset (nextTokens st) k (nullish (getOpt (or data (JObj [])) "next") JNull).
Proof. unfold chunkArrived. destruct (normalizeAll k _); reflexivity. Qed.

Lemma settleChunks_tokens (st0 : State) (replies : Per Reply)
    (ks : list Source) (k : Source) :
  NoDup ks ->
  forall st : State,
  pget (nextTokens st) k = pget (nextTokens st0) k ->
  pget (nextTokens (fst (settleChunks st0 replies ks st))) k
  = if decide (k ∈ ks) then tokenAfter st0 replies k
    else pget (nextTokens st0) k.
Proof.
  induction 1 as [|k' ks Hnot Hnd IH]; intros st Hst; cbn [settleChunks].
  - rewrite decide_False by (intros Hin; inversion Hin). exact Hst.
  - assert (Hskip : forall st1,
               pget (nextTokens st1) k
               = (if decide (k' = k) then tokenAfter st0 replies k
                  else pget (nextTokens st0) k) ->
               pget (nextTokens (fst (settleChunks st0 replies ks st1))) k
               = if decide (k ∈ k' :: ks) then tokenAfter st0 replies k
                 else pget (nextTokens st0) k).
    { intros st1 Hst1. destruct (decide (k' = k)) as [->|Hne].
      - rewrite decide_True by left.
        clear IH. revert st1 Hst1.
        induction ks as [|k2 ks IHks]; intros st1 Hst1; cbn [settleChunks];
          [exact Hst1|].
        assert (Hk2 : k2 <> k) by (intros ->; apply Hnot; left).
        assert (Hrest : k ∉ ks) by (intros Hin; apply Hnot; right; exact Hin).
        apply NoDup_cons in Hnd as [_ Hnd].
        destruct (chunkRequest st0 k2); [|apply IHks; assumption].
        destruct (pget replies k2) as [err|data].
        + specialize (IHks Hrest Hnd st1 Hst1).
          destruct (settleChunks st0 replies ks st1). exact IHks.
        + pose proof (chunkArrived_tokens st1 k2 data) as Ht.
          destruct (chunkArrived st1 k2 data) as [st2 thrown]. cbn [fst] in Ht.
          assert (Hst2 : pget (nextTokens st2) k = tokenAfter st0 replies k)
            by (rewrite Ht, pget_pset, decide_False by exact Hk2; exact Hst1).
          specialize (IHks Hrest Hnd st2 Hst2).
          destruct (settleChunks st0 replies ks st2). exact IHks.
      - rewrite (IH st1 Hst1).
        destruct (decide (k ∈ ks)) as [Hin|Hout].
        + rewrite decide_True by (right; exact Hin). reflexivity.
        + rewrite decide_False; [reflexivity|].
          intros Hin. apply elem_of_cons in Hin as [->|Hin]; congruence. }
    unfold tokenAfter in Hskip.
    destruct (chunkRequest st0 k') eqn:Hreq.
    + destruct (pget replies k') as [err|data] eqn:Hrep.
      * specialize (Hskip st).
        destruct (settleChunks st0 replies ks st). apply Hskip.
        destruct (decide (k' = k)) as [<-|_]; [|exact Hst].
        rewrite Hreq, Hrep. exact Hst.
      * pose proof (chunkArrived_tokens st k' data) as Ht.
        destruct (chunkArrived st k' data) as [st1 thrown]. cbn [fst] in Ht.
        specialize (Hskip st1).
        destruct (settleChunks st0 replies ks st1). apply Hskip.
        rewrite Ht, pget_pset.
        destruct (decide (k' = k)) as [<-|_]; [|exact Hst].
        rewrite Hreq, Hrep. reflexivity.
    + apply Hskip. destruct (decide (k' = k)) as [<-|_]; [|exact Hst].
      rewrite Hreq. exact Hst.
Qed.

Lemma fallbackArrived_tokens (datas : Per JsVal) (ks : list Source) :
  forall st : State, nextTokens (fst (fallbackArrived datas ks st)) = nextTokens st.
Proof.
  induction ks as [|k ks IH]; intros st; cbn [fallbackArrived]; [reflexivity|].
  destruct (negb (hasLength _)); [apply IH|].
  destruct (normalizeAll k _) as [norm|err]; [|reflexivity].
  rewrite IH. reflexivity.
Qed.

Lemma fallbackAndReveal_tokens (st : State) (reqs : list Request)
    (fallback : Per Reply) (round : Round) :
  fallbackAndReveal st reqs fallback = Some round ->
  nextTokens (after round) = nextTokens st.
Proof.
  assert (Hreveal : forall st1 freqs,
    nextTokens st1 = nextTokens st ->
    match revealNextBatch st1 with
    | Some st2 => Some {| after := st2; cursorRequests := reqs;
                          fallbackRequests := freqs; ending := Completed |}
    | None => None
    end = Some round ->
    nextTokens (after round) = nextTokens st).
  { intros st1 freqs Ht.
    destruct (revealNextBatch_spec st1) as (st2 & -> & Ht2 & _).
    intros [= <-]. cbn [after]. congruence. }
  unfold fallbackAndReveal.
  destruct (forallb _ sources); [|apply Hreveal; reflexivity].
  destruct (oldest (lastRecords st)) as [o|]; [|apply Hreveal; reflexivity].
  destruct (o =? 0); [apply Hreveal; reflexivity|].
  destruct (toISOString (fallbackEnd o)) as [iso|];
    [|intros [= <-]; reflexivity].
  destruct (allResolved fallback) as [datas|errs];
    [|intros [= <-]; reflexivity].
  pose proof (fallbackArrived_tokens datas sources st) as Ht.
  destruct (fallbackArrived datas sources st) as [st1 [err|]]; cbn [fst] in Ht.
  - intros [= <-]. exact Ht.
  - apply Hreveal. exact Ht.
Qed.

Lemma sources_nodup : NoDup sources.
Proof.
  unfold sources. repeat constructor;
    intros Hin; repeat (apply elem_of_cons in Hin as [Hin|Hin];
                        [discriminate|]); inversion Hin.
Qed.

Lemma sources_all (k : Source) : k ∈ sources.
Proof. unfold sources. destruct k; repeat constructor. Qed.

End WithHost.

(** X21: the cursors after a call of [loadNextChunks], whether it
    completes or rejects: a source that was asked and answered has
    [next ?? null] of its answer, every other source has the cursor it
    had.  So an exhausted source (cursor null) stays exhausted, and the
    fallback round never sets a cursor. *)
Theorem cursors_after_round `{Host} (st : State) (cursor fallback : Per Reply)
    (round : Round) :
  loadNextChunks st cursor fallback = Some round ->
  (forall k, pget (nextTokens (after round)) k = tokenAfter st cursor k)
  /\ (forall k, pget (nextTokens st) k = JNull ->
                pget (nextTokens (after round)) k = JNull).
Proof.
  intros Hrun.
  assert (Hall : forall k,
             pget (nextTokens (after round)) k = tokenAfter st cursor k).
  { intros k. unfold loadNextChunks in Hrun.
    pose proof (settleChunks_tokens st cursor sources k sources_nodup st
                  eq_refl) as Hk.
    rewrite decide_True in Hk by apply sources_all.
    destruct (settleChunks st cursor sources st) as [st1 [|err errs]];
      cbn [fst] in Hk.
    - apply fallbackAndReveal_tokens in Hrun. rewrite Hrun. exact Hk.
    - injection Hrun as <-. exact Hk. }
  split; [exact Hall|].
  intros k Hnull. rewrite Hall. unfold tokenAfter, chunkRequest.
  rewrite Hnull. reflexivity.
Qed.

Lemma cursors_after_round_witness :
  exists round,
    loadNextChunks (H := Sample.host) Sample.paging Sample.oneFails
      Sample.noReplies = Some round
    /\ nextTokens (after round)
       = {| p_in := JStr "k1"; p_out := JNull; p_camp := JNull;
            p_cdr := JNull |}.
Proof.
  destruct (loadNextChunks (H := Sample.host) Sample.paging Sample.oneFails
              Sample.noReplies) as [round|] eqn:Hrun; [|discriminate].
  exists round. split; [reflexivity|].
  destruct (cursors_after_round (H := Sample.host) Sample.paging
              Sample.oneFails Sample.noReplies round Hrun) as [Hall _].
  pose proof (Hall src_in) as Hi. pose proof (Hall src_out) as Ho.
  pose proof (Hall src_camp) as Hc. pose proof (Hall src_cdr) as Hd.
  destruct (nextTokens (after round)) as [ti to tc td].
  cbn in Hi, Ho, Hc, Hd. congruence.
Defined.

(** X22: a submit that succeeds starts from scratch: the state it leaves
    (cursors, buffers, revealed records, query) is given by the query and
    the four answers alone, whatever was buffered or revealed before. *)
Theorem submit_starts_afresh `{Host} (st st' : State) (q : BaseQuery)
    (replies : Per Reply) (s : Submitted) :
  submit st q replies = Some s -> sub_error s = None ->
  submit st' q replies = Some s.
Proof.
  unfold submit. destruct (allResolved replies) as [datas|errs];
    [|intros [= <-]; discriminate].
  unfold sources. cbn [assignTokens].
  destruct (get (pget datas src_in) "next") as [ni|e]; [|intros [= <-]; discriminate].
  destruct (get (pget datas src_out) "next") as [no|e]; [|intros [= <-]; discriminate].
  destruct (get (pget datas src_camp) "next") as [nc|e]; [|intros [= <-]; discriminate].
  destruct (get (pget datas src_cdr) "next") as [nd|e]; [|intros [= <-]; discriminate].
  cbn [assignBuffers].
  destruct (normalizeAll src_in _) as [bi|e]; [|intros [= <-]; discriminate].
  destruct (normalizeAll src_out _) as [bo|e]; [|intros [= <-]; discriminate].
  destruct (normalizeAll src_camp _) as [bc|e]; [|intros [= <-]; discriminate].
  destruct (normalizeAll src_cdr _) as [bd|e]; [|intros [= <-]; discriminate].
  cbn [withTokens withBuffers withBaseQuery withLastRecords pset nextTokens
       buffers lastRecords baseQuery p_in p_out p_camp p_cdr].
  auto.
Qed.

Lemma submit_starts_afresh_witness :
  exists s,
    submit (H := Sample.host) initial Sample.sampleQuery
      Sample.anonymousReplies = Some s
    /\ submit (H := Sample.host)
         (Sample.exhausted [Sample.revealed "a" (JNum 1700000100)])
         Sample.sampleQuery Sample.anonymousReplies = Some s.
Proof.
  destruct (submit (H := Sample.host) initial Sample.sampleQuery
              Sample.anonymousReplies) as [s|] eqn:Hrun; [|discriminate].
  exists s. split; [reflexivity|].
  apply (submit_starts_afresh (H := Sample.host) initial _ _ _ s Hrun).
  revert Hrun. vm_compute. intros [= <-]. reflexivity.
Defined.

(** X23: a called time given as a number of seconds and the same time
    given in milliseconds are the same event time, for every time from
    10^8 s (March 1973) up to 10^11 s; a record without a called time
    (a falsy value) has the event time 0 and so sorts after all dated
    records. *)
Theorem epoch_units `{Host} (r r' : Row) (s : Z) :
  Called_Time r = JNum s -> Called_Time r' = JNum (s * 1000) ->
  100000000 <= s < 100000000000 ->
  toEpoch r = s * 1000 /\ toEpoch r' = s * 1000
  /\ forall r0, truthy (Called_Time r0) = false -> toEpoch r0 = 0.
Proof.
  intros Hr Hr' Hs. unfold toEpoch. rewrite Hr, Hr'. cbn [truthy].
  replace (s =? 0) with false by (symmetry; apply Z.eqb_neq; lia).
  replace (s * 1000 =? 0) with false by (symmetry; apply Z.eqb_neq; lia).
  cbn [negb].
  replace (s <? 100000000000) with true by (symmetry; apply Z.ltb_lt; lia).
  replace (s * 1000 <? 100000000000) with false
    by (symmetry; apply Z.ltb_ge; lia).
  repeat split. intros r0 ->. reflexivity.
Qed.

Lemma epoch_units_witness :
  toEpoch (H := Sample.host) (Sample.revealed "a" (JNum 1700000100))
  = 1700000100 * 1000
  /\ toEpoch (H := Sample.host) (Sample.revealed "a" (JNum (1700000100 * 1000)))
     = 1700000100 * 1000.
Proof.
  destruct (epoch_units (H := Sample.host)
              (Sample.revealed "a" (JNum 1700000100))
              (Sample.revealed "a" (JNum (1700000100 * 1000))) 1700000100
              eq_refl eq_refl ltac:(lia)) as (H1 & H2 & _).
  split; assumption.
Defined.

End RoundFacts.

(** ** Rounds in which a request fails *)

Module FailureFacts.

Import Script EngineTerms RoundTerms RevealFacts EngineFacts RoundFacts.

Section WithHost.

Context `{Host}.





End WithHost.



End FailureFacts.

(** ** CSV text *)

Module CsvFacts.

Import ReportFetcher ReportCsv ViewTerms ResFacts.

#[local] Arguments String.append : simpl nomatch.

Lemma prefix_nil (s : string) : String.prefix "" s = true.
Proof. destruct s; reflexivity. Qed.

Lemma includes_char (c a : ascii) (s : string) :
  Str.includes (String a s) (String c "")
  = if Ascii.eqb a c then true else Str.includes s (String c "").
Proof.
  cbn [Str.includes String.prefix].
  destruct (ascii_dec c a) as [->|Hne].
  - rewrite prefix_nil, Ascii.eqb_refl. reflexivity.
  - replace (Ascii.eqb a c) with false
      by (symmetry; apply Ascii.eqb_neq; congruence).
    reflexivity.
Qed.

Lemma plain_cons (d c : ascii) (str : string) :
  plain (String d "") (String c str) = true ->
  Ascii.eqb c d = false /\ Ascii.eqb c lfChar = false
  /\ Ascii.eqb c quoteChar = false /\ plain (String d "") str = true.
Proof.
  unfold plain, newline, dquote, lfChar, quoteChar. rewrite !includes_char.
  destruct (Ascii.eqb c d); [discriminate|].
  destruct (Ascii.eqb c "010"); [rewrite orb_true_r; discriminate|].
  destruct (Ascii.eqb c "034"); [rewrite !orb_true_r; discriminate|].
  auto.
Qed.

Lemma append_nil (s : string) : s +:+ "" = s.
Proof. induction s as [|c s IH]; [reflexivity|]. simpl. rewrite IH. reflexivity. Qed.

Lemma append_assoc (a b c : string) : (a +:+ b) +:+ c = a +:+ b +:+ c.
Proof. induction a as [|x a IH]; [reflexivity|]. simpl. rewrite IH. reflexivity. Qed.

Section Reader.

Variable d : ascii.
Hypothesis d_not_quote : d <> quoteChar.
Hypothesis d_not_lf : d <> lfChar.

Lemma read_boundary (rest : string) :
  boundary d rest ->
  read d Unquoted rest = read d FieldStart rest
  /\ read d QuoteSeen rest = read d FieldStart rest.
Proof.
  intros [->|[r [->| ->]]]; cbn [read].
  - split; reflexivity.
  - rewrite Ascii.eqb_refl.
    replace (Ascii.eqb d quoteChar) with false
      by (symmetry; apply Ascii.eqb_neq; exact d_not_quote).
    split; reflexivity.
  - replace (Ascii.eqb lfChar quoteChar) with false by reflexivity.
    split; reflexivity.
Qed.

Lemma read_plain (str rest : string) :
  plain (String d "") str = true ->
  boundary d rest ->
  read d Unquoted (str +:+ rest) = pushText str (read d FieldStart rest)
  /\ read d FieldStart (str +:+ rest) = pushText str (read d FieldStart rest).
Proof.
  intros Hplain Hrest.
  assert (Hunq : read d Unquoted (str +:+ rest)
                 = pushText str (read d FieldStart rest)).
  { revert Hplain. induction str as [|c str IH]; intros Hplain.
    - simpl. rewrite (proj1 (read_boundary rest Hrest)).
      destruct (read d FieldStart rest) as [[f fs] rs]. reflexivity.
    - apply plain_cons in Hplain as (Hd & Hl & _ & Hplain).
      simpl. rewrite Hd, Hl, (IH Hplain).
      destruct (read d FieldStart rest) as [[f fs] rs]. reflexivity. }
  split; [exact Hunq|].
  destruct str as [|c str].
  - simpl. destruct (read d FieldStart rest) as [[f fs] rs]. reflexivity.
  - rewrite <- Hunq. apply plain_cons in Hplain as (Hd & Hl & Hq & _).
    simpl. rewrite Hd, Hl, Hq. reflexivity.
Qed.

Lemma read_quoted (str rest : string) :
  read d Quoted (doubleQuotes str +:+ String quoteChar rest)
  = pushText str (read d QuoteSeen rest).
Proof.
  induction str as [|c str IH].
  - simpl. destruct (read d QuoteSeen rest) as [[f fs] rs]. reflexivity.
  - cbn [doubleQuotes]. destruct (Ascii.eqb c "034") eqn:Hq.
    + apply Ascii.eqb_eq in Hq. subst c. simpl. rewrite IH.
      destruct (read d QuoteSeen rest) as [[f fs] rs]. reflexivity.
    + simpl. unfold quoteChar. rewrite Hq. fold quoteChar. rewrite IH.
      destruct (read d QuoteSeen rest) as [[f fs] rs]. reflexivity.
Qed.

(** One cell, whatever its text. *)
Lemma read_cell (str rest : string) :
  boundary d rest ->
  read d FieldStart (escapeField (String d "") str +:+ rest)
  = pushText str (read d FieldStart rest).
Proof.
  intros Hrest. unfold escapeField.
  destruct (Str.includes str (String d "") || Str.includes str newline
            || Str.includes str dquote) eqn:Hq.
  - unfold dquote. rewrite !append_assoc.
    change (String "034" "" +:+ doubleQuotes str +:+ String "034" "" +:+ rest)
      with (String quoteChar (doubleQuotes str +:+ String quoteChar rest)).
    cbn [read]. rewrite Ascii.eqb_refl, read_quoted.
    rewrite (proj2 (read_boundary rest Hrest)). reflexivity.
  - apply read_plain; [|exact Hrest]. unfold plain. rewrite Hq. reflexivity.
Qed.

Lemma read_record (fs : list string) :
  forall (f : string) (rest : string) (rs : list (list string)),
  boundary d rest ->
  read d FieldStart rest = ("", [], rs) ->
  read d FieldStart (recordText d (f :: fs) +:+ rest) = (f, fs, rs).
Proof.
  unfold recordText.
  induction fs as [|g fs IH]; intros f rest rs Hrest Hread.
  - cbn [map String.concat]. rewrite (read_cell f rest Hrest), Hread.
    cbn [pushText]. rewrite append_nil. reflexivity.
  - change (String.concat (String d "")
              (map (escapeField (String d "")) (f :: g :: fs)))
      with (escapeField (String d "") f +:+ String d ""
            +:+ String.concat (String d "")
                  (map (escapeField (String d "")) (g :: fs))).
    rewrite !append_assoc.
    change (String d "" +:+ ?x) with (String d x).
    rewrite read_cell by (right; eexists; left; reflexivity).
    cbn [read]. rewrite Ascii.eqb_refl.
    replace (Ascii.eqb d quoteChar) with false
      by (symmetry; apply Ascii.eqb_neq; exact d_not_quote).
    rewrite (IH g rest rs Hrest Hread). cbn [nextField pushText].
    rewrite append_nil. reflexivity.
Qed.

Lemma read_records (rows : list (list string)) :
  forall f fs,
  Forall (fun r => r <> []) rows ->
  read d FieldStart
    (String.concat newline (map (recordText d) ((f :: fs) :: rows)))
  = (f, fs, rows).
Proof.
  induction rows as [|r rows IH]; intros f fs Hne.
  - cbn [map String.concat].
    rewrite <- (append_nil (recordText d (f :: fs))).
    apply read_record; [left; reflexivity | reflexivity].
  - apply Forall_cons in Hne as [Hr Hne].
    destruct r as [|g gs]; [congruence|].
    change (String.concat newline (map (recordText d) ((f :: fs) :: (g :: gs) :: rows)))
      with (recordText d (f :: fs) +:+ newline
            +:+ String.concat newline (map (recordText d) ((g :: gs) :: rows))).
    unfold newline at 1.
    change (String "010" "" +:+ ?x) with (String lfChar x).
    apply read_record; [right; eexists; right; reflexivity|].
    cbn [read].
    replace (Ascii.eqb lfChar quoteChar) with false by reflexivity.
    replace (Ascii.eqb lfChar d) with false
      by (symmetry; apply Ascii.eqb_neq; congruence).
    rewrite Ascii.eqb_refl, (IH g gs Hne). reflexivity.
Qed.

Lemma plain_cells (l : list string) :
  Forall (fun k => plain (String d "") k = true) l ->
  map (escapeField (String d "")) l = l.
Proof.
  induction 1 as [|k l Hk _ IH]; [reflexivity|]. cbn [map]. rewrite IH.
  f_equal. unfold escapeField. unfold plain in Hk.
  apply negb_true_iff in Hk. rewrite Hk. reflexivity.
Qed.

Lemma cells_texts (vs : list JsVal) (cells : list string) :
  mapM (cell (String d "")) vs = Ok cells ->
  exists texts,
    mapM valueText vs = Ok texts
    /\ cells = map (escapeField (String d "")) texts.
Proof.
  revert cells. induction vs as [|v vs IH]; intros cells; cbn [mapM bind].
  - intros [= <-]. exists []. split; reflexivity.
  - unfold cell at 1, valueText at 1.
    destruct (isNullish v).
    + cbn [bind].
      destruct (mapM (cell (String d "")) vs) as [cs|e]; [|discriminate].
      cbn [bind]. intros [= <-].
      destruct (IH cs eq_refl) as (texts & -> & ->).
      exists ("" :: texts). split; reflexivity.
    + destruct (Script.toString v) as [str|e]; [|discriminate]. cbn [bind].
      destruct (mapM (cell (String d "")) vs) as [cs|e]; [|discriminate].
      cbn [bind]. intros [= <-].
      destruct (IH cs eq_refl) as (texts & -> & ->).
      exists (str :: texts). split; reflexivity.
Qed.

Lemma lines_texts (records : list JsVal) (lines : list string) :
  mapM (line (String d "")) records = Ok lines ->
  Forall (fun r => ownEntries r <> []) records ->
  exists rows,
    mapM rowTexts records = Ok rows
    /\ lines = map (recordText d) rows
    /\ Forall (fun r => r <> []) rows.
Proof.
  revert lines. induction records as [|r records IH]; intros lines;
    cbn [mapM bind].
  - intros [= <-] _. exists []. repeat split. constructor.
  - unfold line at 1, rowTexts at 1.
    destruct (values r) as [vs|e] eqn:Hvs; [|discriminate]. cbn [bind].
    destruct (mapM (cell (String d "")) vs) as [cells|e] eqn:Hcells;
      [|discriminate].
    cbn [bind].
    destruct (mapM (line (String d "")) records) as [ls|e]; [|discriminate].
    cbn [bind]. intros [= <-] Hne. apply Forall_cons in Hne as [Hr Hne].
    destruct (IH ls eq_refl Hne) as (rows & -> & -> & Hrows).
    destruct (cells_texts vs cells Hcells) as (texts & Htexts & ->).
    rewrite Htexts. cbn [bind]. exists (texts :: rows). repeat split.
    constructor; [|exact Hrows].
    intros ->. apply Hr. unfold values in Hvs.
    destruct (isNullish r); [discriminate|]. injection Hvs as <-.
    apply mapM_length in Htexts.
    destruct (ownEntries r); [reflexivity | discriminate].
Qed.

End Reader.

(** X24: what [toCsv] writes with a one-character delimiter reads back
    under RFC 4180 (line feeds ending the records): the first record
    read is the list of the keys of the first row, and the record read
    for each row is the list of the texts of its values, whatever
    delimiters, line feeds and double quotes these texts hold.  The
    header is written without escaping, so this needs keys that hold
    none of the three; and every row must have a property, since a row
    without one gives an empty line, which is read as one empty field. *)
Theorem csv_reads_back (d : ascii) (r0 : JsVal) (rest : list JsVal)
    (header : list string) (text : string) :
  d <> quoteChar -> d <> lfChar ->
  toCsv (r0 :: rest) (String d "") = Ok text ->
  keys r0 = Ok header ->
  Forall (fun k => plain (String d "") k = true) header ->
  Forall (fun r => ownEntries r <> []) (r0 :: rest) ->
  exists rows,
    mapM rowTexts (r0 :: rest) = Ok rows
    /\ readCsv d text = header :: rows.
Proof.
  intros Hq Hl Hcsv Hkeys Hplain Hne. unfold toCsv in Hcsv.
  rewrite Hkeys in Hcsv. cbn [bind] in Hcsv.
  destruct (mapM (line (String d "")) (r0 :: rest)) as [lines|e] eqn:Hlines;
    [|discriminate].
  cbn [bind] in Hcsv.
  assert (Htext : text = String.concat newline
                           (String.concat (String d "") header :: lines))
    by congruence.
  subst text. clear Hcsv.
  destruct (lines_texts d (r0 :: rest) lines Hlines Hne)
    as (rows & Hrows & -> & Hfull).
  exists rows. split; [exact Hrows|].
  assert (Hhead : header <> []).
  { unfold keys in Hkeys. destruct (isNullish r0); [discriminate|].
    injection Hkeys as <-. apply Forall_cons in Hne as [Hr _].
    destruct (ownEntries r0); [congruence | discriminate]. }
  destruct header as [|k ks]; [congruence|].
  assert (Hheader : String.concat (String d "") (k :: ks)
                    = recordText d (k :: ks))
    by (unfold recordText; rewrite (plain_cells d (k :: ks) Hplain);
        reflexivity).
  rewrite Hheader.
  change (recordText d (k :: ks) :: map (recordText d) rows)
    with (map (recordText d) ((k :: ks) :: rows)).
  unfold readCsv. rewrite (read_records d Hq Hl rows k ks Hfull).
  reflexivity.
Qed.

Lemma csv_reads_back_witness :
  readCsv ","
    (String.concat newline
       ["name,note"; "Ann," +:+ dquote +:+ "a, b" +:+ dquote;
        "Bob," +:+ dquote +:+ "said " +:+ dquote +:+ dquote +:+ "hi"
          +:+ dquote +:+ dquote +:+ newline +:+ "twice" +:+ dquote])
  = [["name"; "note"]; ["Ann"; "a, b"];
     ["Bob"; "said " +:+ dquote +:+ "hi" +:+ dquote +:+ newline +:+ "twice"]].
Proof.
  destruct (csv_reads_back ","
              (JObj [("name", JStr "Ann"); ("note", JStr "a, b")])
              [JObj [("name", JStr "Bob");
                     ("note", JStr ("said " +:+ dquote +:+ "hi" +:+ dquote
                                    +:+ newline +:+ "twice"))]]
              ["name"; "note"] _ ltac:(discriminate) ltac:(discriminate)
              eq_refl eq_refl)
    as (rows & Hrows & Hread).
  - repeat constructor.
  - repeat constructor; discriminate.
  - vm_compute in Hrows. injection Hrows as <-. exact Hread.
Defined.

End CsvFacts.

(** ** The auth check *)

Module AuthFacts.

Import Auth.

#[local] Arguments String.append : simpl nomatch.

Lemma prefix_dropStr (p s : string) :
  String.prefix p s = true -> s = p +:+ Str.dropStr (String.length p) s.
Proof.
  revert s. induction p as [|c p IH]; intros s; [reflexivity|].
  destruct s as [|d s]; [discriminate|]. cbn [String.prefix].
  destruct (ascii_dec c d) as [<-|]; [|discriminate].
  intros Hp. simpl. f_equal. apply IH, Hp.
Qed.

Lemma bearerToken_some (authHeader : option string) (t : string) :
  bearerToken authHeader = Some t -> authHeader = Some ("Bearer " +:+ t).
Proof.
  destruct authHeader as [h|]; [|discriminate]. unfold bearerToken.
  destruct (negb (String.eqb h "")); cbn [andb]; [|discriminate].
  destruct (Str.startsWith h "Bearer ") eqn:Hp; [|discriminate].
  intros [= <-]. f_equal. apply (prefix_dropStr "Bearer " h Hp).
Qed.

(** X25: the auth check answers "authenticated" only for a token that
    the verifier accepts, taken from the cookie or, when there is no
    cookie (or an empty one), from an [Authorization] header of the form
    "Bearer <token>"; a cookie that the verifier rejects is not made up
    for by a header, whatever token that carries. *)
Theorem auth_needs_verified_token (verify : string -> option JsVal)
    (cookieToken authHeader : option string) :
  (getOpt (authCheck verify cookieToken authHeader) "authenticated"
   = JBool true ->
   exists t decoded,
     t <> "" /\ verify t = Some decoded
     /\ (cookieToken = Some t
         \/ ((cookieToken = None \/ cookieToken = Some "")
             /\ authHeader = Some ("Bearer " +:+ t))))
  /\ (forall c, cookieToken = Some c -> c <> "" -> verify c = None ->
                authCheck verify cookieToken authHeader = unauthenticated).
Proof.
  split.
  - unfold authCheck.
    destruct (token cookieToken authHeader) as [t|] eqn:Ht; [|discriminate].
    destruct (String.eqb_spec t "") as [->|Hne]; [discriminate|].
    destruct (verify t) as [decoded|] eqn:Hv; [|discriminate].
    intros _. exists t, decoded. split; [exact Hne|]. split; [exact Hv|].
    unfold token in Ht. destruct cookieToken as [c|].
    + destruct (String.eqb_spec c "") as [->|Hc].
      * right. split; [right; reflexivity | apply bearerToken_some, Ht].
      * left. exact Ht.
    + right. split; [left; reflexivity | apply bearerToken_some, Ht].
  - intros c -> Hc Hv. unfold authCheck, token.
    apply String.eqb_neq in Hc. rewrite Hc, Hc, Hv. reflexivity.
Qed.

End AuthFacts.

(** ** The duration cache *)

Module DurationFacts.

Import Server Recordings.

(** X26: once the duration of a recording has been determined, every
    later request for it that names an account is answered with the same
    duration from the cache, without a token request or a GET, for good
    (the entries never expire); a request that does not determine a
    duration leaves the cache as it was. *)
Theorem duration_cached_for_good {Duration : Type} (known : Duration -> bool)
    (ofDuration : Duration -> JsVal)
    (durationCache : gmap string Duration) (id acc : string) (d : Duration) :
  acc <> "" -> durationCache !! id = None -> known d = true ->
  let first := meta Duration known ofDuration durationCache id (Some acc)
                 (Parsed Duration d) in
  response _ first
  = {| status := 200; body := JObj [("duration", ofDuration d)] |}
  /\ contacts _ first = [AskToken acc; GetRange id]
  /\ (forall acc' up', acc' <> "" ->
        meta Duration known ofDuration (cache _ first) id (Some acc') up'
        = {| response := response _ first; cache := cache _ first;
             contacts := [] |})
  /\ (forall account up,
        (forall d', up = Parsed Duration d' -> known d' = false) ->
        cache _ (meta Duration known ofDuration durationCache id account up)
        = durationCache).
Proof.
  intros Hacc Hmiss Hknown first.
  apply String.eqb_neq in Hacc.
  assert (Hfirst : first = found Duration ofDuration d (<[id := d]> durationCache)
                             [AskToken acc; GetRange id]).
  { subst first. unfold meta, nonEmpty. rewrite Hacc, Hmiss, Hknown.
    reflexivity. }
  rewrite Hfirst. cbn [found response contacts cache].
  split; [reflexivity|]. split; [reflexivity|]. split.
  - intros acc' up' Hacc'. apply String.eqb_neq in Hacc'.
    unfold meta, nonEmpty. rewrite Hacc', lookup_insert_eq. reflexivity.
  - intros account up Hfail. unfold meta, nonEmpty.
    destruct account as [a|]; [|reflexivity].
    destruct (String.eqb a ""); [reflexivity|]. rewrite Hmiss.
    destruct up as [st msg|st msg|msg|d']; try reflexivity.
    rewrite (Hfail d' eq_refl). reflexivity.
Qed.

Lemma duration_cached_for_good_witness :
  meta Z (fun d => negb (d =? 0)) JNum
    (cache _ (meta Z (fun d => negb (d =? 0)) JNum ∅ "rec1" (Some "acme")
                (Parsed Z 42)))
    "rec1" (Some "other") (TokenThrows Z None (JStr "no token"))
  = {| response := {| status := 200; body := JObj [("duration", JNum 42)] |};
       cache := <["rec1" := 42]> ∅;
       contacts := [] |}.
Proof.
  refine (proj1 (proj2 (proj2
            (duration_cached_for_good (fun d => negb (d =? 0)) JNum ∅ "rec1"
               "acme" 42 _ eq_refl eq_refl)))
            "other" (TokenThrows Z None (JStr "no token")) _);
    discriminate.
Defined.

End DurationFacts.

(** ** The page on display, the totals and the duration text *)

Module DisplayFacts.

Import Script Display ViewTerms.

Lemma tally_from (l : list Row) (t0 : Totals) :
  let t := fold_left tally l t0 in
  inCt t = inCt t0 + ofType "Inbound" l
  /\ outCt t = outCt t0 + ofType "Outbound" l
  /\ campCt t = campCt t0 + ofType "Campaign" l
  /\ total t = total t0
  /\ inCt t + outCt t + campCt t + cdrCt t
     = inCt t0 + outCt t0 + campCt t0 + cdrCt t0 + Z.of_nat (length l).
Proof.
  revert t0. induction l as [|r l IH]; intros t0.
  - unfold ofType. cbn. lia.
  - cbn [fold_left]. specialize (IH (tally t0 r)).
    cbv zeta in IH |- *. destruct IH as (Hi & Ho & Hc & Ht & Hsum).
    set (f := fold_left tally l (tally t0 r)) in *.
    revert Hi Ho Hc Ht Hsum. unfold ofType, tally.
    cbn [List.filter length].
    destruct (String.eqb_spec (Type_ r) "Inbound") as [Ei|Ei].
    + rewrite Ei. cbn. lia.
    + destruct (String.eqb_spec (Type_ r) "Outbound") as [Eo|Eo].
      * rewrite Eo. cbn. lia.
      * destruct (String.eqb_spec (Type_ r) "Campaign") as [Ec|Ec]; cbn; lia.
Qed.

(** X27: the totals count every record once: the inbound, outbound and
    campaign counters are the numbers of records of these types, every
    other record is counted as CDR, and the four counters add up to the
    total, which is the length of the list. *)
Theorem totals_add_up (l : list Row) :
  let t := computeTotals l in
  inCt t = ofType "Inbound" l
  /\ outCt t = ofType "Outbound" l
  /\ campCt t = ofType "Campaign" l
  /\ cdrCt t = Z.of_nat (length l) - ofType "Inbound" l
               - ofType "Outbound" l - ofType "Campaign" l
  /\ total t = Z.of_nat (length l)
  /\ inCt t + outCt t + campCt t + cdrCt t = total t.
Proof.
  unfold computeTotals.
  destruct (tally_from l {| inCt := 0; outCt := 0; campCt := 0; cdrCt := 0;
                            total := Z.of_nat (length l) |})
    as (Hi & Ho & Hc & Ht & Hsum).
  cbv zeta. cbn [inCt outCt campCt cdrCt total] in *.
  repeat split; lia.
Qed.

Lemma totalPages_bounds (n : nat) :
  1 <= totalPages n
  /\ Z.of_nat n <= totalPages n * 500
  /\ ((0 < n)%nat -> (totalPages n - 1) * 500 < Z.of_nat n).
Proof.
  unfold totalPages, PAGE_SIZE.
  pose proof (Z.div_mod (Z.of_nat n + (500 - 1)) 500 ltac:(lia)) as Hdm.
  pose proof (Z.mod_pos_bound (Z.of_nat n + (500 - 1)) 500 ltac:(lia)) as Hb.
  lia.
Qed.

Lemma lookup_slice {A} (l : list A) (a : Z) (i : nat) :
  0 <= a ->
  slice l a (a + 500) !! i
  = if (i <? 500)%nat then l !! (Z.to_nat a + i)%nat else None.
Proof.
  intros Ha. unfold slice. replace (a + 500 - a) with 500 by lia.
  destruct (Nat.ltb_spec i 500) as [Hlt|Hge].
  - rewrite lookup_take_lt by (change (Z.to_nat 500) with 500%nat; lia).
    apply lookup_drop.
  - apply lookup_take_ge. change (Z.to_nat 500) with 500%nat. lia.
Qed.

Lemma noMoreTokens_spec (st : State) :
  noMoreTokens st = true <-> forall k, pget (nextTokens st) k = JNull.
Proof.
  unfold noMoreTokens, sources. cbn [forallb]. split.
  - intros Hall k.
    repeat (apply andb_true_iff in Hall as [? Hall]).
    destruct k;
      match goal with
      | |- ?x = JNull => destruct x; try discriminate; reflexivity
      end.
  - intros Hall. rewrite !Hall. reflexivity.
Qed.

Lemma buffersEmpty_spec (st : State) :
  buffersEmpty st = true <-> buffered (buffers st) = 0%nat.
Proof.
  unfold buffersEmpty, buffered, sources.
  destruct (buffers st) as [bi bo bc bd].
  cbn [forallb pget p_in p_out p_camp p_cdr fold_left].
  destruct bi, bo, bc, bd; cbn [length andb]; split; intros Heq;
    try discriminate; try reflexivity; lia.
Qed.

(** X28: the page shown is the asked one brought into the range from 1 to
    the number of pages; its rows are the (at most 500) rows of the
    filtered list from the first serial number on; and the Next button is
    disabled exactly on the last page with every buffer empty and every
    cursor null. *)
Theorem page_in_range (st : State) (currentPage : Z) (l : list Row) :
  let r := renderCurrentPage st currentPage l in
  1 <= page r <= pages r
  /\ (1 <= currentPage <= pages r -> page r = currentPage)
  /\ (currentPage < 1 -> page r = 1)
  /\ (pages r < currentPage -> page r = pages r)
  /\ (forall i, pageSlice r !! i
                = if (i <? 500)%nat
                  then l !! (Z.to_nat (firstSerial r - 1) + i)%nat else None)
  /\ (nextDisabled r = true
      <-> page r = pages r /\ buffered (buffers st) = 0%nat
          /\ forall k, pget (nextTokens st) k = JNull).
Proof.
  cbv zeta. unfold renderCurrentPage.
  cbn [page pages pageSlice firstSerial nextDisabled].
  pose proof (totalPages_bounds (length l)) as (Hone & _ & _).
  set (tp := totalPages (length l)) in *.
  set (p1 := if tp <? currentPage then tp else currentPage).
  set (p := if p1 <? 1 then 1 else p1).
  assert (Hp : 1 <= p <= tp
               /\ (1 <= currentPage <= tp -> p = currentPage)
               /\ (currentPage < 1 -> p = 1)
               /\ (tp < currentPage -> p = tp)).
  { subst p p1. destruct (Z.ltb_spec tp currentPage);
      [destruct (Z.ltb_spec tp 1) | destruct (Z.ltb_spec currentPage 1)];
      lia. }
  destruct Hp as (Hr & Hsame & Hlow & Hhigh).
  split; [exact Hr|]. split; [exact Hsame|]. split; [exact Hlow|].
  split; [exact Hhigh|]. split.
  - intros i. unfold PAGE_SIZE.
    rewrite lookup_slice by lia.
    replace ((p - 1) * 500 + 1 - 1) with ((p - 1) * 500) by lia. reflexivity.
  - rewrite andb_true_iff, negb_true_iff, negb_false_iff, andb_true_iff,
      Z.eqb_eq, buffersEmpty_spec, noMoreTokens_spec. tauto.
Qed.

(** X29: paging loses no row: the row at index [j] of the filtered list
    is shown on page [j / 500 + 1], at place [j mod 500], under the
    serial number [j + 1]. *)
Theorem every_row_on_a_page (st : State) (l : list Row) (j : nat) (row : Row) :
  l !! j = Some row ->
  let r := renderCurrentPage st (Z.of_nat j / 500 + 1) l in
  page r = Z.of_nat j / 500 + 1
  /\ pageSlice r !! (j mod 500)%nat = Some row
  /\ firstSerial r + Z.of_nat (j mod 500) = Z.of_nat j + 1.
Proof.
  intros Hj. cbv zeta. unfold renderCurrentPage.
  cbn [page pageSlice firstSerial].
  apply lookup_lt_Some in Hj as Hlt.
  pose proof (totalPages_bounds (length l)) as (Hone & Hcap & _).
  set (tp := totalPages (length l)) in *.
  pose proof (Z.div_mod (Z.of_nat j) 500 ltac:(lia)) as Hdm.
  pose proof (Z.mod_pos_bound (Z.of_nat j) 500 ltac:(lia)) as Hb.
  assert (Hmod : Z.of_nat (j mod 500) = Z.of_nat j mod 500).
  { rewrite Nat2Z.inj_mod. reflexivity. }
  assert (Hq : 0 <= Z.of_nat j / 500) by (apply Z.div_pos; lia).
  assert (Hle : Z.of_nat j / 500 + 1 <= tp) by nia.
  destruct (Z.ltb_spec tp (Z.of_nat j / 500 + 1)) as [Hbad|_]; [lia|].
  destruct (Z.ltb_spec (Z.of_nat j / 500 + 1) 1) as [Hbad|_]; [lia|].
  split; [reflexivity|]. unfold PAGE_SIZE. split; [|lia].
  rewrite lookup_slice by lia.
  assert (Hsmall : (j mod 500 < 500)%nat) by (apply Nat.mod_upper_bound; lia).
  apply Nat.ltb_lt in Hsmall. rewrite Hsmall.
  replace (Z.to_nat ((Z.of_nat j / 500 + 1 - 1) * 500) + j mod 500)%nat
    with j by lia.
  exact Hj.
Qed.

Lemma every_row_on_a_page_witness :
  pageSlice (renderCurrentPage (Sample.exhausted [])
               (Z.of_nat 1 / 500 + 1)
               [Sample.revealed "a" (JNum 1700000100);
                Sample.revealed "b" (JStr "")]) !! (1 mod 500)%nat
  = Some (Sample.revealed "b" (JStr "")).
Proof.
  apply (every_row_on_a_page (Sample.exhausted [])
           [Sample.revealed "a" (JNum 1700000100);
            Sample.revealed "b" (JStr "")] 1 (Sample.revealed "b" (JStr ""))
           eq_refl).
Defined.

Lemma string_length_app (s1 s2 : string) :
  String.length (s1 +:+ s2) = (String.length s1 + String.length s2)%nat.
Proof.
  induction s1 as [|c s1 IH]; [reflexivity|].
  change (String c s1 +:+ s2) with (String c (s1 +:+ s2)).
  cbn [String.length]. rewrite IH. reflexivity.
Qed.

Lemma pad2_length (n : Z) : 0 <= n < 60 -> String.length (pad2 n) = 2%nat.
Proof.
  intros Hn.
  assert (Hall : forallb (fun k => Nat.eqb (String.length (pad2 (Z.of_nat k))) 2)
                   (seq 0 60) = true) by (vm_compute; reflexivity).
  rewrite forallb_forall in Hall.
  specialize (Hall (Z.to_nat n)). rewrite Z2Nat.id in Hall by lia.
  apply Nat.eqb_eq, Hall, in_seq. lia.
Qed.

(** X30: for a count of seconds that is not negative (and that a double
    holds exactly, below 2^53), the text shows the whole days, then hours
    below 24, minutes and seconds below 60 that add up to the count, the
    clock being eight characters long; below one day the text is the
    clock alone. *)
Theorem hms_splits_seconds (parseInt : JsVal -> option Z) (sec : JsVal)
    (total : Z) :
  parseInt sec = Some total -> 0 <= total < 2 ^ 53 ->
  exists d h m s,
    secondsToHMS parseInt sec = JStr (dayPart d +:+ clock h m s)
    /\ 0 <= d /\ 0 <= h < 24 /\ 0 <= m < 60 /\ 0 <= s < 60
    /\ total = d * 86400 + h * 3600 + m * 60 + s
    /\ String.length (clock h m s) = 8%nat
    /\ (total < 86400 ->
        secondsToHMS parseInt sec = JStr (clock h m s)).
Proof.
  intros Hparse Hpos. unfold secondsToHMS. rewrite Hparse. cbv zeta.
  exists (total / 86400), (Z.rem total 86400 / 3600),
    (Z.rem (Z.rem total 86400) 3600 / 60), (Z.rem (Z.rem total 86400) 60).
  rewrite !Z.rem_mod_nonneg by
    (try lia; try (apply Z.mod_pos_bound; lia);
     try (apply Z.rem_nonneg; lia)).
  pose proof (Z.div_mod total 86400 ltac:(lia)) as H1.
  pose proof (Z.mod_pos_bound total 86400 ltac:(lia)) as B1.
  set (rem := total mod 86400) in *.
  pose proof (Z.div_mod rem 3600 ltac:(lia)) as H2.
  pose proof (Z.mod_pos_bound rem 3600 ltac:(lia)) as B2.
  pose proof (Z.div_mod (rem mod 3600) 60 ltac:(lia)) as H3.
  pose proof (Z.mod_pos_bound (rem mod 3600) 60 ltac:(lia)) as B3.
  pose proof (Z.mod_pos_bound rem 60 ltac:(lia)) as B4.
  assert (Hs : rem mod 60 = (rem mod 3600) mod 60).
  { symmetry. apply Z.mod_mod_divide. exists 60. reflexivity. }
  assert (Hd : 0 <= total / 86400) by (apply Z.div_pos; lia).
  assert (Hh : 0 <= rem / 3600 < 24).
  { split; [apply Z.div_pos; lia | apply Z.div_lt_upper_bound; lia]. }
  assert (Hm : 0 <= rem mod 3600 / 60 < 60).
  { split; [apply Z.div_pos; lia | apply Z.div_lt_upper_bound; lia]. }
  split; [reflexivity|]. split; [exact Hd|]. split; [exact Hh|].
  split; [exact Hm|]. split; [lia|]. split; [lia|]. split.
  - unfold clock. rewrite !string_length_app, !pad2_length by lia.
    reflexivity.
  - intros Hday. rewrite Z.div_small by lia. reflexivity.
Qed.

Lemma hms_splits_seconds_witness :
  exists d h m s,
    secondsToHMS (fun v => match v with JNum n => Some n | _ => None end)
      (JNum 93784)
    = JStr (dayPart d +:+ clock h m s)
    /\ 0 <= d /\ 0 <= h < 24 /\ 0 <= m < 60 /\ 0 <= s < 60
    /\ 93784 = d * 86400 + h * 3600 + m * 60 + s
    /\ String.length (clock h m s) = 8%nat
    /\ (93784 < 86400 ->
        secondsToHMS (fun v => match v with JNum n => Some n | _ => None end)
          (JNum 93784)
        = JStr (clock h m s)).
Proof.
  apply (hms_splits_seconds
           (fun v => match v with JNum n => Some n | _ => None end)
           (JNum 93784) 93784 eq_refl); lia.
Defined.

End DisplayFacts.
